(** * A shallow embedding of [app.py]: the workspace file operations, the AI
    command interpreter and the live-preview supervisor.

    Python text is modelled by [string]; a character stands for the code point
    of the same number, and files on disk are represented by their decoded
    text.  The workspace lives in a POSIX file system without symbolic
    links. *)

From Stdlib Require Import ZArith Lia Ascii String SpecFloat Sorted.
From stdpp Require Import base option list strings gmap pretty.

Local Open Scope string_scope.
Local Open Scope Z_scope.

(** ** Python [str] primitives *)

Module PyStr.

(** [c.isspace()] for the code points below 256. *)
Definition is_space (c : ascii) : bool :=
  let n := Ascii.N_of_ascii c in
  ((9 <=? n) && (n <=? 13) || (28 <=? n) && (n <=? 32)
   || (n =? 133) || (n =? 160))%N.

(** [s.lstrip()] *)
Fixpoint lstrip (s : string) : string :=
  match s with
  | String c t => if is_space c then lstrip t else s
  | EmptyString => EmptyString
  end.

(** [s.rstrip()] *)
Fixpoint rstrip (s : string) : string :=
  match s with
  | String c t =>
      match rstrip t with
      | EmptyString => if is_space c then EmptyString else String c EmptyString
      | t' => String c t'
      end
  | EmptyString => EmptyString
  end.

(** [s.strip()] *)
Definition strip (s : string) : string := rstrip (lstrip s).

(** [s.startswith(p)] *)
Fixpoint startswith (p s : string) : bool :=
  match p, s with
  | EmptyString, _ => true
  | String a p', String b s' => if Ascii.eqb a b then startswith p' s' else false
  | String _ _, EmptyString => false
  end.

(** [needle in s] *)
Fixpoint contains (needle s : string) : bool :=
  startswith needle s ||
  match s with
  | String _ t => contains needle t
  | EmptyString => false
  end.

(** The effective bound of a slice index on a sequence of length [n]:
    negative indices count from the end, and everything is clipped to
    [0..n]. *)
Definition slice_bound (n i : Z) : Z :=
  if i <? 0 then Z.max 0 (n + i) else Z.min i n.

(** [s[start:stop]] *)
Definition slice (start stop : Z) (s : string) : string :=
  let n := Z.of_nat (String.length s) in
  let a := slice_bound n start in
  let b := slice_bound n stop in
  if a <? b then String.substring (Z.to_nat a) (Z.to_nat (b - a)) s
  else EmptyString.

(** Reference operations used to state what a slice removes. *)
Fixpoint drop_first (k : nat) (s : string) : string :=
  match k, s with
  | S k', String _ t => drop_first k' t
  | _, _ => s
  end.

Fixpoint take_first (k : nat) (s : string) : string :=
  match k, s with
  | S k', String c t => String c (take_first k' t)
  | _, _ => EmptyString
  end.

Definition drop_last (k : nat) (s : string) : string :=
  take_first (String.length s - k) s.

End PyStr.

(** ** [_clean_ai_response_text] *)

Definition _clean_ai_response_text (ai_response_text : string) : string :=
  let text := PyStr.strip ai_response_text in
  if PyStr.startswith "```json" text then PyStr.strip (PyStr.slice 7 (-3) text)
  else if PyStr.startswith "```" text then PyStr.strip (PyStr.slice 3 (-3) text)
  else text.

(** ** Paths ([pathlib] on POSIX) *)

Module PosixPath.

(** [s.split(sep)] for a one-character separator. *)
Fixpoint split_on (sep : ascii) (s : string) : list string :=
  match s with
  | EmptyString => [EmptyString]
  | String c t =>
      if Ascii.eqb c sep then EmptyString :: split_on sep t
      else match split_on sep t with
           | x :: r => String c x :: r
           | [] => [String c EmptyString]
           end
  end.

Definition is_skipped (c : string) : bool :=
  String.eqb c "" || String.eqb c ".".

(** The components of a path: empty components and ["."] are dropped,
    [".."] is kept. *)
Definition parts (p : string) : list string :=
  List.filter (fun c => negb (is_skipped c)) (split_on "/" p).

Definition is_absolute (p : string) : bool := PyStr.startswith "/" p.

(** [base / child]: an absolute right operand replaces the left one. *)
Definition joinpath (base child : string) : string :=
  if is_absolute child then child else base +:+ "/" +:+ child.

(** Walking the components from a directory; [".."] goes to the parent and
    the root is its own parent. *)
Fixpoint walk (dir : list string) (cs : list string) : list string :=
  match cs with
  | [] => dir
  | c :: r =>
      if String.eqb c ".." then walk (removelast dir) r
      else walk (dir ++ [c]) r
  end.

(** The absolute location, as a list of components from the root, that the
    operating system reaches for path [p] when the current directory is
    [cwd]. *)
Definition resolve (cwd : list string) (p : string) : list string :=
  walk (if is_absolute p then [] else cwd) (parts p).

(** [p.name] *)
Definition name (p : string) : string := List.last (parts p) "".

Fixpoint from_last_dot (s : string) : option string :=
  match s with
  | EmptyString => None
  | String c t =>
      match from_last_dot t with
      | Some r => Some r
      | None => if Ascii.eqb c "." then Some s else None
      end
  end.

(** [p.suffix]: the last dot of the name must be neither its first nor its
    last character. *)
Definition suffix (p : string) : string :=
  match name p with
  | String _ t =>
      match from_last_dot t with
      | Some r => if (1 <? String.length r)%nat then r else ""
      | None => ""
      end
  | EmptyString => ""
  end.

(** [str(p)] for an absolute list of components. *)
Definition render (cs : list string) : string :=
  match cs with
  | [] => "/"
  | _ => List.fold_right (fun c acc => "/" +:+ c +:+ acc) "" cs
  end.

End PosixPath.

(** ** Python values reaching the program through [json.loads] *)

#[local] Set Warnings "-register-all".

Inductive value :=
| VNone
| VBool (b : bool)
| VInt (z : Z)
| VFloat (f : spec_float)
| VStr (s : string)
| VList (items : list value)
| VDict (entries : list (string * value)).

(** [bool(v)] *)
Definition truthy (v : value) : bool :=
  match v with
  | VNone => false
  | VBool b => b
  | VInt z => negb (z =? 0)
  | VFloat f => match f with S754_zero _ => false | _ => true end
  | VStr s => negb (String.eqb s "")
  | VList items => match items with [] => false | _ => true end
  | VDict entries => match entries with [] => false | _ => true end
  end.

(** [d.get(key)] on the entries of a dict, in insertion order. *)
Fixpoint dict_get (key : string) (entries : list (string * value)) : value :=
  match entries with
  | [] => VNone
  | (k, v) :: rest => if String.eqb k key then v else dict_get key rest
  end.

(** [v == s] for a string literal [s]. *)
Definition eq_str (v : value) (s : string) : bool :=
  match v with
  | VStr t => String.eqb t s
  | _ => false
  end.

(** ** Exceptions *)

(** The subclasses of [Exception] that the program can meet. *)
Inductive error :=
| FileNotFoundError
| IsADirectoryError
| NotADirectoryError
| TypeError
| AttributeError
| JSONDecodeError
| ProcessLookupError
| TimeoutExpired
| OtherError (name : string).

(** Streamlit's [RerunException] derives from [BaseException], not from
    [Exception]: [st.rerun()] raises it to abandon the current run of the
    script, and an [except Exception] clause does not intercept it. *)
Inductive exn :=
| RerunException
| Error (e : error).

(** The result of a call into the environment. *)
Inductive outcome (A : Type) :=
| Ok (a : A)
| Err (e : error).
Arguments Ok {A} a.
Arguments Err {A} e.

(** ** The state of the program *)

(** An entry of the file system. *)
Inductive node :=
| File (data : string)
| Dir.

(** The file system maps absolute locations (components from the root) to
    entries; the root itself is a directory and has no entry. *)
Abbreviation filesystem := (gmap (list string) node).

(** A [subprocess.Popen] object. *)
Record popen := { pid : Z }.

(** [st.session_state] once [initialize_session_state] has run. *)
Record session_state := {
  messages : list value;
  selected_file : option string;
  file_content_on_load : value;
  preview_process : option popen;
  preview_port : option Z;
  preview_url : option string;
  preview_file : option string;
  editor_unsaved_content : value;
  last_saved_content : value;
}.

(** The defaults of [initialize_session_state]. *)
Definition state_defaults : session_state := {|
  messages := [];
  selected_file := None;
  file_content_on_load := VStr "";
  preview_process := None;
  preview_port := None;
  preview_url := None;
  preview_file := None;
  editor_unsaved_content := VStr "";
  last_saved_content := VStr "";
|}.

Inductive ui_kind :=
| UiError | UiWarning | UiInfo | UiSuccess | UiToast | UiCode.

(** What the program does to its surroundings, in the order it does it.  Of
    a Streamlit message only the kind is kept. *)
Inductive event :=
| Ui (k : ui_kind)
| FsIsFile (p : list string)
| FsOpenRead (p : list string)
| FsOpenWrite (p : list string)
| FsRemove (p : list string)
| FindPort
| ProcSpawn (command : list string)
| ProcPoll (h : popen)
| ProcTerminate (h : popen)
| ProcKill (h : popen)
| ProcWait (h : popen) (timeout_ms : Z)
| ProcReadStderr (h : popen)
| ProcReadStdout (h : popen)
| Sleep (ms : Z).

Record world := {
  fs : filesystem;
  session : session_state;
  trace : list event;
}.

(** What the operating system answers to the calls of one run: the port
    search, the spawn and the calls on process handles, each of which may
    raise. [None] from a poll means that the process is still running. *)
Record os_behaviour := {
  find_available_port : outcome Z;
  spawn : outcome popen;
  poll_after_startup : outcome (option Z);
  read_stderr : outcome string;
  read_stdout : outcome string;
  poll_before_terminate : outcome (option Z);
  terminate : outcome unit;
  wait_after_terminate : outcome Z;
  poll_before_kill : outcome (option Z);
  kill : outcome unit;
  wait_after_kill : outcome Z;
}.

(** ** Computations: state passing with exceptions *)

Inductive result (A : Type) :=
| Return (a : A)
| Raise (x : exn).
Arguments Return {A} a.
Arguments Raise {A} x.

Definition M (A : Type) : Type := world -> result A * world.

Definition ret {A} (a : A) : M A := fun w => (Return a, w).

Definition raise {A} (x : exn) : M A := fun w => (Raise x, w).

Definition bind {A B} (m : M A) (k : A -> M B) : M B :=
  fun w =>
    match m w with
    | (Return a, w') => k a w'
    | (Raise x, w') => (Raise x, w')
    end.

Notation "'let!' x ':=' m 'in' k" := (bind m (fun x => k))
  (at level 10, x pattern, m at level 100, k at level 200).
Notation "m ';;' k" := (bind m (fun _ => k))
  (at level 100, k at level 200, right associativity).

(** [try: m  except Exception as e: handler e], restricted to the errors that
    [catches] selects; [RerunException] always passes through. *)
Definition try_except {A} (catches : error -> bool) (m : M A)
    (handler : error -> M A) : M A :=
  fun w =>
    match m w with
    | (Raise (Error e), w') =>
        if catches e then handler e w' else (Raise (Error e), w')
    | r => r
    end.

Definition any_Exception (e : error) : bool := true.

Definition is_TimeoutExpired (e : error) : bool :=
  match e with TimeoutExpired => true | _ => false end.

Definition emit (e : event) : M unit :=
  fun w => (Return tt, {| fs := fs w; session := session w; trace := trace w ++ [e] |}).

Definition ui (k : ui_kind) : M unit := emit (Ui k).

(** A call into the environment: it is recorded, then returns or raises. *)
Definition call {A} (e : event) (answer : outcome A) : M A :=
  emit e ;;
  match answer with
  | Ok a => ret a
  | Err x => raise (Error x)
  end.

Definition get_session : M session_state := fun w => (Return (session w), w).

Definition set_session (s : session_state) : M unit :=
  fun w => (Return tt, {| fs := fs w; session := s; trace := trace w |}).

Definition get_fs : M filesystem := fun w => (Return (fs w), w).

Definition set_fs (f : filesystem) : M unit :=
  fun w => (Return tt, {| fs := f; session := session w; trace := trace w |}).

(** ** File system calls *)

Definition is_dir (f : filesystem) (p : list string) : bool :=
  match p with
  | [] => true
  | _ => match f !! p with Some Dir => true | _ => false end
  end.

(** The error of reaching through a parent that is not a directory. *)
Definition parent_error (f : filesystem) (p : list string) : error :=
  match f !! removelast p with
  | Some (File _) => NotADirectoryError
  | _ => FileNotFoundError
  end.

(** Reading in text mode with the default [newline=None]: the end-of-line
    sequences CR LF and CR both arrive as LF. *)
Fixpoint universal_newlines (s : string) : string :=
  match s with
  | EmptyString => EmptyString
  | String c t =>
      if Ascii.eqb c "013" then
        match t with
        | String c' t' =>
            if Ascii.eqb c' "010" then String "010" (universal_newlines t')
            else String "010" (universal_newlines t)
        | EmptyString => String "010" EmptyString
        end
      else String c (universal_newlines t)
  end.

Definition is_file (f : filesystem) (p : list string) : bool :=
  match f !! p with
  | Some (File _) => is_dir f (removelast p)
  | _ => false
  end.

(** [Path.is_file()] *)
Definition fs_is_file (p : list string) : M bool :=
  emit (FsIsFile p) ;;
  let! f := get_fs in
  ret (is_file f p).

(** [open(p, 'r', encoding='utf-8')] followed by [f.read()].  A file of the
    model holds a text: a file that may not be read, or whose bytes do not
    decode, for which the call raises, is not modelled. *)
Definition fs_read_text (p : list string) : M string :=
  emit (FsOpenRead p) ;;
  let! f := get_fs in
  if negb (is_dir f (removelast p)) then raise (Error (parent_error f p))
  else match p, f !! p with
       | [], _ => raise (Error IsADirectoryError)
       | _, Some (File data) => ret (universal_newlines data)
       | _, Some Dir => raise (Error IsADirectoryError)
       | _, None => raise (Error FileNotFoundError)
       end.

(** [open(p, 'w', encoding='utf-8')]: the file is created or emptied. *)
Definition fs_open_write (p : list string) : M unit :=
  emit (FsOpenWrite p) ;;
  let! f := get_fs in
  if negb (is_dir f (removelast p)) then raise (Error (parent_error f p))
  else match p, f !! p with
       | [], _ => raise (Error IsADirectoryError)
       | _, Some Dir => raise (Error IsADirectoryError)
       | _, _ => set_fs (<[p := File ""]> f)
       end.

(** [f.write(content)] on a file just opened for writing, and closing it.
    On POSIX an LF is written as it is.  The write of a text succeeds: a
    write that fails once opening has emptied the file (no space left, a text
    that does not encode) is not modelled. *)
Definition fs_write (p : list string) (content : value) : M unit :=
  match content with
  | VStr text => let! f := get_fs in set_fs (<[p := File text]> f)
  | _ => raise (Error TypeError)
  end.

(** [os.remove(p)] *)
Definition fs_remove (p : list string) : M unit :=
  emit (FsRemove p) ;;
  let! f := get_fs in
  match f !! p with
  | Some (File _) => set_fs (delete p f)
  | Some Dir => raise (Error IsADirectoryError)
  | None => raise (Error FileNotFoundError)
  end.

(** ** The program *)

Definition WORKSPACE_DIR : string := "workspace_st_apps".

Section App.

(** The current directory of the process, the interpreter path
    ([sys.executable]) and three library functions: [json.loads], [repr] and
    [str] on exceptions. *)
Variable cwd : list string.
Variable sys_executable : string.
Variable json_loads : string -> outcome value.
Variable repr : value -> string.
Variable str_of_error : error -> string.

(** [f'{v}'] *)
Definition format (v : value) : string :=
  match v with
  | VStr s => s
  | _ => repr v
  end.

(** [needle in v] for a string [needle] *)
Definition contains_str (needle : string) (v : value) : outcome bool :=
  match v with
  | VStr s => Ok (PyStr.contains needle s)
  | VList items => Ok (existsb (fun x => eq_str x needle) items)
  | VDict entries => Ok (existsb (fun kv => String.eqb (fst kv) needle) entries)
  | _ => Err TypeError
  end.

(** [v.startswith(('/', '\\'))] *)
Definition startswith_separator (v : value) : outcome bool :=
  match v with
  | VStr s => Ok (PyStr.startswith "/" s || PyStr.startswith "\" s)
  | _ => Err AttributeError
  end.

(** The guard of the three file operations:
    ['..' in filename or filename.startswith(('/', '\\'))]. *)
Definition escapes_workspace (filename : value) : M bool :=
  match contains_str ".." filename with
  | Err e => raise (Error e)
  | Ok true => ret true
  | Ok false =>
      match startswith_separator filename with
      | Err e => raise (Error e)
      | Ok b => ret b
      end
  end.

(** [WORKSPACE_DIR / filename] as an absolute path, worked out from the
    current directory by the components alone.  It is the location that the
    system calls reach in a file system that has no symbolic links, which is
    what [filesystem] models; [Symlinks], further down, is about the others. *)
Definition workspace_path (filename : string) : list string :=
  PosixPath.resolve cwd (PosixPath.joinpath WORKSPACE_DIR filename).

Definition read_file (filename : value) : M (option string) :=
  if negb (truthy filename) then ret None
  else
    let! invalid := escapes_workspace filename in
    if invalid then ui UiError ;; ret None
    else
      match filename with
      | VStr name =>
          let filepath := workspace_path name in
          try_except any_Exception
            (let! text := fs_read_text filepath in ret (Some text))
            (fun e =>
               match e with
               | FileNotFoundError => ui UiWarning ;; ret None
               | _ => ui UiError ;; ret None
               end)
      | _ => raise (Error TypeError)
      end.

Definition save_file (filename content : value) : M bool :=
  if negb (truthy filename) then ret false
  else
    let! invalid := escapes_workspace filename in
    if invalid then ui UiError ;; ret false
    else
      match filename with
      | VStr name =>
          let filepath := workspace_path name in
          try_except any_Exception
            (fs_open_write filepath ;;
             fs_write filepath content ;;
             ret true)
            (fun e => ui UiError ;; ret false)
      | _ => raise (Error TypeError)
      end.

Definition clear_preview (s : session_state) : session_state := {|
  messages := messages s;
  selected_file := selected_file s;
  file_content_on_load := file_content_on_load s;
  preview_process := None;
  preview_port := None;
  preview_url := None;
  preview_file := None;
  editor_unsaved_content := editor_unsaved_content s;
  last_saved_content := last_saved_content s;
|}.

Definition stop_preview (os : os_behaviour) : M unit :=
  let! s := get_session in
  match preview_process s with
  | Some process_to_stop =>
      if pid process_to_stop =? 0 then ret tt
      else
        ui UiInfo ;;
        try_except any_Exception
          (let! status := call (ProcPoll process_to_stop) (poll_before_terminate os) in
           match status with
           | None =>
               call (ProcTerminate process_to_stop) (terminate os) ;;
               try_except is_TimeoutExpired
                 (call (ProcWait process_to_stop 3000) (wait_after_terminate os) ;;
                  ui UiToast)
                 (fun _ =>
                    ui UiWarning ;;
                    let! status := call (ProcPoll process_to_stop) (poll_before_kill os) in
                    match status with
                    | None =>
                        call (ProcKill process_to_stop) (kill os) ;;
                        call (ProcWait process_to_stop 1000) (wait_after_kill os) ;;
                        ui UiToast
                    | Some _ => ret tt
                    end)
           | Some _ => ui UiWarning
           end)
          (fun e =>
             match e with
             | ProcessLookupError => ui UiWarning
             | _ => ui UiError
             end)
  | None => ret tt
  end ;;
  let! s := get_session in
  set_session (clear_preview s) ;;
  raise RerunException.

Definition clear_selection (s : session_state) : session_state := {|
  messages := messages s;
  selected_file := None;
  file_content_on_load := VStr "";
  preview_process := preview_process s;
  preview_port := preview_port s;
  preview_url := preview_url s;
  preview_file := preview_file s;
  editor_unsaved_content := VStr "";
  last_saved_content := VStr "";
|}.

Definition same_file (recorded : option string) (name : string) : bool :=
  match recorded with
  | Some r => String.eqb r name
  | None => false
  end.

Definition delete_file (os : os_behaviour) (filename : value) : M bool :=
  if negb (truthy filename) then ret false
  else
    let! invalid := escapes_workspace filename in
    if invalid then ui UiError ;; ret false
    else
      match filename with
      | VStr name =>
          let filepath := workspace_path name in
          try_except any_Exception
            (let! present := fs_is_file filepath in
             if present then
               fs_remove filepath ;;
               ui UiToast ;;
               let! s := get_session in
               (if same_file (preview_file s) name then stop_preview os else ret tt) ;;
               let! s := get_session in
               (if same_file (selected_file s) name
                then set_session (clear_selection s) else ret tt) ;;
               ret true
             else ui UiWarning ;; ret false)
            (fun e => ui UiError ;; ret false)
      | _ => raise (Error TypeError)
      end.

(** The record [{'action': 'chat', 'content': text}]. *)
Definition chat (text : string) : value :=
  VDict [("action", VStr "chat"); ("content", VStr text)].

Definition is_None (v : value) : bool :=
  match v with VNone => true | _ => false end.

Definition load_into_editor (content : value) (s : session_state) : session_state := {|
  messages := messages s;
  selected_file := selected_file s;
  file_content_on_load := content;
  preview_process := preview_process s;
  preview_port := preview_port s;
  preview_url := preview_url s;
  preview_file := preview_file s;
  editor_unsaved_content := content;
  last_saved_content := content;
|}.

(** [st.session_state.selected_file == filename] *)
Definition is_selected (s : session_state) (filename : value) : bool :=
  match filename with
  | VStr name => same_file (selected_file s) name
  | _ => false
  end.

(** One turn of the loop of [parse_and_execute_ai_commands]: the command is
    carried out and the list for the chat display is extended. *)
Definition execute_command (os : os_behaviour) (command_data : value)
    (executed_commands_list : list value) : M (list value) :=
  match command_data with
  | VDict entries =>
      let executed := (executed_commands_list ++ [command_data])%list in
      let action := dict_get "action" entries in
      let filename := dict_get "filename" entries in
      let content := dict_get "content" entries in
      if eq_str action "create_update" then
        if truthy filename && negb (is_None content) then
          let! success := save_file filename content in
          if success then
            ui UiToast ;;
            let! s := get_session in
            (if is_selected s filename
             then set_session (load_into_editor content s) else ret tt) ;;
            ret executed
          else
            ui UiError ;;
            ret (executed ++ [chat ("Error: Failed saving " +:+ format filename)])%list
        else
          ui UiWarning ;;
          ret (executed ++ [chat "AI Warning: Invalid create_update"])%list
      else if eq_str action "delete" then
        if truthy filename then
          let! success := delete_file os filename in
          if success then ret executed
          else
            ui UiError ;;
            ret (executed ++ [chat ("Error: Failed deleting " +:+ format filename)])%list
        else
          ui UiWarning ;;
          ret (executed ++ [chat "AI Warning: Invalid delete"])%list
      else if eq_str action "chat" then ret executed
      else
        ui UiWarning ;;
        ret (executed ++ [chat ("AI Warning: Unknown action '" +:+ format action +:+ "'")])%list
  | _ =>
      ui UiWarning ;;
      ret (executed_commands_list
             ++ [chat ("AI Error: Invalid command format: " +:+ format command_data)])%list
  end.

(** The [for] loop. *)
Fixpoint execute_commands (os : os_behaviour) (commands : list value)
    (executed_commands_list : list value) : M (list value) :=
  match commands with
  | [] => ret executed_commands_list
  | command_data :: rest =>
      let! executed := execute_command os command_data executed_commands_list in
      execute_commands os rest executed
  end.

Definition parse_and_execute_ai_commands (os : os_behaviour)
    (ai_response_text : string) : M (list value) :=
  let cleaned_text := _clean_ai_response_text ai_response_text in
  try_except any_Exception
    (match json_loads cleaned_text with
     | Err e => raise (Error e)
     | Ok (VList commands) => execute_commands os commands []
     | Ok _ =>
         ui UiError ;;
         ret [chat ("AI Error: Response was not a list. Response: " +:+ cleaned_text)]
     end)
    (fun e =>
       match e with
       | JSONDecodeError =>
           ui UiError ;;
           ret [chat ("AI Error: Invalid JSON received. Response: " +:+ ai_response_text)]
       | _ =>
           ui UiError ;;
           ret [chat ("Error processing commands: " +:+ str_of_error e)]
       end).

Definition record_preview (proc : popen) (port : Z) (python_filename : string)
    (s : session_state) : session_state := {|
  messages := messages s;
  selected_file := selected_file s;
  file_content_on_load := file_content_on_load s;
  preview_process := Some proc;
  preview_port := Some port;
  preview_url := Some ("http://localhost:" +:+ pretty port);
  preview_file := Some python_filename;
  editor_unsaved_content := editor_unsaved_content s;
  last_saved_content := last_saved_content s;
|}.

Definition forget_process (s : session_state) : session_state := {|
  messages := messages s;
  selected_file := selected_file s;
  file_content_on_load := file_content_on_load s;
  preview_process := None;
  preview_port := preview_port s;
  preview_url := preview_url s;
  preview_file := preview_file s;
  editor_unsaved_content := editor_unsaved_content s;
  last_saved_content := last_saved_content s;
|}.

Definition preview_command (filepath : list string) (port : Z) : list string :=
  [sys_executable; "-m"; "streamlit"; "run"; PosixPath.render filepath;
   "--server.port"; pretty port; "--server.headless"; "true";
   "--server.runOnSave"; "false"; "--server.fileWatcherType"; "none"].

Definition start_preview (os : os_behaviour) (python_filename : string) : M bool :=
  let filepath := workspace_path python_filename in
  let! present := fs_is_file filepath in
  if negb present
     || negb (String.eqb (PosixPath.suffix (PosixPath.joinpath WORKSPACE_DIR python_filename)) ".py")
  then ui UiError ;; ret false
  else
    let! s := get_session in
    match preview_process s with
    | Some _ => ui UiWarning ;; stop_preview os ;; emit (Sleep 500)
    | None => ret tt
    end ;;
    try_except any_Exception
      (let! port := call FindPort (find_available_port os) in
       let! preview_proc := call (ProcSpawn (preview_command filepath port)) (spawn os) in
       emit (Sleep 2500) ;;
       let! status := call (ProcPoll preview_proc) (poll_after_startup os) in
       match status with
       | None =>
           let! s := get_session in
           set_session (record_preview preview_proc port python_filename s) ;;
           ui UiSuccess ;;
           ui UiToast ;;
           ret true
       | Some _ =>
           ui UiError ;;
           try_except any_Exception
             (let! stderr_output := call (ProcReadStderr preview_proc) (read_stderr os) in
              if negb (String.eqb stderr_output "") then ui UiError ;; ui UiCode
              else
                let! stdout_output := call (ProcReadStdout preview_proc) (read_stdout os) in
                if negb (String.eqb stdout_output "") then ui UiError ;; ui UiCode
                else ret tt)
             (fun _ => ui UiError) ;;
           let! s := get_session in
           set_session (forget_process s) ;;
           ret false
       end)
      (fun e =>
         ui UiError ;;
         let! s := get_session in
         set_session (forget_process s) ;;
         ret false).

End App.

(** ** Vocabulary of the properties *)

(** The world after some more events, with the same files and session. *)
Definition logged (evs : list event) (w : world) : world :=
  {| fs := fs w; session := session w; trace := trace w ++ evs |}.

(** The calls on processes among some events. *)
Definition is_process_call (e : event) : bool :=
  match e with
  | ProcSpawn _ | ProcPoll _ | ProcTerminate _ | ProcKill _ | ProcWait _ _ => true
  | _ => false
  end.

Definition process_calls (evs : list event) : list event :=
  List.filter is_process_call evs.

(** The locations that some events reach in the file system. *)
Definition fs_access (e : event) : option (list string) :=
  match e with
  | FsIsFile p | FsOpenRead p | FsOpenWrite p | FsRemove p => Some p
  | _ => None
  end.

Definition fs_accesses (evs : list event) : list (list string) :=
  omap fs_access evs.

(** The check that opens [start_preview]: the name denotes a file of the
    workspace with the suffix [.py]. *)
Definition previewable (cwd : list string) (python_filename : string)
    (f : filesystem) : bool :=
  is_file f (workspace_path cwd python_filename)
  && String.eqb
       (PosixPath.suffix (PosixPath.joinpath WORKSPACE_DIR python_filename)) ".py".

(** The supervisor is idle when the four preview fields are [None]. *)
Definition idle (s : session_state) : Prop :=
  preview_process s = None /\ preview_port s = None /\
  preview_url s = None /\ preview_file s = None.

(** The events that a computation adds to the trace. *)
Definition events_of {A} (m : M A) (w : world) : list event :=
  drop (length (trace w)) (trace (snd (m w))).

(** ** Concrete inputs for the examples *)

Module Demo.

Definition cwd : list string := ["srv"; "app"].

Definition workspace : list string := ["srv"; "app"; "workspace_st_apps"].

Definition files : filesystem :=
  <[(workspace ++ ["a.py"])%list := File "print(1)"]>
    (<[workspace := Dir]> (<[["srv"; "app"] := Dir]> (<[["srv"] := Dir]> ∅))).

Definition preview : popen := {| pid := 4242 |}.

(** A session in which [a.py] is open in the editor and being previewed. *)
Definition previewing : session_state := {|
  messages := [];
  selected_file := Some "a.py";
  file_content_on_load := VStr "print(1)";
  preview_process := Some preview;
  preview_port := Some 8502;
  preview_url := Some "http://localhost:8502";
  preview_file := Some "a.py";
  editor_unsaved_content := VStr "print(1)";
  last_saved_content := VStr "print(1)";
|}.

(** Two lines separated by CR LF. *)
Definition two_lines : string :=
  "x = 1" +:+ String "013" (String "010" "y = 2").

Definition fresh : world :=
  {| fs := files; session := state_defaults; trace := [] |}.

Definition busy : world :=
  {| fs := files; session := previewing; trace := [] |}.

(** Every call succeeds; the processes polled are running and exit when
    asked to. *)
Definition cooperative : os_behaviour := {|
  find_available_port := Ok 8503;
  spawn := Ok {| pid := 4243 |};
  poll_after_startup := Ok None;
  read_stderr := Ok "";
  read_stdout := Ok "";
  poll_before_terminate := Ok None;
  terminate := Ok tt;
  wait_after_terminate := Ok 0;
  poll_before_kill := Ok None;
  kill := Ok tt;
  wait_after_kill := Ok (-9);
|}.

(** The process ignores the request to terminate. *)
Definition stubborn : os_behaviour := {|
  find_available_port := Ok 8503;
  spawn := Ok {| pid := 4243 |};
  poll_after_startup := Ok None;
  read_stderr := Ok "";
  read_stdout := Ok "";
  poll_before_terminate := Ok None;
  terminate := Ok tt;
  wait_after_terminate := Err TimeoutExpired;
  poll_before_kill := Ok None;
  kill := Ok tt;
  wait_after_kill := Ok (-9);
|}.

(** The process has exited by itself, or exits at once when started. *)
Definition exited : os_behaviour := {|
  find_available_port := Ok 8503;
  spawn := Ok {| pid := 4243 |};
  poll_after_startup := Ok (Some 1);
  read_stderr := Ok "Traceback";
  read_stdout := Ok "";
  poll_before_terminate := Ok (Some 0);
  terminate := Ok tt;
  wait_after_terminate := Ok 0;
  poll_before_kill := Ok (Some 0);
  kill := Ok tt;
  wait_after_kill := Ok 0;
|}.

End Demo.

(** ** Responses of the model used in the examples *)

Module Response.

Definition quoted (s : string) : string :=
  String "034" (s +:+ String "034" "").

(** The JSON text of a command record with string fields. *)
Fixpoint fields_text (fields : list (string * string)) : string :=
  match fields with
  | [] => ""
  | [(k, v)] => quoted k +:+ ": " +:+ v
  | (k, v) :: rest => quoted k +:+ ": " +:+ v +:+ ", " +:+ fields_text rest
  end.

Definition object_text (fields : list (string * string)) : string :=
  "{" +:+ fields_text fields +:+ "}".

(** [{"action": "create_update", "filename": "b.py", "content": "x = 1"}] *)
Definition create_b_text : string :=
  object_text [("action", quoted "create_update"); ("filename", quoted "b.py");
               ("content", quoted "x = 1")].

Definition create_b : value :=
  VDict [("action", VStr "create_update"); ("filename", VStr "b.py");
         ("content", VStr "x = 1")].

(** [{"action": "create_update", "filename": "c.py", "content": "y = 2"}] *)
Definition create_c_text : string :=
  object_text [("action", quoted "create_update"); ("filename", quoted "c.py");
               ("content", quoted "y = 2")].

Definition create_c : value :=
  VDict [("action", VStr "create_update"); ("filename", VStr "c.py");
         ("content", VStr "y = 2")].

(** [{"action": "delete", "filename": 5}] *)
Definition delete_5_text : string :=
  object_text [("action", quoted "delete"); ("filename", "5")].

Definition delete_5 : value :=
  VDict [("action", VStr "delete"); ("filename", VInt 5)].

(** [{"action": "delete", "filename": "missing.py"}] *)
Definition delete_missing_text : string :=
  object_text [("action", quoted "delete"); ("filename", quoted "missing.py")].

Definition delete_missing : value :=
  VDict [("action", VStr "delete"); ("filename", VStr "missing.py")].

(** [{"action": "chat", "content": "hello"}] *)
Definition chat_hello_text : string :=
  object_text [("action", quoted "chat"); ("content", quoted "hello")].

(** A list in which the second command names its file by a number. *)
Definition numbered_text : string :=
  "[" +:+ create_b_text +:+ ", " +:+ delete_5_text +:+ ", " +:+ create_c_text +:+ "]".

(** A list in which the second command deletes a file that does not exist. *)
Definition missing_text : string :=
  "[" +:+ create_b_text +:+ ", " +:+ delete_missing_text +:+ ", "
      +:+ create_c_text +:+ "]".

(** [json.loads] on the texts above; no other text is decoded in the
    examples, and [not json] stands for all malformed ones. *)
Definition json_loads (text : string) : outcome value :=
  if String.eqb text numbered_text then Ok (VList [create_b; delete_5; create_c])
  else if String.eqb text missing_text
  then Ok (VList [create_b; delete_missing; create_c])
  else if String.eqb text chat_hello_text
  then Ok (VDict [("action", VStr "chat"); ("content", VStr "hello")])
  else Err JSONDecodeError.

(** [repr] is not needed on strings; [str(e)] for the error of the examples. *)
Definition repr (v : value) : string := "<value>".

Definition str_of_error (e : error) : string :=
  match e with
  | TypeError => "argument of type 'int' is not iterable"
  | _ => "<error>"
  end.

End Response.

(** The filenames that the specification calls rejected: those containing
    [..] or starting with a slash or a backslash. *)
Definition rejected (filename : string) : bool :=
  PyStr.contains ".." filename
  || PyStr.startswith "/" filename
  || PyStr.startswith "\" filename.

(** A location is inside the workspace when it is the workspace directory
    or lies below it. *)
Definition inside_workspace (cwd : list string) (p : list string) : Prop :=
  (cwd ++ [WORKSPACE_DIR])%list `prefix_of` p.

(** What an operation may do to the file system: every location reached is
    [target], and entries elsewhere are kept. *)
Definition confined {A} (target : list string) (m : M A) (w : world) : Prop :=
  exists evs,
    trace (snd (m w)) = (trace w ++ evs)%list /\
    (forall p, In p (fs_accesses evs) -> p = target) /\
    (forall p, p <> target -> fs (snd (m w)) !! p = fs w !! p).

(** An operation stays within the workspace: it reaches no location outside
    it and keeps the entries outside it. *)
Definition within_workspace {A} (cwd : list string) (m : M A) (w : world) : Prop :=
  exists evs,
    trace (snd (m w)) = (trace w ++ evs)%list /\
    (forall p, In p (fs_accesses evs) -> inside_workspace cwd p) /\
    (forall p, ~ inside_workspace cwd p -> fs (snd (m w)) !! p = fs w !! p).

(** The round trip as the specification states it: a successful [save_file]
    followed by [read_file] gives the content back. *)
Definition reads_back (cwd : list string) (filename content : string)
    (w : world) : Prop :=
  forall w',
    save_file cwd (VStr filename) (VStr content) w = (Return true, w') ->
    fst (read_file cwd (VStr filename) w') = Return (Some content).

(** A command that fails the presence checks of the interpreter: it is not
    a record, its action is unknown, or it lacks the filename or the content
    that its action needs. *)
Definition malformed (command_data : value) : bool :=
  match command_data with
  | VDict entries =>
      let action := dict_get "action" entries in
      let filename := dict_get "filename" entries in
      let content := dict_get "content" entries in
      if eq_str action "create_update" then negb (truthy filename) || is_None content
      else if eq_str action "delete" then negb (truthy filename)
      else negb (eq_str action "chat")
  | _ => true
  end.

(** A [create_update] command with a filename and a content. *)
Definition is_create_update (command_data filename content : value) : Prop :=
  exists entries,
    command_data = VDict entries /\
    eq_str (dict_get "action" entries) "create_update" = true /\
    dict_get "filename" entries = filename /\
    dict_get "content" entries = content /\
    truthy filename = true /\ content <> VNone.

(** A [delete] command with a filename. *)
Definition is_delete (command_data filename : value) : Prop :=
  exists entries,
    command_data = VDict entries /\
    eq_str (dict_get "action" entries) "delete" = true /\
    dict_get "filename" entries = filename /\
    truthy filename = true.

(** The list for the chat display once a command has been taken up: a
    record is shown itself, anything else is not. *)
Definition shown (command_data : value) (executed : list value) : list value :=
  match command_data with
  | VDict _ => (executed ++ [command_data])%list
  | _ => executed
  end.

(** A command is only answered by a chat record when its turn of the loop
    returns the list extended by that record. *)
Definition appends_and_continues (cwd : list string) (repr : value -> string)
    (os : os_behaviour) (command_data : value) (executed : list value)
    (w : world) : Prop :=
  exists text w',
    execute_command cwd repr os command_data executed w
    = (Return (shown command_data executed ++ [chat text])%list, w').

(** A value that is a number for Python: [bool] counts as one. *)
Definition is_number (v : value) : bool :=
  match v with
  | VBool _ | VInt _ | VFloat _ => true
  | _ => false
  end.

(** ** The session over time *)

(** No process is spawned among some events. *)
Definition no_spawn (evs : list event) : Prop :=
  forall command, ~ In (ProcSpawn command) evs.

(** A computation is quiet when it spawns no process and leaves the process
    on record as it is or drops it. *)
Definition quiet {A} (m : M A) : Prop :=
  forall w, exists evs,
    trace (snd (m w)) = (trace w ++ evs)%list /\
    no_spawn evs /\
    (preview_process (session (snd (m w))) = preview_process (session w) \/
     preview_process (session (snd (m w))) = None).

(** The process on record, if any, is the one that was spawned last: it was
    polled after the startup delay that followed its spawn, and no process has
    been spawned since. *)
Definition latest_spawn_on_record (w : world) : Prop :=
  forall h,
    preview_process (session w) = Some h ->
    exists earlier command later,
      trace w = (earlier ++ [ProcSpawn command; Sleep 2500; ProcPoll h] ++ later)%list /\
      no_spawn later.

(** What the user or the model can make the program do. *)
Inductive operation :=
| OpRead (filename : value)
| OpSave (filename content : value)
| OpDelete (filename : value)
| OpRespond (ai_response_text : string)
| OpStart (python_filename : string)
| OpStop.

Section Session.

Variable cwd : list string.
Variable sys_executable : string.
Variable json_loads : string -> outcome value.
Variable repr : value -> string.
Variable str_of_error : error -> string.

(** The world after an operation, whether it returned or raised. *)
Definition perform (os : os_behaviour) (op : operation) (w : world) : world :=
  match op with
  | OpRead filename => snd (read_file cwd filename w)
  | OpSave filename content => snd (save_file cwd filename content w)
  | OpDelete filename => snd (delete_file cwd os filename w)
  | OpRespond text =>
      snd (parse_and_execute_ai_commands cwd json_loads repr str_of_error os text w)
  | OpStart python_filename =>
      snd (start_preview cwd sys_executable os python_filename w)
  | OpStop => snd (stop_preview os w)
  end.

(** The script itself assigns the chat history, the selection and the
    editor fields, never the preview fields. *)
Definition same_preview (s s' : session_state) : Prop :=
  preview_process s' = preview_process s /\ preview_port s' = preview_port s /\
  preview_url s' = preview_url s /\ preview_file s' = preview_file s.

(** The worlds that a session goes through, from the defaults of
    [initialize_session_state] on any files, whatever the environment
    answers. *)
Inductive reachable : world -> Prop :=
| reachable_start (f : filesystem) :
    reachable {| fs := f; session := state_defaults; trace := [] |}
| reachable_operation (w : world) (os : os_behaviour) (op : operation) :
    reachable w -> reachable (perform os op w)
| reachable_script (w : world) (s : session_state) :
    reachable w -> same_preview (session w) s ->
    reachable {| fs := fs w; session := s; trace := trace w |}.

End Session.

(** ** More of the program: the listing of the workspace *)

(** [sorted(names)] on strings: code points decide, and a proper prefix
    comes first. *)
Fixpoint insert_sorted (x : string) (names : list string) : list string :=
  match names with
  | [] => [x]
  | y :: rest =>
      if String.leb x y then x :: names else y :: insert_sorted x rest
  end.

Definition sorted (names : list string) : list string :=
  List.fold_right insert_sorted [] names.

(** [f.suffix] from the name of [f]. *)
Definition suffix_of_name (name : string) : string :=
  match name with
  | String _ t =>
      match PosixPath.from_last_dot t with
      | Some r => if (1 <? String.length r)%nat then r else ""
      | None => ""
      end
  | EmptyString => ""
  end.

(** [f.name] for a location. *)
Definition name_of (p : list string) : string := List.last p "".

Definition is_child (dir p : list string) : bool :=
  match p with
  | [] => false
  | _ => bool_decide (removelast p = dir)
  end.

(** [dir.iterdir()]: the entries directly below [dir], in the order the
    system lists them. *)
Definition iterdir (f : filesystem) (dir : list string) : list (list string) :=
  List.filter (is_child dir) (List.map fst (map_to_list f)).

(** The comprehension
    [[f.name for f in ... if f.is_file() and f.suffix == '.py']]. *)
Fixpoint python_names (children : list (list string)) : M (list string) :=
  match children with
  | [] => ret []
  | child :: rest =>
      let! present := fs_is_file child in
      let keep := present && String.eqb (suffix_of_name (name_of child)) ".py" in
      let! names := python_names rest in
      ret (if keep then name_of child :: names else names)
  end.

Definition get_workspace_python_files (cwd : list string) : M (list string) :=
  let dir := PosixPath.resolve cwd WORKSPACE_DIR in
  let! f := get_fs in
  if negb (is_dir f dir) then ret []
  else
    try_except any_Exception
      (let! names := python_names (iterdir f dir) in ret (sorted names))
      (fun e => ui UiError ;; ret []).

(** A name of one component, as the entries of a directory have. *)
Definition single_component (name : string) : Prop :=
  PosixPath.parts name = [name].

(** The order of [sorted]. *)
Definition leb_rel (a b : string) : Prop := String.leb a b = true.

(** The test of the comprehension in [get_workspace_python_files]. *)
Definition is_python_file (f : filesystem) (p : list string) : bool :=
  is_file f p && String.eqb (suffix_of_name (name_of p)) ".py".

(** The list that [get_workspace_python_files] returns. *)
Definition listing (cwd : list string) (w : world) : list string :=
  match fst (get_workspace_python_files cwd w) with
  | Return names => names
  | Raise _ => []
  end.

(** A text made of whitespace only. *)
Fixpoint all_space (s : string) : bool :=
  match s with
  | EmptyString => true
  | String c t => PyStr.is_space c && all_space t
  end.

(** A command that only talks: a record whose action is [chat]. *)
Definition is_chat (command_data : value) : bool :=
  match command_data with
  | VDict entries => eq_str (dict_get "action" entries) "chat"
  | _ => false
  end.

(** ** The session dictionary

    [st.session_state] seen as the dictionary it is when the script starts:
    any keys, any values.  The record [session_state] above is the shape it
    has once [initialize_session_state] has run. *)

(** [state_defaults.items()], in the order of the literal. *)
Definition state_defaults_items : list (string * value) :=
  [ ("messages", VList []);
    ("selected_file", VNone);
    ("file_content_on_load", VStr "");
    ("preview_process", VNone);
    ("preview_port", VNone);
    ("preview_url", VNone);
    ("preview_file", VNone);
    ("editor_unsaved_content", VStr "");
    ("last_saved_content", VStr "") ].

(** The body of the [for] loop: [if key not in st.session_state: ...]. *)
Definition set_default (session : gmap string value) (item : string * value)
    : gmap string value :=
  let (key, default_value) := item in
  match session !! key with
  | Some _ => session
  | None => <[key := default_value]> session
  end.

Definition initialize_session_state (session : gmap string value)
    : gmap string value :=
  foldl set_default session state_defaults_items.

(** ** The history sent to the model

    [json.dumps] is a parameter: it gives a text or raises; [str(v)] is the
    text itself for a string and [repr(v)] for the other values. *)

(** [d[key]] on the entries of a dict. *)
Fixpoint dict_lookup (key : string) (entries : list (string * value))
    : option value :=
  match entries with
  | [] => None
  | (k, v) :: rest => if String.eqb k key then Some v else dict_lookup key rest
  end.

(** [msg[key]]: a [KeyError] when the dict has no such key, a [TypeError] for
    a string key on a value that is not a dict. *)
Definition subscript (key : string) (msg : value) : outcome value :=
  match msg with
  | VDict entries =>
      match dict_lookup key entries with
      | Some v => Ok v
      | None => Err (OtherError "KeyError")
      end
  | _ => Err TypeError
  end.

(** [isinstance(content, list)] *)
Definition is_list (content : value) : bool :=
  match content with VList _ => true | _ => false end.

(** [{'role': role, 'parts': [{'text': text}]}] *)
Definition gemini_message (role text : string) : value :=
  VDict [("role", VStr role); ("parts", VList [VDict [("text", VStr text)]])].

Section History.

Variable json_dumps : value -> outcome string.
Variable repr : value -> string.

(** The text of one message: [content_str]. *)
Definition content_text (role content : value) : string :=
  if eq_str role "assistant" && is_list content then
    match json_dumps content with
    | Ok text => text
    | Err _ => format repr content
    end
  else format repr content.

(** The [for] loop of [_prepare_gemini_history]. *)
Fixpoint add_messages (chat_history gemini_history : list value)
    : outcome (list value) :=
  match chat_history with
  | [] => Ok gemini_history
  | msg :: rest =>
      match subscript "role" msg with
      | Err e => Err e
      | Ok role =>
          match subscript "content" msg with
          | Err e => Err e
          | Ok content =>
              let api_role := if eq_str role "assistant" then "model" else "user" in
              let content_str := content_text role content in
              add_messages rest
                (if truthy (VStr content_str)
                 then (gemini_history ++ [gemini_message api_role content_str])%list
                 else gemini_history)
          end
      end
  end.

Definition _prepare_gemini_history (chat_history : list value)
    (system_prompt : string) : outcome (list value) :=
  match json_dumps
          (VList [chat "Understood. I will respond only with JSON commands."]) with
  | Err e => Err e
  | Ok understood =>
      add_messages chat_history
        [gemini_message "user" system_prompt; gemini_message "model" understood]
  end.

End History.

(** A message of the chat history as the script stores them: a dict with a
    role and a content. *)
Definition is_message (msg : value) : Prop :=
  exists role content,
    subscript "role" msg = Ok role /\ subscript "content" msg = Ok content.

(** What the model is sent after the two opening messages: a role of the
    API and a text that is not empty. *)
Definition is_turn (m : value) : Prop :=
  exists role text,
    m = gemini_message role text /\ (role = "user" \/ role = "model") /\ text <> "".

(** ** The script: the Workspace tab

    The body of the script is read as handlers: what a widget returns in the
    current run is an argument, what the script does with it is the
    computation.  The layout calls, which only draw, are left out. *)

(** The first option of the dropdown. *)
Definition SELECT_PLACEHOLDER : string := "--- Select a file ---".

(** [select_options]: what [st.selectbox] chooses from. *)
Definition select_options (python_files : list string) : list string :=
  SELECT_PLACEHOLDER :: python_files.

(** [st.session_state.selected_file = name] *)
Definition with_selected_file (name : option string) (s : session_state)
    : session_state := {|
  messages := messages s;
  selected_file := name;
  file_content_on_load := file_content_on_load s;
  preview_process := preview_process s;
  preview_port := preview_port s;
  preview_url := preview_url s;
  preview_file := preview_file s;
  editor_unsaved_content := editor_unsaved_content s;
  last_saved_content := last_saved_content s;
|}.

(** [st.session_state.editor_unsaved_content = content] *)
Definition with_editor_unsaved_content (content : value) (s : session_state)
    : session_state := {|
  messages := messages s;
  selected_file := selected_file s;
  file_content_on_load := file_content_on_load s;
  preview_process := preview_process s;
  preview_port := preview_port s;
  preview_url := preview_url s;
  preview_file := preview_file s;
  editor_unsaved_content := content;
  last_saved_content := last_saved_content s;
|}.

(** The two assignments after a save from the editor. *)
Definition mark_saved (content : value) (s : session_state) : session_state := {|
  messages := messages s;
  selected_file := selected_file s;
  file_content_on_load := content;
  preview_process := preview_process s;
  preview_port := preview_port s;
  preview_url := preview_url s;
  preview_file := preview_file s;
  editor_unsaved_content := editor_unsaved_content s;
  last_saved_content := content;
|}.

(** The text shown in the editor when the file cannot be read. *)
Definition could_not_read (name : string) : string :=
  "# ERROR: Could not read file '" +:+ name +:+ "'".

(** The two buttons under the editor. *)
Inductive editor_button := SaveChanges | DeleteFile.

Section Workspace.

Variable cwd : list string.

(** The file column: the dropdown has returned [selected_option]. *)
Definition file_selector (selected_option : string) : M unit :=
  let! python_files := get_workspace_python_files cwd in
  let! s := get_session in
  let current_selection_in_state := selected_file s in
  let newly_selected_filename :=
    if String.eqb selected_option SELECT_PLACEHOLDER then None
    else Some selected_option in
  if bool_decide (newly_selected_filename = current_selection_in_state) then ret tt
  else
    set_session (with_selected_file newly_selected_filename s) ;;
    let! file_content :=
      match newly_selected_filename with
      | Some name =>
          if truthy (VStr name) then
            let! text := read_file cwd (VStr name) in
            ret (match text with
                 | Some text => text
                 | None => could_not_read name
                 end)
          else ret ""
      | None => ret ""
      end in
    let! s := get_session in
    set_session (load_into_editor (VStr file_content) s) ;;
    raise RerunException.

(** The editor column: the editor has returned [editor_current_text], the
    button group [clicked_editor_button], and the confirmation, if it is
    asked for, [confirmed]. *)
Definition editor (os : os_behaviour) (editor_current_text : string)
    (clicked_editor_button : option editor_button) (confirmed : bool) : M unit :=
  let! s := get_session in
  match selected_file s with
  | Some selected_filename =>
      if truthy (VStr selected_filename) then
        let has_unsaved_changes :=
          negb (eq_str (last_saved_content s) editor_current_text) in
        (if negb (eq_str (editor_unsaved_content s) editor_current_text) then
           set_session (with_editor_unsaved_content (VStr editor_current_text) s) ;;
           raise RerunException
         else ret tt) ;;
        match clicked_editor_button with
        | Some SaveChanges =>
            let! saved :=
              save_file cwd (VStr selected_filename) (VStr editor_current_text) in
            if saved then
              let! s := get_session in
              set_session (mark_saved (VStr editor_current_text) s) ;;
              ui UiToast ;;
              emit (Sleep 500) ;;
              raise RerunException
            else ui UiError
        | Some DeleteFile =>
            if confirmed then
              let! deleted := delete_file cwd os (VStr selected_filename) in
              if deleted then raise RerunException else ret tt
            else ret tt
        | None => ret tt
        end ;;
        if has_unsaved_changes then ui UiWarning else ret tt
      else ui UiInfo
  | None => ui UiInfo
  end.

End Workspace.

(** The editor shows what is on record as saved: the three editor fields
    hold the same text. *)
Definition editor_clean (text : string) (s : session_state) : Prop :=
  file_content_on_load s = VStr text /\
  editor_unsaved_content s = VStr text /\
  last_saved_content s = VStr text.

(** ** The script: the preview tab *)

(** [s.endswith(suffix)] *)
Definition endswith (suffix s : string) : bool :=
  let n := String.length s in
  let m := String.length suffix in
  (m <=? n)%nat && String.eqb (String.substring (n - m) m s) suffix.

(** What the environment answers in the display of the preview: the poll of
    the process on record and the reading of its error output. *)
Record display_behaviour := {
  poll_on_display : outcome (option Z);
  read_stderr_on_display : outcome string;
}.

(** What the user did to the three buttons of the tab. *)
Record preview_clicks := {
  run_clicked : bool;
  stop_clicked : bool;
  stop_other_clicked : bool;
}.

(** [st.button(..., disabled=disabled)]: a button that is disabled cannot be
    clicked and is reported as not clicked. *)
Definition button (clicked disabled : bool) : bool := clicked && negb disabled.

Section PreviewTab.

Variable cwd : list string.
Variable sys_executable : string.

(** The controls of the tab. *)
Definition preview_controls (os : os_behaviour) (clicks : preview_clicks)
    (s : session_state) : M unit :=
  let is_preview_running := bool_decide (preview_process s <> None) in
  let file_being_previewed := preview_file s in
  match selected_file s with
  | Some selected_file_for_preview =>
      if truthy (VStr selected_file_for_preview) then
        let is_python := endswith ".py" selected_file_for_preview in
        if negb is_python then ui UiError
        else
          let run_disabled := is_preview_running in
          (if button (run_clicked clicks) run_disabled then
             let! started :=
               start_preview cwd sys_executable os selected_file_for_preview in
             if started then raise RerunException else ret tt
           else ret tt) ;;
          let stop_disabled :=
            negb is_preview_running
            || negb (bool_decide (file_being_previewed = Some selected_file_for_preview)) in
          if button (stop_clicked clicks) stop_disabled then stop_preview os
          else ret tt
      else
        ui UiInfo ;;
        if is_preview_running then
          ui UiWarning ;;
          if button (stop_other_clicked clicks) false then stop_preview os else ret tt
        else ret tt
  | None =>
      ui UiInfo ;;
      if is_preview_running then
        ui UiWarning ;;
        if button (stop_other_clicked clicks) false then stop_preview os else ret tt
      else ret tt
  end.

(** The window of the tab. *)
Definition preview_display (os : os_behaviour) (display : display_behaviour)
    (s : session_state) : M unit :=
  let is_preview_running := bool_decide (preview_process s <> None) in
  let file_being_previewed := preview_file s in
  let selected_file_for_preview := selected_file s in
  if is_preview_running then
    if bool_decide (file_being_previewed = selected_file_for_preview) then
      ui UiInfo ;;
      let! now := get_session in
      match preview_process now with
      | Some live_process =>
          let! status := call (ProcPoll live_process) (poll_on_display display) in
          match status with
          | None => ret tt
          | Some _ =>
              ui UiWarning ;;
              try_except any_Exception
                (let! stderr :=
                   call (ProcReadStderr live_process) (read_stderr_on_display display) in
                 if truthy (VStr stderr) then ui UiCode else ret tt)
                (fun _ => ret tt) ;;
              stop_preview os
          end
      | None => ui UiWarning
      end
    else ui UiWarning
  else ui UiInfo.

(** The tab: the status is read from the session once, at the top. *)
Definition preview_tab (os : os_behaviour) (display : display_behaviour)
    (clicks : preview_clicks) : M unit :=
  ui UiWarning ;;
  let! s := get_session in
  preview_controls os clicks s ;;
  preview_display os display s.

End PreviewTab.

(** ** The script: the chat *)

(** [s.replace(old, new)] for a text [old] that is not empty: the
    occurrences are taken from the left and do not overlap. *)
Fixpoint replace_from (old new : string) (skip : nat) (s : string) : string :=
  match s with
  | EmptyString => EmptyString
  | String c t =>
      match skip with
      | S k => replace_from old new k t
      | O =>
          if PyStr.startswith old s
          then new +:+ replace_from old new (String.length old - 1) t
          else String c (replace_from old new 0 t)
      end
  end.

Definition replace (old new s : string) : string := replace_from old new 0 s.

(** [{'role': role, 'content': content}] *)
Definition message (role : string) (content : value) : value :=
  VDict [("role", VStr role); ("content", content)].

(** [st.session_state.messages.append(msg)] *)
Definition append_message (msg : value) (s : session_state) : session_state := {|
  messages := messages s ++ [msg];
  selected_file := selected_file s;
  file_content_on_load := file_content_on_load s;
  preview_process := preview_process s;
  preview_port := preview_port s;
  preview_url := preview_url s;
  preview_file := preview_file s;
  editor_unsaved_content := editor_unsaved_content s;
  last_saved_content := last_saved_content s;
|}.

Section Chat.

Variable cwd : list string.
Variable json_loads : string -> outcome value.
Variable json_dumps : value -> outcome string.
Variable repr : value -> string.
Variable str_of_error : error -> string.

(** The value of the global [GEMINI_SYSTEM_PROMPT] when [ask_gemini_ai]
    runs.  The script works it out at the top of every run, from a fixed text
    and the names of the [.py] files that the workspace holds at that time:
    it is not a constant, and what follows holds for whatever value it has. *)
Variable GEMINI_SYSTEM_PROMPT : string.

(** [model.generate_content(history)] followed by [response.text]: the text
    of the reply, or what either of them raises. *)
Variable generate_content : list value -> outcome string.

(** The wording of the reply that stands for a failed call: the
    [error_content] that the handler of [ask_gemini_ai] works out from the
    exception and the response. *)
Variable error_content : error -> string.

Definition ask_gemini_ai (chat_history : list value) : M string :=
  let! current_files := get_workspace_python_files cwd in
  let file_list_info :=
    "Current Python files: "
    +:+ match current_files with
        | [] => "None"
        | _ => String.concat ", " current_files
        end in
  let updated_system_prompt :=
    replace "Current Python files: ..." file_list_info GEMINI_SYSTEM_PROMPT in
  match _prepare_gemini_history json_dumps repr chat_history updated_system_prompt with
  | Err e => raise (Error e)
  | Ok gemini_api_history =>
      match generate_content gemini_api_history with
      | Ok text => ret text
      | Err e =>
          ui UiError ;;
          match json_dumps (VList [chat (error_content e)]) with
          | Ok text => ret text
          | Err e' => raise (Error e')
          end
      end
  end.

(** The chat input box has returned [user_prompt]. *)
Definition chat_input (os : os_behaviour) (user_prompt : option string) : M unit :=
  match user_prompt with
  | Some user_prompt =>
      if truthy (VStr user_prompt) then
        let! s := get_session in
        set_session (append_message (message "user" (VStr user_prompt)) s) ;;
        let! s := get_session in
        let! ai_response_text := ask_gemini_ai (messages s) in
        let! ai_commands_executed :=
          parse_and_execute_ai_commands cwd json_loads repr str_of_error os
            ai_response_text in
        let! s := get_session in
        set_session
          (append_message (message "assistant" (VList ai_commands_executed)) s) ;;
        raise RerunException
      else ret tt
  | None => ret tt
  end.

End Chat.

(** A computation that leaves the chat history as it is. *)
Definition keeps_messages {A} (m : M A) : Prop :=
  forall w, messages (session (snd (m w))) = messages (session w).

(** The calls by which [stop_preview] stops the process [h], by what the
    process answers: it is polled; if it is running it is asked to terminate
    and waited for during 3 seconds; if that wait times out it is polled
    again and, if it is still running, killed and waited for during 1
    second.  A handle with no process identifier is left alone. *)
Definition stopping_calls (os : os_behaviour) (h : popen) : list event :=
  if pid h =? 0 then []
  else
    ProcPoll h ::
    match poll_before_terminate os with
    | Ok None =>
        ProcTerminate h ::
        match terminate os with
        | Ok _ =>
            ProcWait h 3000 ::
            match wait_after_terminate os with
            | Err TimeoutExpired =>
                ProcPoll h ::
                match poll_before_kill os with
                | Ok None =>
                    ProcKill h ::
                    match kill os with
                    | Ok _ => [ProcWait h 1000]
                    | Err _ => []
                    end
                | _ => []
                end
            | _ => []
            end
        | Err _ => []
        end
    | _ => []
    end.

(** ** Symbolic links

    [filesystem] has files and directories only, and a path names the
    location that its components spell.  Here some locations are symbolic
    links: the system calls resolve the path they are given as POSIX does,
    and the three file operations are read again over these calls.  The
    events record the locations that the calls reach. *)

Module Symlinks.

(** The locations that are symbolic links, each with the location that it
    points to. *)
Abbreviation links := (gmap (list string) (list string)).

(** The files and directories, the session and the trace, with the links. *)
Record lworld := {
  base : world;
  symlinks : links;
}.

Definition L (A : Type) : Type := lworld -> result A * lworld.

(** A computation that has nothing to do with the links. *)
Definition lift {A} (m : M A) : L A :=
  fun lw =>
    let (r, w) := m (base lw) in
    (r, {| base := w; symlinks := symlinks lw |}).

Definition lbind {A B} (m : L A) (k : A -> L B) : L B :=
  fun lw =>
    match m lw with
    | (Return a, lw') => k a lw'
    | (Raise x, lw') => (Raise x, lw')
    end.

Notation "'let?' x ':=' m 'in' k" := (lbind m (fun x => k))
  (at level 10, x pattern, m at level 100, k at level 200).

Definition ltry_except {A} (catches : error -> bool) (m : L A)
    (handler : error -> L A) : L A :=
  fun lw =>
    match m lw with
    | (Raise (Error e), lw') =>
        if catches e then handler e lw' else (Raise (Error e), lw')
    | r => r
    end.

Definition get_links : L links := fun lw => (Return (symlinks lw), lw).

Definition set_links (l : links) : L unit :=
  fun lw => (Return tt, {| base := base lw; symlinks := l |}).

(** The number of symbolic links that the resolution of one path follows
    before it gives up with [ELOOP]. *)
Definition MAXSYMLINKS : nat := 40.

(** The location that a path names.  The components are walked from the
    root; a component that is a symbolic link is replaced by what the link
    points to, and the walk starts again from there; the last component is
    followed only if the call asks for it.  [None] is [ELOOP]. *)
Fixpoint locate (budget : nat) (l : links) (follow_last : bool)
    (done todo : list string) {struct budget} : option (list string) :=
  (fix walk (done todo : list string) {struct todo} : option (list string) :=
     match todo with
     | [] => Some done
     | c :: rest =>
         let here := (done ++ [c])%list in
         match l !! here with
         | Some target =>
             if follow_last || negb (bool_decide (rest = [])) then
               match budget with
               | O => None
               | S budget' => locate budget' l follow_last [] (target ++ rest)
               end
             else Some here
         | None => walk here rest
         end
     end) done todo.

Definition located (follow_last : bool) (p : list string)
    : L (option (list string)) :=
  let? l := get_links in
  lift (ret (locate MAXSYMLINKS l follow_last [] p)).

(** [Path.is_file()], which follows links and answers [False] when the path
    cannot be resolved. *)
Definition sys_is_file (p : list string) : L bool :=
  let? r := located true p in
  match r with
  | Some r => lift (fs_is_file r)
  | None => lift (ret false)
  end.

(** [open(p, 'r', encoding='utf-8')] followed by [f.read()] *)
Definition sys_read_text (p : list string) : L string :=
  let? r := located true p in
  match r with
  | Some r => lift (fs_read_text r)
  | None => lift (raise (Error (OtherError "OSError")))
  end.

(** [open(p, 'w', encoding='utf-8')]: the file that the path leads to is
    created or emptied; the result is where it is. *)
Definition sys_open_write (p : list string) : L (list string) :=
  let? r := located true p in
  match r with
  | Some r => lift (fs_open_write r ;; ret r)
  | None => lift (raise (Error (OtherError "OSError")))
  end.

(** [os.remove(p)], which does not follow a link in the last component but
    removes the link. *)
Definition sys_remove (p : list string) : L unit :=
  let? r := located false p in
  match r with
  | Some r =>
      let? l := get_links in
      match l !! r with
      | Some _ => let? _ := lift (emit (FsRemove r)) in set_links (delete r l)
      | None => lift (fs_remove r)
      end
  | None => lift (raise (Error (OtherError "OSError")))
  end.

Section Operations.

Variable cwd : list string.

Definition read_file (filename : value) : L (option string) :=
  if negb (truthy filename) then lift (ret None)
  else
    let? invalid := lift (escapes_workspace filename) in
    if invalid then lift (ui UiError ;; ret None)
    else
      match filename with
      | VStr name =>
          let filepath := workspace_path cwd name in
          ltry_except any_Exception
            (let? text := sys_read_text filepath in lift (ret (Some text)))
            (fun e =>
               match e with
               | FileNotFoundError => lift (ui UiWarning ;; ret None)
               | _ => lift (ui UiError ;; ret None)
               end)
      | _ => lift (raise (Error TypeError))
      end.

Definition save_file (filename content : value) : L bool :=
  if negb (truthy filename) then lift (ret false)
  else
    let? invalid := lift (escapes_workspace filename) in
    if invalid then lift (ui UiError ;; ret false)
    else
      match filename with
      | VStr name =>
          let filepath := workspace_path cwd name in
          ltry_except any_Exception
            (let? f := sys_open_write filepath in
             lift (fs_write f content ;; ret true))
            (fun e => lift (ui UiError ;; ret false))
      | _ => lift (raise (Error TypeError))
      end.

Definition delete_file (os : os_behaviour) (filename : value) : L bool :=
  if negb (truthy filename) then lift (ret false)
  else
    let? invalid := lift (escapes_workspace filename) in
    if invalid then lift (ui UiError ;; ret false)
    else
      match filename with
      | VStr name =>
          let filepath := workspace_path cwd name in
          ltry_except any_Exception
            (let? present := sys_is_file filepath in
             if present then
               let? _ := sys_remove filepath in
               lift
                 (ui UiToast ;;
                  let! s := get_session in
                  (if same_file (preview_file s) name then stop_preview os else ret tt) ;;
                  let! s := get_session in
                  (if same_file (selected_file s) name
                   then set_session (clear_selection s) else ret tt) ;;
                  ret true)
             else lift (ui UiWarning ;; ret false))
            (fun e => lift (ui UiError ;; ret false))
      | _ => lift (raise (Error TypeError))
      end.

End Operations.

(** The world after a message, with the same files, links and session. *)
Definition reported (k : ui_kind) (lw : lworld) : lworld :=
  {| base := logged [Ui k] (base lw); symlinks := symlinks lw |}.

(** No symbolic link lies on the way to the workspace directory, nor at it,
    nor below it. *)
Definition unlinked (cwd : list string) (l : links) : Prop :=
  forall p,
    p `prefix_of` (cwd ++ [WORKSPACE_DIR])%list \/ inside_workspace cwd p ->
    l !! p = None.

(** An operation stays within the workspace: it reaches no location outside
    it, and keeps the files, the directories and the links outside it. *)
Definition within_workspace {A} (cwd : list string) (m : L A) (lw : lworld) : Prop :=
  exists evs,
    trace (base (snd (m lw))) = (trace (base lw) ++ evs)%list /\
    (forall p, In p (fs_accesses evs) -> inside_workspace cwd p) /\
    (forall p,
       ~ inside_workspace cwd p ->
       fs (base (snd (m lw))) !! p = fs (base lw) !! p /\
       symlinks (snd (m lw)) !! p = symlinks lw !! p).

(** What the specification states of the three operations, for one
    filename and one content. *)
Definition stay_in_workspace (cwd : list string) (os : os_behaviour)
    (filename content : value) (lw : lworld) : Prop :=
  within_workspace cwd (read_file cwd filename) lw /\
  within_workspace cwd (save_file cwd filename content) lw /\
  within_workspace cwd (delete_file cwd os filename) lw.

(** A computation with links that does what a computation without does, as
    long as the links are [l]. *)
Definition agrees {A : Type} (l : gmap (list string) (list string)) (ml : L A)
    (m : M A) : Prop :=
  forall lw, symlinks lw = l -> ml lw = lift m lw.

End Symlinks.

(** A workspace with a symbolic link [link] to the directory [/srv/secret],
    which is not in the workspace and holds [secret.py]. *)
Module LinkDemo.

Definition secret : list string := ["srv"; "secret"].

Definition files : filesystem :=
  <[(secret ++ ["secret.py"])%list := File "token = 1"]> (<[secret := Dir]> Demo.files).

Definition linked : Symlinks.lworld :=
  {| Symlinks.base := {| fs := files; session := state_defaults; trace := [] |};
     Symlinks.symlinks := {[ (Demo.workspace ++ ["link"])%list := secret ]} |}.

(** The same files, and no link. *)
Definition plain : Symlinks.lworld :=
  {| Symlinks.base := {| fs := files; session := state_defaults; trace := [] |};
     Symlinks.symlinks := ∅ |}.

End LinkDemo.

(** * Properties *)

(** ** Fence stripping *)

Lemma substring_take_drop (a len : nat) (s : string) :
  String.substring a len s = PyStr.take_first len (PyStr.drop_first a s).
Proof.
  revert a len. induction s as [|c s IH]; intros [|a] [|len]; simpl; try reflexivity.
  - f_equal. apply (IH 0%nat len).
  - apply IH.
  - apply IH.
Qed.

Lemma length_drop_first (a : nat) (s : string) :
  String.length (PyStr.drop_first a s) = (String.length s - a)%nat.
Proof.
  revert a. induction s as [|c s IH]; intros [|a]; simpl; try reflexivity.
  apply IH.
Qed.

Lemma take_first_0 (s : string) : PyStr.take_first 0 s = "".
Proof. destruct s; reflexivity. Qed.

(** A slice [s[a:-b]] with [b > 0] removes the first [a] and the last [b]
    characters. *)
Lemma slice_removes_both_ends (a b : nat) (s : string) :
  (0 < b)%nat ->
  PyStr.slice (Z.of_nat a) (- Z.of_nat b) s
  = PyStr.drop_last b (PyStr.drop_first a s).
Proof.
  intros Hb. unfold PyStr.slice, PyStr.drop_last, PyStr.slice_bound.
  rewrite length_drop_first.
  set (n := String.length s).
  destruct (Z.ltb_spec (Z.of_nat a) 0) as [Ha|Ha]; [lia|].
  destruct (Z.ltb_spec (- Z.of_nat b) 0) as [Hb'|Hb']; [|lia].
  destruct (Z.ltb_spec (Z.min (Z.of_nat a) (Z.of_nat n))
              (Z.max 0 (Z.of_nat n + - Z.of_nat b))) as [Hlt|Hge].
  - rewrite substring_take_drop.
    replace (Z.to_nat (Z.min (Z.of_nat a) (Z.of_nat n))) with a by lia.
    f_equal. lia.
  - replace (n - a - b)%nat with 0%nat by lia.
    symmetry. apply take_first_0.
Qed.

Lemma startswith_append (p q s : string) :
  PyStr.startswith (p +:+ q) s = true -> PyStr.startswith p s = true.
Proof.
  revert s. induction p as [|a p IH]; intros s; simpl; [reflexivity|].
  destruct s as [|b s]; [discriminate|].
  destruct (Ascii.eqb a b); [apply IH | discriminate].
Qed.

(** C9: after [strip()], a text starting with the json fence loses its first
    7 and its last 3 characters, a text starting with the plain fence its
    first 3 and its last 3, whatever its end is, and the remainder is stripped
    again; a text starting with no fence is returned as stripped. *)
Theorem clean_ai_response_text_fences (ai_response_text : string) :
  let text := PyStr.strip ai_response_text in
  (PyStr.startswith "```json" text = true ->
   _clean_ai_response_text ai_response_text
   = PyStr.strip (PyStr.drop_last 3 (PyStr.drop_first 7 text))) /\
  (PyStr.startswith "```json" text = false ->
   PyStr.startswith "```" text = true ->
   _clean_ai_response_text ai_response_text
   = PyStr.strip (PyStr.drop_last 3 (PyStr.drop_first 3 text))) /\
  (PyStr.startswith "```" text = false ->
   _clean_ai_response_text ai_response_text = text).
Proof.
  intros text. unfold _clean_ai_response_text. fold text.
  repeat split.
  - intros ->. f_equal. apply (slice_removes_both_ends 7 3). lia.
  - intros -> ->. f_equal. apply (slice_removes_both_ends 3 3). lia.
  - intros H.
    destruct (PyStr.startswith "```json" text) eqn:Hjson.
    + apply (startswith_append "```" "json") in Hjson. congruence.
    + rewrite H. reflexivity.
Qed.

(** The three cases on concrete responses; the second one has no closing
    fence and still loses its last three characters. *)
Lemma clean_ai_response_text_fences_witness :
  _clean_ai_response_text "```json [1, 2] ```" = "[1, 2]" /\
  _clean_ai_response_text "``` [1, 2, 3]" = "[1, 2," /\
  _clean_ai_response_text "  [1, 2] " = "[1, 2]".
Proof.
  split; [|split].
  - apply (proj1 (clean_ai_response_text_fences "```json [1, 2] ```")).
    reflexivity.
  - apply (proj1 (proj2 (clean_ai_response_text_fences "``` [1, 2, 3]")));
      reflexivity.
  - apply (proj2 (proj2 (clean_ai_response_text_fences "  [1, 2] "))).
    reflexivity.
Defined.

(** ** Running computations *)

Ltac unfold_M :=
  unfold bind, ret, raise, try_except, call, emit, ui, get_session,
    set_session, get_fs, set_fs, any_Exception in *.

(** Case analysis on whatever a computation inspects next. *)
Ltac case_run :=
  match goal with
  | |- context [match ?x with _ => _ end] =>
      lazymatch x with
      | context [match _ with _ => _ end] => fail
      | _ => destruct x eqn:?
      end
  end.

Lemma drop_trace_app (t evs : list event) : drop (length t) (t ++ evs) = evs.
Proof. by rewrite drop_app_length. Qed.

(** ** Stopping the preview *)

(** [stop_preview] never returns: it ends the run by [st.rerun()], having
    cleared the preview fields and touched neither the files nor the rest of
    the session. *)
Lemma stop_preview_run (os : os_behaviour) (w : world) :
  stop_preview os w
  = (Raise RerunException,
     {| fs := fs w; session := clear_preview (session w);
        trace := trace w ++ events_of (stop_preview os) w |}).
Proof.
  unfold events_of, stop_preview. unfold_M.
  repeat (simpl; try case_run); simpl;
    rewrite <- ?app_assoc, ?drop_trace_app, ?drop_all, ?app_nil_r; reflexivity.
Qed.

(** C4: whatever happens while stopping, [stop_preview] leaves the four
    preview fields at [None]; it then ends the run by [st.rerun()]. *)
Theorem stop_preview_returns_to_idle (os : os_behaviour) (w : world) :
  idle (session (snd (stop_preview os w))) /\
  fst (stop_preview os w) = Raise RerunException.
Proof. rewrite stop_preview_run. repeat split. Qed.

(** The calls that [stop_preview] makes on the process, by what the process
    answers. *)
Lemma stop_preview_calls (os : os_behaviour) (w : world) :
  let calls := process_calls (events_of (stop_preview os) w) in
  match preview_process (session w) with
  | None => calls = []
  | Some h =>
      if pid h =? 0 then calls = []
      else
        match poll_before_terminate os with
        | Err _ | Ok (Some _) => calls = [ProcPoll h]
        | Ok None =>
            match terminate os, wait_after_terminate os with
            | Err _, _ => calls = [ProcPoll h; ProcTerminate h]
            | Ok _, Err TimeoutExpired =>
                match poll_before_kill os with
                | Err _ | Ok (Some _) =>
                    calls = [ProcPoll h; ProcTerminate h; ProcWait h 3000; ProcPoll h]
                | Ok None =>
                    match kill os with
                    | Err _ =>
                        calls = [ProcPoll h; ProcTerminate h; ProcWait h 3000;
                                 ProcPoll h; ProcKill h]
                    | Ok _ =>
                        calls = [ProcPoll h; ProcTerminate h; ProcWait h 3000;
                                 ProcPoll h; ProcKill h; ProcWait h 1000]
                    end
                end
            | Ok _, _ => calls = [ProcPoll h; ProcTerminate h; ProcWait h 3000]
            end
        end
  end.
Proof.
  unfold events_of, stop_preview. unfold_M.
  repeat (simpl; try case_run); simpl;
    rewrite <- ?app_assoc, ?drop_trace_app, ?drop_all; reflexivity.
Qed.

Lemma in_process_calls (e : event) (evs : list event) :
  is_process_call e = true -> In e evs -> In e (process_calls evs).
Proof. intros He Hin. apply filter_In. split; assumption. Qed.

Ltac case_in H :=
  match type of H with
  | context [match ?x with _ => _ end] =>
      lazymatch x with
      | context [match _ with _ => _ end] => fail
      | _ => destruct x eqn:?
      end
  end.

(** Closes a goal from a membership in an explicit list of calls. *)
Ltac absurd_call H :=
  simpl in H; repeat (destruct H as [H|H]); try discriminate H; try contradiction.

(** C5: [kill()] is called only after [terminate()] and after the wait of 3
    seconds has timed out, and it is followed by at most a wait of 1 second; a
    process found exited, at either poll, is not signalled. *)
Theorem stop_preview_terminates_before_killing (os : os_behaviour) (w : world) :
  let evs := events_of (stop_preview os) w in
  (forall h, In (ProcKill h) evs ->
     wait_after_terminate os = Err TimeoutExpired /\
     exists rest,
       process_calls evs
       = ([ProcPoll h; ProcTerminate h; ProcWait h 3000; ProcPoll h; ProcKill h]
            ++ rest)%list /\
       (rest = [] \/ rest = [ProcWait h 1000])) /\
  (forall code, poll_before_terminate os = Ok (Some code) ->
     forall h, ~ In (ProcTerminate h) evs /\ ~ In (ProcKill h) evs) /\
  (forall code, poll_before_kill os = Ok (Some code) ->
     forall h, ~ In (ProcKill h) evs).
Proof.
  intros evs. pose proof (stop_preview_calls os w) as Hcalls.
  fold evs in Hcalls. simpl in Hcalls.
  split; [|split].
  - intros h Hin. apply (in_process_calls (ProcKill h)) in Hin; [|reflexivity].
    repeat case_in Hcalls; rewrite Hcalls in Hin; simpl in Hin;
      repeat (destruct Hin as [Hin|Hin]); try discriminate Hin; try contradiction.
    all: injection Hin as ->; split; [congruence|].
    all: rewrite Hcalls; eexists; split; [reflexivity|]; auto.
  - intros code Hpoll h. rewrite Hpoll in Hcalls.
    split; intros Hin;
      (eapply in_process_calls in Hin; [|reflexivity]);
      repeat case_in Hcalls; rewrite Hcalls in Hin; absurd_call Hin.
  - intros code Hpoll h Hin. rewrite Hpoll in Hcalls.
    apply (in_process_calls (ProcKill h)) in Hin; [|reflexivity].
    repeat case_in Hcalls; rewrite Hcalls in Hin; absurd_call Hin.
Qed.

(** A process that ignores [terminate()] is killed, in that order. *)
Lemma stop_preview_terminates_before_killing_witness :
  wait_after_terminate Demo.stubborn = Err TimeoutExpired /\
  exists rest,
    process_calls (events_of (stop_preview Demo.stubborn) Demo.busy)
    = ([ProcPoll Demo.preview; ProcTerminate Demo.preview;
        ProcWait Demo.preview 3000; ProcPoll Demo.preview;
        ProcKill Demo.preview] ++ rest)%list /\
    (rest = [] \/ rest = [ProcWait Demo.preview 1000]).
Proof.
  apply (proj1 (stop_preview_terminates_before_killing Demo.stubborn Demo.busy)).
  vm_compute. tauto.
Defined.

(** ** Starting the preview *)

(** With a process on record, [start_preview] on a previewable file stops
    it and ends the run: nothing is spawned. *)
Lemma start_preview_busy (cwd : list string) (exe : string) (os : os_behaviour)
    (name : string) (w : world) (p : popen) :
  previewable cwd name (fs w) = true ->
  preview_process (session w) = Some p ->
  exists evs,
    start_preview cwd exe os name w
    = (Raise RerunException,
       {| fs := fs w; session := clear_preview (session w);
          trace := trace w ++ evs |}) /\
    forall command, ~ In (ProcSpawn command) evs.
Proof.
  intros Hfile Hproc. unfold previewable in Hfile.
  apply andb_prop in Hfile as [Hfile Hsuffix].
  unfold start_preview. unfold_M. unfold fs_is_file. unfold_M. simpl.
  rewrite Hfile, Hsuffix. simpl. rewrite Hproc. simpl.
  rewrite stop_preview_run. simpl.
  eexists. split.
  - rewrite <- !app_assoc. reflexivity.
  - intros command Hin.
    destruct Hin as [|[|Hin]]; try discriminate.
    apply (in_process_calls (ProcSpawn command)) in Hin; [|reflexivity].
    match type of Hin with
    | context [events_of _ ?w0] => pose proof (stop_preview_calls os w0) as Hcalls
    end.
    simpl in Hin, Hcalls. rewrite Hproc in Hcalls.
    repeat case_in Hcalls; rewrite Hcalls in Hin; absurd_call Hin.
Qed.

(** A file that is not previewable is refused and nothing else happens. *)
Lemma start_preview_refused (cwd : list string) (exe : string) (os : os_behaviour)
    (name : string) (w : world) :
  previewable cwd name (fs w) = false ->
  start_preview cwd exe os name w
  = (Return false, logged [FsIsFile (workspace_path cwd name); Ui UiError] w).
Proof.
  intros Hfile. unfold previewable in Hfile.
  unfold start_preview. unfold_M. unfold fs_is_file. unfold_M. simpl.
  apply andb_false_iff in Hfile as [-> | ->]; simpl;
    rewrite ?orb_true_r; simpl; unfold logged; rewrite <- ?app_assoc; reflexivity.
Qed.

(** From the idle state on a previewable file: the run of [start_preview]
    by what the environment answers. *)
Lemma start_preview_idle (cwd : list string) (exe : string) (os : os_behaviour)
    (name : string) (w : world) :
  previewable cwd name (fs w) = true ->
  preview_process (session w) = None ->
  let filepath := workspace_path cwd name in
  match find_available_port os, spawn os, poll_after_startup os with
  | Ok port, Ok proc, Ok None =>
      start_preview cwd exe os name w
      = (Return true,
         {| fs := fs w;
            session := record_preview proc port name (session w);
            trace := trace w ++
              [FsIsFile filepath; FindPort;
               ProcSpawn (preview_command exe filepath port);
               Sleep 2500; ProcPoll proc; Ui UiSuccess; Ui UiToast] |})
  | _, _, _ =>
      exists evs,
        start_preview cwd exe os name w
        = (Return false,
           {| fs := fs w; session := forget_process (session w);
              trace := trace w ++ evs |})
  end.
Proof.
  intros Hfile Hproc filepath. unfold previewable in Hfile.
  apply andb_prop in Hfile as [Hfile Hsuffix].
  unfold start_preview. unfold_M. unfold fs_is_file. unfold_M. simpl.
  rewrite Hfile, Hsuffix. simpl. rewrite Hproc. simpl.
  repeat (simpl; try case_run); simpl; rewrite <- ?app_assoc;
    try reflexivity; eexists; reflexivity.
Qed.

(** C3: [start_preview] returns [True] exactly when, from the idle state and
    on a previewable file, the port search and the spawn succeed and the
    process is still running at the poll that follows the sleep of 2.5
    seconds; it then records the process, the port, the URL and the file.
    Otherwise, from the idle state, it returns [False] and no process is on
    record; the supervisor leaves the idle state in no other way. *)
Theorem start_preview_liveness_check (cwd : list string) (exe : string)
    (os : os_behaviour) (name : string) (w : world) :
  let run := start_preview cwd exe os name w in
  let after := session (snd run) in
  (fst run = Return true <->
     previewable cwd name (fs w) = true /\
     preview_process (session w) = None /\
     exists port proc,
       find_available_port os = Ok port /\ spawn os = Ok proc /\
       poll_after_startup os = Ok None) /\
  (forall port proc,
     previewable cwd name (fs w) = true ->
     preview_process (session w) = None ->
     find_available_port os = Ok port -> spawn os = Ok proc ->
     poll_after_startup os = Ok None ->
     preview_process after = Some proc /\
     preview_port after = Some port /\
     preview_url after = Some ("http://localhost:" +:+ pretty port) /\
     preview_file after = Some name /\
     events_of (start_preview cwd exe os name) w
     = [FsIsFile (workspace_path cwd name); FindPort;
        ProcSpawn (preview_command exe (workspace_path cwd name) port);
        Sleep 2500; ProcPoll proc; Ui UiSuccess; Ui UiToast]) /\
  (preview_process (session w) = None ->
   fst run <> Return true ->
   fst run = Return false /\ preview_process after = None).
Proof.
  intros run after. subst after run.
  destruct (previewable cwd name (fs w)) eqn:Hfile.
  - destruct (preview_process (session w)) as [p|] eqn:Hproc.
    + destruct (start_preview_busy cwd exe os name w p Hfile Hproc) as (evs & -> & _).
      simpl. repeat split; try discriminate.
      intros (_ & ? & _). discriminate.
    + pose proof (start_preview_idle cwd exe os name w Hfile Hproc) as Hrun.
      simpl in Hrun. unfold events_of.
      repeat case_in Hrun;
        lazymatch type of Hrun with
        | ex _ => destruct Hrun as [evs Hrun]
        | _ => idtac
        end;
        rewrite Hrun; simpl;
        (split; [split|split]);
        try (intros; exfalso; congruence);
        try (intros; repeat split; congruence);
        try (intros (_ & _ & port' & proc' & ? & ? & ?); congruence).
      * intros _. repeat split. eauto.
      * intros port' proc' _ _ [= <-] [= <-] _.
        rewrite drop_trace_app. repeat split.
  - rewrite (start_preview_refused cwd exe os name w Hfile). simpl.
    repeat split; try discriminate; try assumption.
    intros (? & _). discriminate.
Qed.

(** From the idle state, with a cooperative environment, [a.py] gets its
    preview. *)
Lemma start_preview_liveness_check_witness :
  preview_process
    (session (snd (start_preview Demo.cwd "python" Demo.cooperative "a.py" Demo.fresh)))
  = Some {| pid := 4243 |} /\
  preview_port
    (session (snd (start_preview Demo.cwd "python" Demo.cooperative "a.py" Demo.fresh)))
  = Some 8503 /\
  preview_url
    (session (snd (start_preview Demo.cwd "python" Demo.cooperative "a.py" Demo.fresh)))
  = Some "http://localhost:8503" /\
  preview_file
    (session (snd (start_preview Demo.cwd "python" Demo.cooperative "a.py" Demo.fresh)))
  = Some "a.py" /\
  events_of (start_preview Demo.cwd "python" Demo.cooperative "a.py") Demo.fresh
  = [FsIsFile (workspace_path Demo.cwd "a.py"); FindPort;
     ProcSpawn (preview_command "python" (workspace_path Demo.cwd "a.py") 8503);
     Sleep 2500; ProcPoll {| pid := 4243 |}; Ui UiSuccess; Ui UiToast].
Proof.
  apply (proj1 (proj2 (start_preview_liveness_check
                         Demo.cwd "python" Demo.cooperative "a.py" Demo.fresh))).
  - vm_compute. reflexivity.
  - reflexivity.
  - reflexivity.
  - reflexivity.
  - reflexivity.
Defined.

(** ** Responses that are not command lists *)

(** C6: a response whose cleaned text is not JSON, or is JSON but not a
    list, makes [parse_and_execute_ai_commands] return one chat record that
    reports it: nothing is raised, and the files and the session stay as they
    were, the only event being the message shown. *)
Theorem invalid_response_is_only_reported (cwd : list string)
    (json_loads : string -> outcome value) (repr : value -> string)
    (str_of_error : error -> string) (os : os_behaviour)
    (ai_response_text : string) (w : world) :
  let cleaned_text := _clean_ai_response_text ai_response_text in
  (json_loads cleaned_text = Err JSONDecodeError ->
   parse_and_execute_ai_commands cwd json_loads repr str_of_error os
     ai_response_text w
   = (Return [chat ("AI Error: Invalid JSON received. Response: "
                      +:+ ai_response_text)],
      logged [Ui UiError] w)) /\
  (forall v,
     json_loads cleaned_text = Ok v ->
     (forall commands, v <> VList commands) ->
     parse_and_execute_ai_commands cwd json_loads repr str_of_error os
       ai_response_text w
     = (Return [chat ("AI Error: Response was not a list. Response: "
                        +:+ cleaned_text)],
        logged [Ui UiError] w)).
Proof.
  intros cleaned_text. subst cleaned_text.
  unfold parse_and_execute_ai_commands. unfold_M. split.
  - intros ->. reflexivity.
  - intros v -> Hlist. destruct v; try reflexivity.
    exfalso. by eapply Hlist.
Qed.

(** A text that is not JSON, and a JSON object where a list is expected. *)
Lemma invalid_response_is_only_reported_witness :
  parse_and_execute_ai_commands Demo.cwd Response.json_loads Response.repr
    Response.str_of_error Demo.cooperative "not json" Demo.fresh
  = (Return [chat "AI Error: Invalid JSON received. Response: not json"],
     logged [Ui UiError] Demo.fresh) /\
  parse_and_execute_ai_commands Demo.cwd Response.json_loads Response.repr
    Response.str_of_error Demo.cooperative
    ("```json " +:+ Response.chat_hello_text +:+ " ```") Demo.fresh
  = (Return [chat ("AI Error: Response was not a list. Response: "
                     +:+ Response.chat_hello_text)],
     logged [Ui UiError] Demo.fresh).
Proof.
  split.
  - apply (proj1 (invalid_response_is_only_reported Demo.cwd Response.json_loads
                    Response.repr Response.str_of_error Demo.cooperative
                    "not json" Demo.fresh)).
    reflexivity.
  - apply (proj2 (invalid_response_is_only_reported Demo.cwd Response.json_loads
                    Response.repr Response.str_of_error Demo.cooperative
                    ("```json " +:+ Response.chat_hello_text +:+ " ```") Demo.fresh)
             (VDict [("action", VStr "chat"); ("content", VStr "hello")])).
    + reflexivity.
    + intros commands. discriminate.
Defined.

(** ** Paths of accepted filenames *)

Lemma startswith_refl (s : string) : PyStr.startswith s s = true.
Proof. induction s as [|a s IH]; simpl; [reflexivity|]. by rewrite Ascii.eqb_refl. Qed.

Lemma contains_empty (s : string) : PyStr.contains "" s = true.
Proof. destruct s; reflexivity. Qed.

Lemma split_on_cons (sep : ascii) (s : string) :
  exists x r, PosixPath.split_on sep s = x :: r /\ PyStr.startswith x s = true.
Proof.
  induction s as [|a s (x & r & IH & Hx)]; simpl.
  - by exists "", [].
  - destruct (Ascii.eqb a sep).
    + by exists "", (PosixPath.split_on sep s).
    + rewrite IH. exists (String a x), r. simpl. by rewrite Ascii.eqb_refl.
Qed.

(** Every component of a split is a substring of the text. *)
Lemma split_on_contains (sep : ascii) (s c : string) :
  In c (PosixPath.split_on sep s) -> PyStr.contains c s = true.
Proof.
  induction s as [|a s IH]; simpl.
  - intros [<-|[]]. reflexivity.
  - destruct (Ascii.eqb a sep).
    + intros [<-|Hin]; [reflexivity|]. rewrite (IH Hin). apply orb_true_r.
    + destruct (split_on_cons sep s) as (x & r & Hsplit & Hx).
      rewrite Hsplit in *. intros [<-|Hin].
      * simpl. by rewrite Ascii.eqb_refl, Hx.
      * rewrite IH by (by right). apply orb_true_r.
Qed.

Lemma parts_contains (p c : string) :
  In c (PosixPath.parts p) -> PyStr.contains c p = true.
Proof.
  unfold PosixPath.parts. intros Hin. apply filter_In in Hin as [Hin _].
  by apply split_on_contains in Hin.
Qed.

(** Without [..] among the components, walking only descends. *)
Lemma walk_descends (dir cs : list string) :
  ~ In ".." cs -> PosixPath.walk dir cs = (dir ++ cs)%list.
Proof.
  revert dir. induction cs as [|c cs IH]; intros dir Hno; simpl.
  - by rewrite app_nil_r.
  - destruct (String.eqb_spec c "..") as [->|Hc].
    + exfalso. apply Hno. by left.
    + rewrite IH by (intros Hin; apply Hno; by right).
      by rewrite <- app_assoc.
Qed.

Lemma rejected_false (filename : string) :
  rejected filename = false ->
  PyStr.contains ".." filename = false /\
  PyStr.startswith "/" filename = false /\
  PyStr.startswith "\" filename = false.
Proof.
  unfold rejected. intros H.
  apply orb_false_elim in H as [H ?]. apply orb_false_elim in H as [? ?]. auto.
Qed.

(** The location of an accepted filename: the workspace directory followed by
    the components of the name. *)
Lemma workspace_path_accepted (cwd : list string) (filename : string) :
  rejected filename = false ->
  workspace_path cwd filename
  = (cwd ++ [WORKSPACE_DIR] ++ PosixPath.parts filename)%list.
Proof.
  intros (Hdots & Hslash & _)%rejected_false.
  unfold workspace_path, PosixPath.resolve, PosixPath.joinpath, PosixPath.is_absolute.
  rewrite Hslash. change (PyStr.startswith "/" _) with false. cbv iota.
  change (PosixPath.parts (WORKSPACE_DIR +:+ "/" +:+ filename))
    with (WORKSPACE_DIR :: PosixPath.parts filename).
  apply walk_descends. intros [Hin|Hin]; [discriminate|].
  apply parts_contains in Hin. congruence.
Qed.

(** ** The three file operations *)

Lemma rejected_nonempty (filename : string) :
  rejected filename = true -> truthy (VStr filename) = true.
Proof. destruct filename; [discriminate | reflexivity]. Qed.

(** On a string the guard of the source is the rejection of the specification. *)
Lemma escapes_workspace_str (filename : string) (w : world) :
  escapes_workspace (VStr filename) w = (Return (rejected filename), w).
Proof.
  unfold escapes_workspace, rejected, contains_str, startswith_separator.
  unfold_M. rewrite <- orb_assoc.
  destruct (PyStr.contains ".." filename); reflexivity.
Qed.

Lemma bind_escapes_workspace {A} (filename : string) (k : bool -> M A) (w : world) :
  bind (escapes_workspace (VStr filename)) k w = k (rejected filename) w.
Proof. unfold bind. by rewrite escapes_workspace_str. Qed.

Lemma read_file_rejected (cwd : list string) (filename : string) (w : world) :
  rejected filename = true ->
  read_file cwd (VStr filename) w = (Return None, logged [Ui UiError] w).
Proof.
  intros Hrej. unfold read_file.
  rewrite (rejected_nonempty _ Hrej). cbn [negb].
  rewrite bind_escapes_workspace, Hrej. reflexivity.
Qed.

Lemma save_file_rejected (cwd : list string) (filename : string) (content : value)
    (w : world) :
  rejected filename = true ->
  save_file cwd (VStr filename) content w = (Return false, logged [Ui UiError] w).
Proof.
  intros Hrej. unfold save_file.
  rewrite (rejected_nonempty _ Hrej). cbn [negb].
  rewrite bind_escapes_workspace, Hrej. reflexivity.
Qed.

Lemma delete_file_rejected (cwd : list string) (os : os_behaviour)
    (filename : string) (w : world) :
  rejected filename = true ->
  delete_file cwd os (VStr filename) w = (Return false, logged [Ui UiError] w).
Proof.
  intros Hrej. unfold delete_file.
  rewrite (rejected_nonempty _ Hrej). cbn [negb].
  rewrite bind_escapes_workspace, Hrej. reflexivity.
Qed.

Lemma stop_preview_fs_accesses (os : os_behaviour) (w : world) :
  fs_accesses (events_of (stop_preview os) w) = [].
Proof.
  unfold events_of, stop_preview. unfold_M.
  repeat (simpl; try case_run); simpl;
    rewrite <- ?app_assoc, ?drop_trace_app, ?drop_all; reflexivity.
Qed.

Ltac close_trace :=
  first [ rewrite <- ?app_assoc; reflexivity
        | symmetry; apply app_nil_r ].

Ltac close_confined :=
  eexists; split; [simpl; close_trace|]; split;
  [ simpl; intros ? Hin; repeat (destruct Hin as [Hin|Hin]); try contradiction;
    by subst
  | simpl; intros ? ?;
    rewrite ?lookup_insert_ne, ?lookup_delete_ne by done; reflexivity ].

Lemma read_file_confined (cwd : list string) (filename : string) (w : world) :
  rejected filename = false ->
  confined (workspace_path cwd filename) (read_file cwd (VStr filename)) w.
Proof.
  intros Hrej. unfold confined, read_file.
  destruct (truthy (VStr filename)); cbn [negb]; [|close_confined].
  rewrite bind_escapes_workspace, Hrej.
  unfold fs_read_text. unfold_M.
  repeat (simpl; try case_run); close_confined.
Qed.

Lemma save_file_confined (cwd : list string) (filename : string) (content : value)
    (w : world) :
  rejected filename = false ->
  confined (workspace_path cwd filename) (save_file cwd (VStr filename) content) w.
Proof.
  intros Hrej. unfold confined, save_file.
  destruct (truthy (VStr filename)); cbn [negb]; [|close_confined].
  rewrite bind_escapes_workspace, Hrej.
  unfold fs_open_write, fs_write. unfold_M.
  repeat (simpl; try case_run); close_confined.
Qed.

Lemma fs_accesses_app (evs evs' : list event) :
  fs_accesses (evs ++ evs') = (fs_accesses evs ++ fs_accesses evs')%list.
Proof. apply omap_app. Qed.

Lemma delete_file_confined (cwd : list string) (os : os_behaviour)
    (filename : string) (w : world) :
  rejected filename = false ->
  confined (workspace_path cwd filename) (delete_file cwd os (VStr filename)) w.
Proof.
  intros Hrej. unfold confined, delete_file.
  destruct (truthy (VStr filename)); cbn [negb]; [|close_confined].
  rewrite bind_escapes_workspace, Hrej.
  unfold fs_is_file, fs_remove. unfold_M.
  repeat (simpl; rewrite ?stop_preview_run; try case_run); try close_confined.
  all: eexists; split; [simpl; close_trace|]; split;
    [ intros p Hin; rewrite ?fs_accesses_app, ?stop_preview_fs_accesses in Hin;
      simpl in Hin; repeat (destruct Hin as [Hin|Hin]); try contradiction; by subst
    | simpl; intros ? ?; rewrite ?lookup_delete_ne by done; reflexivity ].
Qed.

Lemma accepted_inside_workspace (cwd : list string) (filename : string) :
  rejected filename = false ->
  inside_workspace cwd (workspace_path cwd filename).
Proof.
  intros Hrej. rewrite (workspace_path_accepted _ _ Hrej).
  exists (PosixPath.parts filename). by rewrite <- app_assoc.
Qed.

Lemma confined_within_workspace {A} (cwd target : list string) (m : M A) (w : world) :
  inside_workspace cwd target -> confined target m w -> within_workspace cwd m w.
Proof.
  intros Hin (evs & Htrace & Hreach & Hkeep).
  exists evs. split; [assumption|]. split.
  - intros p Hp. by rewrite (Hreach p Hp).
  - intros p Hout. apply Hkeep. intros ->. by apply Hout.
Qed.

Lemma logged_within_workspace {A} (cwd : list string) (m : M A) (w : world)
    (r : result A) (k : ui_kind) :
  m w = (r, logged [Ui k] w) -> within_workspace cwd m w.
Proof.
  intros Hrun. exists [Ui k]. rewrite Hrun. simpl.
  split; [reflexivity|]. split; [intros p []|reflexivity].
Qed.

Ltac close_within :=
  eexists; split; [simpl; close_trace|]; split;
  [ simpl; intros ? Hin; contradiction | reflexivity ].

(** A filename that is not a string reaches no file either. *)
Lemma not_a_string_within_workspace (cwd : list string) (os : os_behaviour)
    (filename content : value) (w : world) :
  (forall name, filename <> VStr name) ->
  within_workspace cwd (read_file cwd filename) w /\
  within_workspace cwd (save_file cwd filename content) w /\
  within_workspace cwd (delete_file cwd os filename) w.
Proof.
  intros Hstr. unfold within_workspace, read_file, save_file, delete_file,
    escapes_workspace, contains_str, startswith_separator.
  destruct filename; try (exfalso; by eapply Hstr); unfold_M;
    repeat split; repeat (simpl; try case_run); close_within.
Qed.

(** In a file system without symbolic links: a filename containing [..] or
    starting with a slash or a backslash is refused with nothing but a
    message; every other filename spells a location inside the workspace
    directory; and whatever the filename argument is, the three operations
    reach no location outside the workspace directory and leave the entries
    outside it as they are. *)
Lemma lexical_paths_stay_in_workspace (cwd : list string) (os : os_behaviour)
    (name : string) (filename content : value) (w : world) :
  (rejected name = true ->
   read_file cwd (VStr name) w = (Return None, logged [Ui UiError] w) /\
   save_file cwd (VStr name) content w = (Return false, logged [Ui UiError] w) /\
   delete_file cwd os (VStr name) w = (Return false, logged [Ui UiError] w)) /\
  (rejected name = false -> inside_workspace cwd (workspace_path cwd name)) /\
  within_workspace cwd (read_file cwd filename) w /\
  within_workspace cwd (save_file cwd filename content) w /\
  within_workspace cwd (delete_file cwd os filename) w.
Proof.
  split; [|split].
  - intros Hrej. auto using read_file_rejected, save_file_rejected, delete_file_rejected.
  - apply accepted_inside_workspace.
  - destruct filename as [| | | |s| |];
      try (apply not_a_string_within_workspace; intros ?; discriminate).
    destruct (rejected s) eqn:Hrej.
    + repeat split; eapply logged_within_workspace;
        eauto using read_file_rejected, save_file_rejected, delete_file_rejected.
    + pose proof (accepted_inside_workspace cwd s Hrej).
      repeat split; eapply confined_within_workspace;
        eauto using read_file_confined, save_file_confined, delete_file_confined.
Qed.

(** ** Symbolic links *)

Ltac unfold_L :=
  unfold Symlinks.sys_read_text, Symlinks.sys_open_write, Symlinks.sys_is_file,
    Symlinks.sys_remove, Symlinks.located, Symlinks.get_links, Symlinks.set_links,
    Symlinks.ltry_except, Symlinks.lbind, Symlinks.lift in *.

(** Where no link is met, a path names the location that it spells. *)
Lemma locate_walk (budget : nat) (l : Symlinks.links) (follow_last : bool)
    (done todo : list string) :
  (forall p, done `prefix_of` p -> p `prefix_of` (done ++ todo)%list ->
             p <> done -> l !! p = None) ->
  Symlinks.locate budget l follow_last done todo = Some (done ++ todo)%list.
Proof.
  revert done. induction todo as [|c rest IH]; intros done Hfree.
  - destruct budget; simpl; by rewrite app_nil_r.
  - assert (l !! (done ++ [c])%list = None) as Hhere.
    { apply Hfree.
      - by exists [c].
      - exists rest. by rewrite <- app_assoc.
      - intros Heq. apply (f_equal length) in Heq. rewrite length_app in Heq.
        simpl in Heq. lia. }
    assert (Symlinks.locate budget l follow_last (done ++ [c]) rest
            = Some ((done ++ [c]) ++ rest)%list) as Hrest.
    { apply IH. intros p Hp1 Hp2 Hp3. apply Hfree.
      - etrans; [|exact Hp1]. by exists [c].
      - by rewrite <- app_assoc in Hp2.
      - intros ->. destruct Hp1 as [k Hk].
        apply (f_equal length) in Hk. rewrite !length_app in Hk. simpl in Hk. lia. }
    rewrite <- app_assoc in Hrest. simpl in Hrest.
    destruct budget; simpl in *; rewrite Hhere; exact Hrest.
Qed.

Lemma locate_unlinked (cwd : list string) (l : Symlinks.links) (follow_last : bool)
    (p : list string) :
  Symlinks.unlinked cwd l -> inside_workspace cwd p ->
  Symlinks.locate Symlinks.MAXSYMLINKS l follow_last [] p = Some p.
Proof.
  intros Hfree Hin. apply (locate_walk _ l follow_last [] p).
  intros q _ Hq _. apply Hfree.
  destruct (prefix_weak_total _ _ _ Hq Hin) as [H|H]; [by left | by right].
Qed.

#[local] Arguments Symlinks.locate : simpl never.

Lemma agrees_lift {A : Type} (l : gmap (list string) (list string)) (m : M A) :
  Symlinks.agrees l (Symlinks.lift m) m.
Proof. by intros lw _. Qed.

Lemma agrees_lbind {A B : Type} (l : gmap (list string) (list string))
    (ml : Symlinks.L A) (m : M A)
    (kl : A -> Symlinks.L B) (k : A -> M B) :
  Symlinks.agrees l ml m -> (forall a, Symlinks.agrees l (kl a) (k a)) ->
  Symlinks.agrees l (Symlinks.lbind ml kl) (bind m k).
Proof.
  intros Hm Hk lw Hl. unfold Symlinks.lbind. rewrite (Hm lw Hl).
  unfold Symlinks.lift, bind. destruct (m (Symlinks.base lw)) as [[a|x] w]; [|reflexivity].
  by rewrite (Hk a {| Symlinks.base := w; Symlinks.symlinks := Symlinks.symlinks lw |} Hl).
Qed.

Lemma agrees_ltry_except {A : Type} (l : gmap (list string) (list string))
    (catches : error -> bool)
    (ml : Symlinks.L A) (m : M A) (hl : error -> Symlinks.L A) (h : error -> M A) :
  Symlinks.agrees l ml m -> (forall e, Symlinks.agrees l (hl e) (h e)) ->
  Symlinks.agrees l (Symlinks.ltry_except catches ml hl) (try_except catches m h).
Proof.
  intros Hm Hh lw Hl. unfold Symlinks.ltry_except. rewrite (Hm lw Hl).
  unfold Symlinks.lift, try_except.
  destruct (m (Symlinks.base lw)) as [[a|[|e]] w]; try reflexivity.
  destruct (catches e); [|reflexivity].
  by rewrite (Hh e {| Symlinks.base := w; Symlinks.symlinks := Symlinks.symlinks lw |} Hl).
Qed.

Lemma agrees_ext {A : Type} (l : gmap (list string) (list string))
    (ml : Symlinks.L A) (m m' : M A) :
  (forall w, m w = m' w) -> Symlinks.agrees l ml m -> Symlinks.agrees l ml m'.
Proof.
  intros Hext Hm lw Hl. rewrite (Hm lw Hl). unfold Symlinks.lift. by rewrite Hext.
Qed.

Section Unlinked.

Variable cwd : list string.
Variable l : gmap (list string) (list string).
Hypothesis Hfree : Symlinks.unlinked cwd l.
Variable p : list string.
Hypothesis Hinside : inside_workspace cwd p.

Lemma agrees_located (follow_last : bool) :
  Symlinks.agrees l (Symlinks.located follow_last p) (ret (Some p)).
Proof.
  intros lw Hl. unfold Symlinks.located, Symlinks.lbind, Symlinks.get_links.
  rewrite Hl, (locate_unlinked cwd l follow_last p Hfree Hinside). reflexivity.
Qed.

Lemma agrees_sys_read_text :
  Symlinks.agrees l (Symlinks.sys_read_text p) (fs_read_text p).
Proof.
  intros lw Hl. unfold Symlinks.sys_read_text, Symlinks.lbind.
  rewrite (agrees_located _ lw Hl). reflexivity.
Qed.

Lemma agrees_sys_is_file :
  Symlinks.agrees l (Symlinks.sys_is_file p) (fs_is_file p).
Proof.
  intros lw Hl. unfold Symlinks.sys_is_file, Symlinks.lbind.
  rewrite (agrees_located _ lw Hl). reflexivity.
Qed.

Lemma agrees_sys_open_write :
  Symlinks.agrees l (Symlinks.sys_open_write p) (fs_open_write p ;; ret p).
Proof.
  intros lw Hl. unfold Symlinks.sys_open_write, Symlinks.lbind.
  rewrite (agrees_located _ lw Hl). reflexivity.
Qed.

Lemma agrees_sys_remove :
  Symlinks.agrees l (Symlinks.sys_remove p) (fs_remove p).
Proof.
  intros lw Hl. unfold Symlinks.sys_remove.
  unfold Symlinks.lbind at 1. rewrite (agrees_located false lw Hl).
  unfold Symlinks.lift at 1, ret at 1. cbv beta iota.
  unfold Symlinks.lbind, Symlinks.get_links. cbn [Symlinks.symlinks].
  rewrite Hl, (Hfree p (or_intror Hinside)), <- Hl. reflexivity.
Qed.

End Unlinked.

Lemma lift_bind_escapes_workspace {A : Type} (name : string) (k : bool -> M A)
    (lw : Symlinks.lworld) :
  Symlinks.lift (bind (escapes_workspace (VStr name)) k) lw
  = Symlinks.lift (k (rejected name)) lw.
Proof. unfold Symlinks.lift. by rewrite bind_escapes_workspace. Qed.

Lemma lbind_escapes_workspace {A : Type} (name : string) (k : bool -> Symlinks.L A)
    (lw : Symlinks.lworld) :
  Symlinks.lbind (Symlinks.lift (escapes_workspace (VStr name))) k lw
  = k (rejected name)
      {| Symlinks.base := Symlinks.base lw; Symlinks.symlinks := Symlinks.symlinks lw |}.
Proof. unfold Symlinks.lbind, Symlinks.lift. by rewrite escapes_workspace_str. Qed.

(** Without links on the way, the three operations are those of the file
    system that has none. *)
Lemma read_file_unlinked (cwd : list string) (filename : value)
    (lw : Symlinks.lworld) :
  Symlinks.unlinked cwd (Symlinks.symlinks lw) ->
  Symlinks.read_file cwd filename lw = Symlinks.lift (read_file cwd filename) lw.
Proof.
  intros Hfree. revert lw Hfree.
  enough (forall l, Symlinks.unlinked cwd l ->
                    Symlinks.agrees l (Symlinks.read_file cwd filename)
                      (read_file cwd filename))
    as Hagree by (intros lw Hfree; by apply (Hagree _ Hfree)).
  intros l Hfree. unfold Symlinks.read_file, read_file.
  destruct (truthy filename); cbn [negb]; [|apply agrees_lift].
  destruct filename as [| | | |name| |];
    try (apply agrees_lbind; [apply agrees_lift|]; intros [|]; apply agrees_lift).
  intros [w ls] Hl. rewrite lbind_escapes_workspace, lift_bind_escapes_workspace.
  cbn [Symlinks.base Symlinks.symlinks].
  destruct (rejected name) eqn:Hrej; [reflexivity|].
  pose proof (accepted_inside_workspace cwd name Hrej) as Hinside.
  apply (agrees_ltry_except l); [| |exact Hl].
  - apply agrees_lbind; [by apply (agrees_sys_read_text cwd)|].
    intros text. apply agrees_lift.
  - intros e. destruct e; apply agrees_lift.
Qed.

Lemma save_file_unlinked (cwd : list string) (filename content : value)
    (lw : Symlinks.lworld) :
  Symlinks.unlinked cwd (Symlinks.symlinks lw) ->
  Symlinks.save_file cwd filename content lw
  = Symlinks.lift (save_file cwd filename content) lw.
Proof.
  intros Hfree. revert lw Hfree.
  enough (forall l, Symlinks.unlinked cwd l ->
                    Symlinks.agrees l (Symlinks.save_file cwd filename content)
                      (save_file cwd filename content))
    as Hagree by (intros lw Hfree; by apply (Hagree _ Hfree)).
  intros l Hfree. unfold Symlinks.save_file, save_file.
  destruct (truthy filename); cbn [negb]; [|apply agrees_lift].
  destruct filename as [| | | |name| |];
    try (apply agrees_lbind; [apply agrees_lift|]; intros [|]; apply agrees_lift).
  intros [w ls] Hl. rewrite lbind_escapes_workspace, lift_bind_escapes_workspace.
  cbn [Symlinks.base Symlinks.symlinks].
  destruct (rejected name) eqn:Hrej; [reflexivity|].
  pose proof (accepted_inside_workspace cwd name Hrej) as Hinside.
  apply (agrees_ltry_except l); [| |exact Hl].
  - eapply agrees_ext;
      [|apply agrees_lbind; [by apply (agrees_sys_open_write cwd)|];
        intros f; apply agrees_lift].
    intros w0. unfold bind. simpl.
    by destruct (fs_open_write (workspace_path cwd name) w0) as [[[]|x] w'].
  - intros e. apply agrees_lift.
Qed.

Lemma delete_file_unlinked (cwd : list string) (os : os_behaviour) (filename : value)
    (lw : Symlinks.lworld) :
  Symlinks.unlinked cwd (Symlinks.symlinks lw) ->
  Symlinks.delete_file cwd os filename lw
  = Symlinks.lift (delete_file cwd os filename) lw.
Proof.
  intros Hfree. revert lw Hfree.
  enough (forall l, Symlinks.unlinked cwd l ->
                    Symlinks.agrees l (Symlinks.delete_file cwd os filename)
                      (delete_file cwd os filename))
    as Hagree by (intros lw Hfree; by apply (Hagree _ Hfree)).
  intros l Hfree. unfold Symlinks.delete_file, delete_file.
  destruct (truthy filename); cbn [negb]; [|apply agrees_lift].
  destruct filename as [| | | |name| |];
    try (apply agrees_lbind; [apply agrees_lift|]; intros [|]; apply agrees_lift).
  intros [w ls] Hl. rewrite lbind_escapes_workspace, lift_bind_escapes_workspace.
  cbn [Symlinks.base Symlinks.symlinks].
  destruct (rejected name) eqn:Hrej; [reflexivity|].
  pose proof (accepted_inside_workspace cwd name Hrej) as Hinside.
  apply (agrees_ltry_except l); [| |exact Hl].
  - apply agrees_lbind; [by apply (agrees_sys_is_file cwd)|].
    intros [|]; [|apply agrees_lift].
    apply agrees_lbind; [by apply (agrees_sys_remove cwd)|].
    intros []. apply agrees_lift.
  - intros e. apply agrees_lift.
Qed.

Lemma lift_within_workspace {A : Type} (cwd : list string) (ml : Symlinks.L A)
    (m : M A) (lw : Symlinks.lworld) :
  ml lw = Symlinks.lift m lw ->
  within_workspace cwd m (Symlinks.base lw) ->
  Symlinks.within_workspace cwd ml lw.
Proof.
  intros Hrun (evs & Htrace & Hreach & Hkeep). exists evs.
  rewrite Hrun. unfold Symlinks.lift.
  destruct (m (Symlinks.base lw)) as [r w]. simpl in *.
  repeat split; auto.
Qed.




(** ** Saving, then reading *)

Lemma length_removelast_cons {A} (a : A) (l : list A) :
  length (removelast (a :: l)) = length l.
Proof.
  revert a. induction l as [|b l IH]; intros a; [reflexivity|].
  change (removelast (a :: b :: l)) with (a :: removelast (b :: l)).
  cbn [length]. f_equal. apply IH.
Qed.

Lemma removelast_shorter {A} (l : list A) : l <> [] -> removelast l <> l.
Proof.
  destruct l as [|a l]; [congruence|]. intros _ Heq.
  apply (f_equal (@length A)) in Heq.
  rewrite length_removelast_cons in Heq. simpl in Heq. lia.
Qed.

Lemma is_dir_insert_file (f : filesystem) (p q : list string) (data : string) :
  q <> p -> is_dir (<[p := File data]> f) q = is_dir f q.
Proof.
  intros Hne. unfold is_dir. destruct q; [reflexivity|].
  by rewrite lookup_insert_ne.
Qed.

(** What a successful [save_file] has done. *)
Lemma save_file_true (cwd : list string) (filename content : string) (w w' : world) :
  save_file cwd (VStr filename) (VStr content) w = (Return true, w') ->
  let p := workspace_path cwd filename in
  rejected filename = false /\ filename <> "" /\ p <> [] /\
  is_dir (fs w) (removelast p) = true /\
  fs w' = <[p := File content]> (fs w) /\
  session w' = session w.
Proof.
  unfold save_file.
  destruct (truthy (VStr filename)) eqn:Htruthy; cbn [negb]; [|discriminate].
  rewrite bind_escapes_workspace.
  destruct (rejected filename) eqn:Hrej; [discriminate|].
  unfold fs_open_write, fs_write. unfold_M. intros Hrun.
  assert (filename <> "") by (intros ->; discriminate).
  repeat (simpl in Hrun; try case_in Hrun); inversion Hrun; subst w'; simpl;
    rewrite insert_insert_eq; repeat split; try congruence; try discriminate;
    by apply negb_false_iff.
Qed.

Lemma universal_newlines_without_cr (s : string) :
  PyStr.contains (String "013" "") s = false -> universal_newlines s = s.
Proof.
  induction s as [|c s IH]; [reflexivity|].
  cbn [PyStr.contains PyStr.startswith universal_newlines].
  destruct (Ascii.eqb_spec "013" c) as [<-|Hne].
  - destruct s; discriminate.
  - rewrite Ascii.eqb_sym. destruct (Ascii.eqb_spec "013" c); [congruence|].
    simpl. intros H. by rewrite IH.
Qed.

(** What [read_file] returns after a successful [save_file]: the content as
    text mode delivers it. *)
Lemma read_after_save (cwd : list string) (filename content : string) (w w' : world) :
  save_file cwd (VStr filename) (VStr content) w = (Return true, w') ->
  fst (read_file cwd (VStr filename) w') = Return (Some (universal_newlines content)).
Proof.
  intros (Hrej & Hname & Hp & Hdir & Hfs & _)%save_file_true.
  unfold read_file. replace (truthy (VStr filename)) with true
    by (by destruct filename).
  cbn [negb]. rewrite bind_escapes_workspace, Hrej.
  unfold fs_read_text. unfold_M. simpl. rewrite Hfs.
  rewrite is_dir_insert_file by (by apply removelast_shorter).
  rewrite Hdir. cbn [negb].
  destruct (workspace_path cwd filename) as [|c p]; [done|].
  by rewrite lookup_insert_eq.
Qed.

(** C8, as amended: after a successful [save_file], [read_file] returns the
    content with every CR LF and every other CR turned into LF, hence the
    content itself when it holds no CR. *)
Theorem save_then_read_without_cr (cwd : list string) (filename content : string)
    (w w' : world) :
  save_file cwd (VStr filename) (VStr content) w = (Return true, w') ->
  fst (read_file cwd (VStr filename) w') = Return (Some (universal_newlines content)) /\
  (PyStr.contains (String "013" "") content = false ->
   fst (read_file cwd (VStr filename) w') = Return (Some content)).
Proof.
  intros Hsave. split; [by eapply read_after_save|].
  intros Hcr. rewrite (read_after_save _ _ _ _ _ Hsave).
  by rewrite universal_newlines_without_cr.
Qed.

(** A file of one line is read back as it was saved. *)
Lemma save_then_read_without_cr_witness :
  fst (read_file Demo.cwd (VStr "b.py")
         (snd (save_file Demo.cwd (VStr "b.py") (VStr "x = 1") Demo.fresh)))
  = Return (Some "x = 1").
Proof.
  apply (proj2 (save_then_read_without_cr Demo.cwd "b.py" "x = 1" Demo.fresh
                  (snd (save_file Demo.cwd (VStr "b.py") (VStr "x = 1") Demo.fresh))
                  ltac:(vm_compute; reflexivity))).
  reflexivity.
Defined.

(** C8, as stated, fails on a content with a CR: the file is saved, and read
    back with LF in place of CR LF. *)
Lemma save_then_read_loses_cr :
  ~ reads_back Demo.cwd "b.py" Demo.two_lines Demo.fresh.
Proof.
  intros Hback.
  specialize (Hback (snd (save_file Demo.cwd (VStr "b.py") (VStr Demo.two_lines)
                            Demo.fresh))).
  vm_compute in Hback. specialize (Hback eq_refl). discriminate.
Qed.

(** ** Deleting *)

(** A filename that is not an existing file of the workspace: [delete_file]
    returns [False] and changes neither the files nor the session. *)
Lemma delete_file_absent (cwd : list string) (os : os_behaviour) (name : string)
    (w : world) :
  is_file (fs w) (workspace_path cwd name) = false ->
  exists evs, delete_file cwd os (VStr name) w = (Return false, logged evs w).
Proof.
  intros Habsent. unfold delete_file.
  destruct (truthy (VStr name)); cbn [negb].
  - rewrite bind_escapes_workspace. destruct (rejected name).
    + by exists [Ui UiError].
    + unfold fs_is_file. unfold_M. simpl. rewrite Habsent. simpl.
      exists [FsIsFile (workspace_path cwd name); Ui UiWarning].
      unfold logged. by rewrite <- app_assoc.
  - exists []. unfold logged, ret. rewrite app_nil_r. by destruct w.
Qed.

(** A [delete_file] that returns [False] has changed nothing. *)
Lemma delete_file_false (cwd : list string) (os : os_behaviour) (name : string)
    (w w' : world) :
  delete_file cwd os (VStr name) w = (Return false, w') ->
  fs w' = fs w /\ session w' = session w.
Proof.
  unfold delete_file. destruct (truthy (VStr name)); cbn [negb].
  - rewrite bind_escapes_workspace. destruct (rejected name).
    + intros [= <-]. by split.
    + unfold fs_is_file, fs_remove. unfold_M.
      intros Hrun.
      repeat (simpl in Hrun; rewrite ?stop_preview_run in Hrun; try case_in Hrun);
        inversion Hrun; subst; try by split.
      all: unfold is_file in *; repeat case_in Heqb; congruence.
  - intros [= <-]. by split.
Qed.

(** With a file deleted that is being previewed, the run ends in
    [stop_preview]: the selection is not looked at. *)
Lemma delete_file_previewed (cwd : list string) (os : os_behaviour) (name : string)
    (w : world) :
  rejected name = false -> name <> "" ->
  is_file (fs w) (workspace_path cwd name) = true ->
  preview_file (session w) = Some name ->
  exists evs,
    delete_file cwd os (VStr name) w
    = (Raise RerunException,
       {| fs := delete (workspace_path cwd name) (fs w);
          session := clear_preview (session w);
          trace := trace w ++ evs |}).
Proof.
  intros Hrej Hname Hfile Hprev. unfold delete_file.
  replace (truthy (VStr name)) with true by (by destruct name).
  cbn [negb]. rewrite bind_escapes_workspace, Hrej.
  unfold fs_is_file, fs_remove. unfold_M. simpl. rewrite Hfile. simpl.
  unfold is_file in Hfile.
  destruct (fs w !! workspace_path cwd name) as [[data|]|]; try discriminate.
  simpl. rewrite Hprev. simpl. rewrite String.eqb_refl.
  rewrite stop_preview_run. simpl. eexists. rewrite <- !app_assoc. reflexivity.
Qed.

(** C10, at the failing input: [a.py] is open in the editor and being
    previewed. Deleting it removes the file and stops the preview, but the
    run ends there: the file stays selected and the editor fields keep its
    text. *)
Theorem delete_previewed_file_keeps_selection :
  fst (delete_file Demo.cwd Demo.cooperative (VStr "a.py") Demo.busy)
  = Raise RerunException /\
  fs (snd (delete_file Demo.cwd Demo.cooperative (VStr "a.py") Demo.busy))
    !! workspace_path Demo.cwd "a.py" = None /\
  session (snd (delete_file Demo.cwd Demo.cooperative (VStr "a.py") Demo.busy))
  = {| messages := [];
       selected_file := Some "a.py";
       file_content_on_load := VStr "print(1)";
       preview_process := None;
       preview_port := None;
       preview_url := None;
       preview_file := None;
       editor_unsaved_content := VStr "print(1)";
       last_saved_content := VStr "print(1)" |}.
Proof. vm_compute. repeat split. Qed.

(** With a file deleted that is not being previewed, the selection is
    cleared when it was that file. *)
Lemma delete_file_not_previewed (cwd : list string) (os : os_behaviour)
    (name : string) (w : world) :
  rejected name = false -> name <> "" ->
  is_file (fs w) (workspace_path cwd name) = true ->
  same_file (preview_file (session w)) name = false ->
  delete_file cwd os (VStr name) w
  = (Return true,
     {| fs := delete (workspace_path cwd name) (fs w);
        session := if same_file (selected_file (session w)) name
                   then clear_selection (session w) else session w;
        trace := trace w ++ [FsIsFile (workspace_path cwd name);
                             FsRemove (workspace_path cwd name); Ui UiToast] |}).
Proof.
  intros Hrej Hname Hfile Hprev. unfold delete_file.
  replace (truthy (VStr name)) with true by (by destruct name).
  cbn [negb]. rewrite bind_escapes_workspace, Hrej.
  unfold fs_is_file, fs_remove. unfold_M. simpl. rewrite Hfile. simpl.
  unfold is_file in Hfile.
  destruct (fs w !! workspace_path cwd name) as [[data|]|]; try discriminate.
  simpl. rewrite Hprev. simpl.
  destruct (same_file (selected_file (session w)) name); simpl;
    rewrite <- !app_assoc; reflexivity.
Qed.

(** ** Carrying out a list of commands *)

(** The loop over a concatenation: the second part starts from the list and
    the world that the first part leaves, and is not run when the first part
    raises. *)
Lemma execute_commands_app (cwd : list string) (repr : value -> string)
    (os : os_behaviour) (before after : list value) (executed : list value)
    (w : world) :
  execute_commands cwd repr os (before ++ after) executed w
  = match execute_commands cwd repr os before executed w with
    | (Return executed', w') => execute_commands cwd repr os after executed' w'
    | (Raise x, w') => (Raise x, w')
    end.
Proof.
  revert executed w. induction before as [|c before IH]; intros executed w.
  - reflexivity.
  - simpl. unfold bind.
    destruct (execute_command cwd repr os c executed w) as [[executed'|x] w'].
    + apply IH.
    + reflexivity.
Qed.

Lemma execute_commands_cons (cwd : list string) (repr : value -> string)
    (os : os_behaviour) (c : value) (after : list value) (executed : list value)
    (w : world) :
  execute_commands cwd repr os (c :: after) executed w
  = match execute_command cwd repr os c executed w with
    | (Return executed', w') => execute_commands cwd repr os after executed' w'
    | (Raise x, w') => (Raise x, w')
    end.
Proof. reflexivity. Qed.

(** A command that fails the presence checks is answered by a warning and a
    chat record. *)
Lemma malformed_reported (cwd : list string) (repr : value -> string)
    (os : os_behaviour) (c : value) (executed : list value) (w : world) :
  malformed c = true ->
  exists text,
    execute_command cwd repr os c executed w
    = (Return (shown c executed ++ [chat text])%list, logged [Ui UiWarning] w).
Proof.
  unfold malformed, execute_command, shown. unfold_M.
  destruct c as [| | | | |items|entries]; try (intros _; eexists; reflexivity).
  destruct (eq_str (dict_get "action" entries) "create_update").
  - intros Hbad. apply orb_true_iff in Hbad as [Hbad|Hbad].
    + apply negb_true_iff in Hbad. rewrite Hbad. eexists. reflexivity.
    + rewrite Hbad, andb_false_r. eexists. reflexivity.
  - destruct (eq_str (dict_get "action" entries) "delete").
    + intros ->%negb_true_iff. eexists. reflexivity.
    + intros ->%negb_true_iff. eexists. reflexivity.
Qed.

Lemma is_None_false (v : value) : v <> VNone -> is_None v = false.
Proof. by destruct v. Qed.

(** A [create_update] whose [save_file] returns [False]. *)
Lemma failed_save_reported (cwd : list string) (repr : value -> string)
    (os : os_behaviour) (c : value) (name : string) (content : value)
    (executed : list value) (w w' : world) :
  is_create_update c (VStr name) content ->
  save_file cwd (VStr name) content w = (Return false, w') ->
  execute_command cwd repr os c executed w
  = (Return (executed ++ [c; chat ("Error: Failed saving " +:+ name)])%list,
     logged [Ui UiError] w').
Proof.
  intros (entries & -> & Haction & Hname & Hcontent & Htruthy & Hnone) Hsave.
  unfold execute_command. rewrite Haction, Hname, Hcontent, Htruthy.
  rewrite (is_None_false _ Hnone). cbn [negb andb]. unfold bind at 1.
  rewrite Hsave. unfold_M. simpl. by rewrite <- app_assoc.
Qed.

(** A [delete] whose [delete_file] returns [False]. *)
Lemma failed_delete_reported (cwd : list string) (repr : value -> string)
    (os : os_behaviour) (c : value) (name : string)
    (executed : list value) (w w' : world) :
  is_delete c (VStr name) ->
  delete_file cwd os (VStr name) w = (Return false, w') ->
  execute_command cwd repr os c executed w
  = (Return (executed ++ [c; chat ("Error: Failed deleting " +:+ name)])%list,
     logged [Ui UiError] w').
Proof.
  intros (entries & -> & Haction & Hname & Htruthy) Hdelete.
  unfold execute_command. rewrite Haction, Hname, Htruthy.
  destruct (eq_str (dict_get "action" entries) "create_update") eqn:Hcu.
  { destruct (dict_get "action" entries); try discriminate.
    simpl in *. apply String.eqb_eq in Hcu, Haction. congruence. }
  unfold bind at 1. rewrite Hdelete. unfold_M. simpl. by rewrite <- app_assoc.
Qed.

(** A file operation on a number raises [TypeError] at its guard. *)
Lemma number_filename_raises (cwd : list string) (os : os_behaviour)
    (filename content : value) (w : world) :
  is_number filename = true -> truthy filename = true ->
  save_file cwd filename content w = (Raise (Error TypeError), w) /\
  delete_file cwd os filename w = (Raise (Error TypeError), w).
Proof.
  intros Hnum Htruthy. unfold save_file, delete_file. rewrite Htruthy.
  by destruct filename.
Qed.

(** A command that names its file by a number stops the loop. *)
Lemma number_filename_stops (cwd : list string) (repr : value -> string)
    (os : os_behaviour) (c filename content : value)
    (executed : list value) (w : world) :
  is_create_update c filename content \/ is_delete c filename ->
  is_number filename = true ->
  execute_command cwd repr os c executed w = (Raise (Error TypeError), w).
Proof.
  intros [(entries & -> & Haction & Hname & Hcontent & Htruthy & Hnone)
         |(entries & -> & Haction & Hname & Htruthy)] Hnum;
    unfold execute_command; rewrite Haction, Hname, Htruthy.
  - rewrite Hcontent, (is_None_false _ Hnone). cbn [negb andb]. unfold bind.
    by rewrite (proj1 (number_filename_raises cwd os filename content w Hnum Htruthy)).
  - destruct (eq_str (dict_get "action" entries) "create_update") eqn:Hcu.
    { destruct (dict_get "action" entries); try discriminate.
      simpl in *. apply String.eqb_eq in Hcu, Haction. congruence. }
    unfold bind.
    by rewrite (proj2 (number_filename_raises cwd os filename VNone w Hnum Htruthy)).
Qed.

Lemma save_file_keeps_others (cwd : list string) (name : string) (content : value)
    (w : world) (p : list string) :
  p <> workspace_path cwd name ->
  fs (snd (save_file cwd (VStr name) content w)) !! p = fs w !! p.
Proof.
  intros Hp. destruct (rejected name) eqn:Hrej.
  - by rewrite save_file_rejected.
  - destruct (save_file_confined cwd name content w Hrej) as (_ & _ & _ & Hkeep).
    by apply Hkeep.
Qed.

(** The whole function on a list in which a command raises an error. *)
Lemma parse_and_execute_raised (cwd : list string)
    (json_loads : string -> outcome value) (repr : value -> string)
    (str_of_error : error -> string) (os : os_behaviour)
    (ai_response_text : string) (commands : list value) (w w' : world) :
  json_loads (_clean_ai_response_text ai_response_text) = Ok (VList commands) ->
  execute_commands cwd repr os commands [] w = (Raise (Error TypeError), w') ->
  parse_and_execute_ai_commands cwd json_loads repr str_of_error os
    ai_response_text w
  = (Return [chat ("Error processing commands: " +:+ str_of_error TypeError)],
     logged [Ui UiError] w').
Proof.
  intros Hjson Hrun. unfold parse_and_execute_ai_commands, try_except.
  by rewrite Hjson, Hrun.
Qed.

(** C7, as amended: the commands are carried out in order, each from the
    world that the earlier ones leave, and nothing is undone. A command that
    fails the presence checks, or whose file operation on a string filename
    returns [False], is answered by a chat record and the loop goes on. A
    command that names its file by a number makes the file operation raise
    [TypeError]: the loop stops in the world that the earlier commands
    leave, and the function returns a single chat record. *)
Theorem commands_are_not_transactional (cwd : list string)
    (json_loads : string -> outcome value) (repr : value -> string)
    (str_of_error : error -> string) (os : os_behaviour)
    (before after : list value) (c : value) (executed1 : list value)
    (w w1 : world) :
  execute_commands cwd repr os before [] w = (Return executed1, w1) ->
  (malformed c = true ->
   exists text,
     execute_commands cwd repr os (before ++ c :: after) [] w
     = execute_commands cwd repr os after
         (shown c executed1 ++ [chat text])%list (logged [Ui UiWarning] w1)) /\
  (forall name content w2,
     is_create_update c (VStr name) content ->
     save_file cwd (VStr name) content w1 = (Return false, w2) ->
     execute_commands cwd repr os (before ++ c :: after) [] w
     = execute_commands cwd repr os after
         (executed1 ++ [c; chat ("Error: Failed saving " +:+ name)])%list
         (logged [Ui UiError] w2) /\
     forall p, p <> workspace_path cwd name -> fs w2 !! p = fs w1 !! p) /\
  (forall name w2,
     is_delete c (VStr name) ->
     delete_file cwd os (VStr name) w1 = (Return false, w2) ->
     execute_commands cwd repr os (before ++ c :: after) [] w
     = execute_commands cwd repr os after
         (executed1 ++ [c; chat ("Error: Failed deleting " +:+ name)])%list
         (logged [Ui UiError] w2) /\
     fs w2 = fs w1) /\
  (forall filename content ai_response_text,
     is_create_update c filename content \/ is_delete c filename ->
     is_number filename = true ->
     execute_commands cwd repr os (before ++ c :: after) [] w
     = (Raise (Error TypeError), w1) /\
     (json_loads (_clean_ai_response_text ai_response_text)
      = Ok (VList (before ++ c :: after)) ->
      parse_and_execute_ai_commands cwd json_loads repr str_of_error os
        ai_response_text w
      = (Return [chat ("Error processing commands: " +:+ str_of_error TypeError)],
         logged [Ui UiError] w1))).
Proof.
  intros Hbefore.
  assert (forall r,
    execute_command cwd repr os c executed1 w1 = r ->
    execute_commands cwd repr os (before ++ c :: after) [] w
    = match r with
      | (Return executed', w') => execute_commands cwd repr os after executed' w'
      | (Raise x, w') => (Raise x, w')
      end) as Hstep.
  { intros r <-. by rewrite execute_commands_app, Hbefore, execute_commands_cons. }
  split; [|split; [|split]].
  - intros Hbad.
    destruct (malformed_reported cwd repr os c executed1 w1 Hbad) as [text Hrun].
    exists text. by rewrite (Hstep _ Hrun).
  - intros name content w2 Hc Hsave. split.
    + by rewrite (Hstep _ (failed_save_reported _ _ _ _ _ _ _ _ _ Hc Hsave)).
    + intros p Hp. pose proof (save_file_keeps_others cwd name content w1 p Hp) as Hkeep.
      by rewrite Hsave in Hkeep.
  - intros name w2 Hc Hdelete. split.
    + by rewrite (Hstep _ (failed_delete_reported _ _ _ _ _ _ _ _ Hc Hdelete)).
    + by apply delete_file_false in Hdelete as [? _].
  - intros filename content ai_response_text Hc Hnum.
    pose proof (Hstep _ (number_filename_stops cwd repr os c filename content
                           executed1 w1 Hc Hnum)) as Hrun.
    split; [exact Hrun|].
    intros Hjson. by eapply parse_and_execute_raised.
Qed.

(** After [b.py] has been created, deleting a file that does not exist is
    reported, [b.py] stays and the loop goes on to the next command. *)
Lemma commands_are_not_transactional_witness :
  execute_commands Demo.cwd Response.repr Demo.cooperative
    ([Response.create_b] ++ Response.delete_missing :: [Response.create_c]) []
    Demo.fresh
  = execute_commands Demo.cwd Response.repr Demo.cooperative [Response.create_c]
      ([Response.create_b]
         ++ [Response.delete_missing; chat "Error: Failed deleting missing.py"])%list
      (logged [Ui UiError]
         (snd (delete_file Demo.cwd Demo.cooperative (VStr "missing.py")
                 (snd (execute_commands Demo.cwd Response.repr Demo.cooperative
                         [Response.create_b] [] Demo.fresh))))) /\
  fs (snd (delete_file Demo.cwd Demo.cooperative (VStr "missing.py")
             (snd (execute_commands Demo.cwd Response.repr Demo.cooperative
                     [Response.create_b] [] Demo.fresh))))
  = fs (snd (execute_commands Demo.cwd Response.repr Demo.cooperative
               [Response.create_b] [] Demo.fresh)).
Proof.
  apply (proj1 (proj2 (proj2
    (commands_are_not_transactional Demo.cwd Response.json_loads Response.repr
       Response.str_of_error Demo.cooperative
       [Response.create_b] [Response.create_c] Response.delete_missing
       [Response.create_b]
       Demo.fresh
       (snd (execute_commands Demo.cwd Response.repr Demo.cooperative
               [Response.create_b] [] Demo.fresh))
       ltac:(vm_compute; reflexivity)))) "missing.py").
  - eexists. repeat split.
  - vm_compute. reflexivity.
Defined.

(** C7, as stated, fails on a list whose second command names its file by a
    number: that command is not answered by a chat record added to the list,
    the function returns a single record, and the third command is not
    carried out, although the first one was. *)
Lemma number_filename_stops_the_list :
  ~ appends_and_continues Demo.cwd Response.repr Demo.cooperative
      Response.delete_5 [Response.create_b]
      (snd (execute_commands Demo.cwd Response.repr Demo.cooperative
              [Response.create_b] [] Demo.fresh)) /\
  fst (parse_and_execute_ai_commands Demo.cwd Response.json_loads Response.repr
         Response.str_of_error Demo.cooperative Response.numbered_text Demo.fresh)
  = Return [chat "Error processing commands: argument of type 'int' is not iterable"] /\
  fs (snd (parse_and_execute_ai_commands Demo.cwd Response.json_loads
             Response.repr Response.str_of_error Demo.cooperative
             Response.numbered_text Demo.fresh))
    !! workspace_path Demo.cwd "b.py" = Some (File "x = 1") /\
  fs (snd (parse_and_execute_ai_commands Demo.cwd Response.json_loads
             Response.repr Response.str_of_error Demo.cooperative
             Response.numbered_text Demo.fresh))
    !! workspace_path Demo.cwd "c.py" = None.
Proof.
  split; [|vm_compute; repeat split].
  intros (text & w' & Hrun). vm_compute in Hrun. discriminate.
Qed.

(** ** One preview at a time *)

Lemma no_spawn_nil : no_spawn [].
Proof. intros command []. Qed.

Lemma no_spawn_cons (e : event) (evs : list event) :
  (forall command, e <> ProcSpawn command) -> no_spawn evs -> no_spawn (e :: evs).
Proof. intros He Hevs command [Hin|Hin]; [by eapply He | by eapply Hevs]. Qed.

Lemma no_spawn_app (evs evs' : list event) :
  no_spawn evs -> no_spawn evs' -> no_spawn (evs ++ evs').
Proof.
  intros H H' command Hin. apply in_app_or in Hin as [Hin|Hin];
    [by eapply H | by eapply H'].
Qed.

Lemma stop_preview_no_spawn (os : os_behaviour) (w : world) :
  no_spawn (events_of (stop_preview os) w).
Proof.
  intros command Hin.
  apply (in_process_calls (ProcSpawn command)) in Hin; [|reflexivity].
  pose proof (stop_preview_calls os w) as Hcalls. simpl in Hcalls.
  repeat case_in Hcalls; rewrite Hcalls in Hin; absurd_call Hin.
Qed.

Ltac solve_no_spawn :=
  repeat (apply no_spawn_cons; [intros ?; discriminate|]);
  first [ apply no_spawn_nil | apply stop_preview_no_spawn ].

(** Closes a leaf of a quiet computation. *)
Ltac close_quiet :=
  eexists; split; [simpl; close_trace|]; split;
  [ simpl; solve_no_spawn | simpl; auto ].

Ltac quiet_brute :=
  intros w; unfold_M;
  repeat (simpl; rewrite ?stop_preview_run; try case_run); close_quiet.

Lemma quiet_ret {A} (a : A) : quiet (ret a).
Proof. quiet_brute. Qed.

Lemma quiet_ui (k : ui_kind) : quiet (ui k).
Proof. quiet_brute. Qed.

Lemma quiet_bind {A B} (m : M A) (k : A -> M B) :
  quiet m -> (forall a, quiet (k a)) -> quiet (bind m k).
Proof.
  intros Hm Hk w. destruct (Hm w) as (evs & Htrace & Hspawn & Hproc).
  unfold bind. destruct (m w) as [[a|x] w']; simpl in *.
  - destruct (Hk a w') as (evs' & Htrace' & Hspawn' & Hproc').
    exists (evs ++ evs')%list. split; [|split].
    + by rewrite Htrace', Htrace, app_assoc.
    + by apply no_spawn_app.
    + destruct Hproc' as [->| ->]; auto.
  - by exists evs.
Qed.

Lemma quiet_try_except {A} (catches : error -> bool) (m : M A)
    (handler : error -> M A) :
  quiet m -> (forall e, quiet (handler e)) -> quiet (try_except catches m handler).
Proof.
  intros Hm Hh w. destruct (Hm w) as (evs & Htrace & Hspawn & Hproc).
  unfold try_except. destruct (m w) as [[a|[|e]] w']; simpl in *;
    try by exists evs.
  destruct (catches e); [|by exists evs].
  destruct (Hh e w') as (evs' & Htrace' & Hspawn' & Hproc').
  exists (evs ++ evs')%list. split; [|split].
  - by rewrite Htrace', Htrace, app_assoc.
  - by apply no_spawn_app.
  - destruct Hproc' as [->| ->]; auto.
Qed.

Lemma quiet_stop_preview (os : os_behaviour) : quiet (stop_preview os).
Proof.
  intros w. rewrite stop_preview_run. simpl.
  exists (events_of (stop_preview os) w).
  split; [reflexivity|]. split; [apply stop_preview_no_spawn | by right].
Qed.

Lemma quiet_read_file (cwd : list string) (filename : value) :
  quiet (read_file cwd filename).
Proof.
  unfold read_file, escapes_workspace, contains_str, startswith_separator,
    fs_read_text.
  quiet_brute.
Qed.

Lemma quiet_save_file (cwd : list string) (filename content : value) :
  quiet (save_file cwd filename content).
Proof.
  unfold save_file, escapes_workspace, contains_str, startswith_separator,
    fs_open_write, fs_write.
  quiet_brute.
Qed.

Lemma quiet_delete_file (cwd : list string) (os : os_behaviour) (filename : value) :
  quiet (delete_file cwd os filename).
Proof.
  unfold delete_file, escapes_workspace, contains_str, startswith_separator,
    fs_is_file, fs_remove.
  quiet_brute.
Qed.

Lemma quiet_execute_command (cwd : list string) (repr : value -> string)
    (os : os_behaviour) (c : value) (executed : list value) :
  quiet (execute_command cwd repr os c executed).
Proof.
  unfold execute_command.
  destruct c as [| | | | |items|entries]; try quiet_brute.
  repeat case_run; try quiet_brute.
  - apply quiet_bind; [apply quiet_save_file|].
    intros [|]; quiet_brute.
  - apply quiet_bind; [apply quiet_delete_file|].
    intros [|]; quiet_brute.
Qed.

Lemma quiet_execute_commands (cwd : list string) (repr : value -> string)
    (os : os_behaviour) (commands : list value) (executed : list value) :
  quiet (execute_commands cwd repr os commands executed).
Proof.
  revert executed. induction commands as [|c commands IH]; intros executed; simpl.
  - apply quiet_ret.
  - apply quiet_bind; [apply quiet_execute_command | apply IH].
Qed.

Lemma quiet_parse_and_execute_ai_commands (cwd : list string)
    (json_loads : string -> outcome value) (repr : value -> string)
    (str_of_error : error -> string) (os : os_behaviour) (text : string) :
  quiet (parse_and_execute_ai_commands cwd json_loads repr str_of_error os text).
Proof.
  unfold parse_and_execute_ai_commands. apply quiet_try_except.
  - repeat case_run; try quiet_brute. apply quiet_execute_commands.
  - intros e. destruct e; quiet_brute.
Qed.

(** [start_preview] either is quiet, or starts from an empty record and
    leaves on it the process that it has just spawned and polled. *)
Lemma start_preview_discipline (cwd : list string) (exe : string)
    (os : os_behaviour) (name : string) (w : world) :
  (exists evs,
     trace (snd (start_preview cwd exe os name w)) = (trace w ++ evs)%list /\
     no_spawn evs /\
     (preview_process (session (snd (start_preview cwd exe os name w)))
      = preview_process (session w) \/
      preview_process (session (snd (start_preview cwd exe os name w))) = None)) \/
  (exists h earlier command later,
     trace (snd (start_preview cwd exe os name w))
     = (trace w ++ earlier ++ [ProcSpawn command; Sleep 2500; ProcPoll h] ++ later)%list /\
     no_spawn later /\
     preview_process (session (snd (start_preview cwd exe os name w))) = Some h) \/
  (exists evs,
     trace (snd (start_preview cwd exe os name w)) = (trace w ++ evs)%list /\
     preview_process (session w) = None /\
     preview_process (session (snd (start_preview cwd exe os name w))) = None).
Proof.
  destruct (previewable cwd name (fs w)) eqn:Hfile.
  - destruct (preview_process (session w)) as [p|] eqn:Hproc.
    + left. destruct (start_preview_busy cwd exe os name w p Hfile Hproc)
        as (evs & -> & Hspawn).
      exists evs. simpl. auto.
    + pose proof (start_preview_idle cwd exe os name w Hfile Hproc) as Hrun.
      simpl in Hrun.
      destruct (find_available_port os) as [port|];
        [destruct (spawn os) as [proc|];
         [destruct (poll_after_startup os) as [[code|]|]|]|].
      2: { right. left. rewrite Hrun. simpl.
           exists proc, [FsIsFile (workspace_path cwd name); FindPort],
             (preview_command exe (workspace_path cwd name) port),
             [Ui UiSuccess; Ui UiToast].
           split; [reflexivity|]. split; [solve_no_spawn|reflexivity]. }
      all: right; right; destruct Hrun as [evs ->]; exists evs; simpl; auto.
  - left. rewrite (start_preview_refused cwd exe os name w Hfile).
    exists [FsIsFile (workspace_path cwd name); Ui UiError]. simpl.
    split; [reflexivity|]. split; [solve_no_spawn|auto].
Qed.

Lemma latest_spawn_kept (w w' : world) (evs : list event) :
  latest_spawn_on_record w ->
  trace w' = (trace w ++ evs)%list ->
  no_spawn evs ->
  preview_process (session w') = preview_process (session w) \/
  preview_process (session w') = None ->
  latest_spawn_on_record w'.
Proof.
  intros Hlatest Htrace Hspawn Hproc h Hh.
  destruct Hproc as [Hproc|Hproc]; [|congruence].
  rewrite Hproc in Hh.
  destruct (Hlatest h Hh) as (earlier & command & later & Hw & Hlater).
  exists earlier, command, (later ++ evs)%list. split.
  - rewrite Htrace, Hw. by rewrite <- !app_assoc.
  - by apply no_spawn_app.
Qed.

Lemma latest_spawn_quiet {A} (m : M A) (w : world) :
  quiet m -> latest_spawn_on_record w -> latest_spawn_on_record (snd (m w)).
Proof.
  intros Hquiet Hlatest. destruct (Hquiet w) as (evs & Htrace & Hspawn & Hproc).
  by eapply latest_spawn_kept.
Qed.

Lemma latest_spawn_start_preview (cwd : list string) (exe : string)
    (os : os_behaviour) (name : string) (w : world) :
  latest_spawn_on_record w ->
  latest_spawn_on_record (snd (start_preview cwd exe os name w)).
Proof.
  intros Hlatest.
  destruct (start_preview_discipline cwd exe os name w)
    as [(evs & Htrace & Hspawn & Hproc)
       |[(h & earlier & command & later & Htrace & Hspawn & Hproc)
        |(evs & Htrace & _ & Hproc)]].
  - by eapply latest_spawn_kept.
  - intros h' Hh'. rewrite Hproc in Hh'. injection Hh' as <-.
    exists (trace w ++ earlier)%list, command, later.
    split; [|assumption]. by rewrite Htrace, <- !app_assoc.
  - intros h' Hh'. congruence.
Qed.

Lemma stop_preview_stopping_calls (os : os_behaviour) (w : world) :
  process_calls (events_of (stop_preview os) w)
  = match preview_process (session w) with
    | Some h => stopping_calls os h
    | None => []
    end.
Proof.
  pose proof (stop_preview_calls os w) as Hcalls. simpl in Hcalls.
  unfold stopping_calls.
  repeat case_in Hcalls; rewrite Hcalls; reflexivity.
Qed.

(** With a process on record, [start_preview] on a previewable file makes
    the calls of [stop_preview] on that process, and no other call on a
    process. *)
Lemma start_preview_busy_calls (cwd : list string) (exe : string)
    (os : os_behaviour) (name : string) (w : world) (p : popen) :
  previewable cwd name (fs w) = true ->
  preview_process (session w) = Some p ->
  process_calls (events_of (start_preview cwd exe os name) w) = stopping_calls os p.
Proof.
  intros Hfile Hproc. unfold previewable in Hfile.
  apply andb_prop in Hfile as [Hfile Hsuffix].
  unfold events_of, start_preview. unfold_M. unfold fs_is_file. unfold_M. simpl.
  rewrite Hfile, Hsuffix. simpl. rewrite Hproc. simpl.
  rewrite stop_preview_run. simpl.
  rewrite <- !app_assoc, drop_trace_app. simpl.
  match goal with
  | |- context [events_of _ ?w0] => rewrite (stop_preview_stopping_calls os w0)
  end.
  simpl. by rewrite Hproc.
Qed.

(** C2: in every world that a session reaches, the process on record, if
    any, is the process spawned last, and no process has been spawned since
    it was polled; and with a process on record [start_preview] spawns
    nothing: on a previewable file it stops the preview, making on the
    process on record the calls of [stop_preview] and no other (the process
    is polled and, if it is running, asked to terminate, and killed if it does
    not exit within 3 seconds), leaves the session idle and ends the run; on
    any other file it only refuses. *)
Theorem at_most_one_preview (cwd : list string) (exe : string)
    (json_loads : string -> outcome value) (repr : value -> string)
    (str_of_error : error -> string) (w : world) :
  reachable cwd exe json_loads repr str_of_error w ->
  latest_spawn_on_record w /\
  forall os name p,
    preview_process (session w) = Some p ->
    no_spawn (events_of (start_preview cwd exe os name) w) /\
    (previewable cwd name (fs w) = true ->
     fst (start_preview cwd exe os name w) = Raise RerunException /\
     idle (session (snd (start_preview cwd exe os name w))) /\
     process_calls (events_of (start_preview cwd exe os name) w)
     = stopping_calls os p) /\
    (previewable cwd name (fs w) = false ->
     start_preview cwd exe os name w
     = (Return false, logged [FsIsFile (workspace_path cwd name); Ui UiError] w)).
Proof.
  intros Hreach. split.
  - induction Hreach as [f|w os op _ IH|w s _ IH Hsame].
    + intros h Hh. discriminate.
    + destruct op; simpl.
      * apply latest_spawn_quiet; [apply quiet_read_file | assumption].
      * apply latest_spawn_quiet; [apply quiet_save_file | assumption].
      * apply latest_spawn_quiet; [apply quiet_delete_file | assumption].
      * apply latest_spawn_quiet;
          [apply quiet_parse_and_execute_ai_commands | assumption].
      * by apply latest_spawn_start_preview.
      * apply latest_spawn_quiet; [apply quiet_stop_preview | assumption].
    + eapply (latest_spawn_kept w _ []); try eassumption.
      * simpl. by rewrite app_nil_r.
      * apply no_spawn_nil.
      * left. simpl. by destruct Hsame as [-> _].
  - intros os name p Hproc.
    destruct (previewable cwd name (fs w)) eqn:Hfile.
    + destruct (start_preview_busy cwd exe os name w p Hfile Hproc)
        as (evs & Hrun & Hspawn).
      pose proof (start_preview_busy_calls cwd exe os name w p Hfile Hproc) as Hcalls.
      split; [|split].
      * unfold events_of. rewrite Hrun. simpl. by rewrite drop_trace_app.
      * intros _. rewrite Hrun. simpl. repeat split. exact Hcalls.
      * discriminate.
    + pose proof (start_preview_refused cwd exe os name w Hfile) as Hrun.
      unfold events_of. rewrite Hrun. simpl. rewrite drop_trace_app.
      repeat split; try discriminate. solve_no_spawn.
Qed.

(** Once the preview of [a.py] has been started from a fresh session, its
    process is the one spawned last; starting a preview again stops it: the
    process is polled, asked to terminate and waited for, and nothing is
    spawned. *)
Lemma at_most_one_preview_witness :
  latest_spawn_on_record
    (perform Demo.cwd "python" Response.json_loads Response.repr
       Response.str_of_error Demo.cooperative (OpStart "a.py") Demo.fresh) /\
  process_calls
    (events_of (start_preview Demo.cwd "python" Demo.cooperative "a.py")
       (perform Demo.cwd "python" Response.json_loads Response.repr
          Response.str_of_error Demo.cooperative (OpStart "a.py") Demo.fresh))
  = [ProcPoll {| pid := 4243 |}; ProcTerminate {| pid := 4243 |};
     ProcWait {| pid := 4243 |} 3000].
Proof.
  split.
  - apply (proj1 (at_most_one_preview Demo.cwd "python" Response.json_loads
                    Response.repr Response.str_of_error _
                    (reachable_operation Demo.cwd "python" Response.json_loads
                       Response.repr Response.str_of_error Demo.fresh
                       Demo.cooperative (OpStart "a.py")
                       (reachable_start Demo.cwd "python" Response.json_loads
                          Response.repr Response.str_of_error Demo.files)))).
  - destruct (proj2 (at_most_one_preview Demo.cwd "python" Response.json_loads
                       Response.repr Response.str_of_error _
                       (reachable_operation Demo.cwd "python" Response.json_loads
                          Response.repr Response.str_of_error Demo.fresh
                          Demo.cooperative (OpStart "a.py")
                          (reachable_start Demo.cwd "python" Response.json_loads
                             Response.repr Response.str_of_error Demo.files)))
                Demo.cooperative "a.py" {| pid := 4243 |} eq_refl)
      as (_ & Hbusy & _).
    destruct (Hbusy eq_refl) as (_ & _ & Hcalls). exact Hcalls.
Defined.

(** * Further properties *)

(** ** The listing of the workspace *)

Lemma insert_sorted_perm (x : string) (names : list string) :
  Permutation (insert_sorted x names) (x :: names).
Proof.
  induction names as [|y names IH]; simpl; [reflexivity|].
  destruct (String.leb x y); [reflexivity|].
  rewrite IH. apply perm_swap.
Qed.

Lemma sorted_perm (names : list string) : Permutation (sorted names) names.
Proof.
  induction names as [|x names IH]; simpl; [reflexivity|].
  unfold sorted in *. simpl. rewrite insert_sorted_perm. by constructor.
Qed.

Lemma insert_sorted_hd (x y : string) (names : list string) :
  leb_rel y x -> HdRel leb_rel y names -> HdRel leb_rel y (insert_sorted x names).
Proof.
  intros Hyx Hhd. destruct names as [|z names]; simpl.
  - by constructor.
  - destruct (String.leb x z); constructor; [assumption|].
    by inversion Hhd.
Qed.

Lemma insert_sorted_sorted (x : string) (names : list string) :
  Sorted leb_rel names -> Sorted leb_rel (insert_sorted x names).
Proof.
  induction 1 as [|y names Hsorted IH Hhd]; simpl.
  - by repeat constructor.
  - destruct (String.leb x y) eqn:Hxy.
    + constructor; [by constructor|]. by constructor.
    + constructor; [assumption|].
      apply insert_sorted_hd; [|assumption].
      destruct (String.leb_total x y) as [H|H]; [congruence|exact H].
Qed.

Lemma sorted_sorted (names : list string) : Sorted leb_rel (sorted names).
Proof.
  induction names as [|x names IH]; [constructor|].
  apply insert_sorted_sorted, IH.
Qed.

Lemma logged_logged (evs evs' : list event) (w : world) :
  logged evs' (logged evs w) = logged (evs ++ evs') w.
Proof. unfold logged. simpl. by rewrite app_assoc. Qed.

Lemma logged_nil (w : world) : logged [] w = w.
Proof. unfold logged. rewrite app_nil_r. by destruct w. Qed.

(** The comprehension checks every child and changes nothing. *)
Lemma python_names_run (children : list (list string)) (w : world) :
  python_names children w
  = (Return (List.map name_of (List.filter (is_python_file (fs w)) children)),
     logged (List.map FsIsFile children) w).
Proof.
  revert w. induction children as [|child children IH]; intros w.
  - simpl. unfold ret. by rewrite logged_nil.
  - cbn [python_names]. unfold fs_is_file. unfold_M. simpl.
    rewrite (IH {| fs := fs w; session := session w;
                   trace := trace w ++ [FsIsFile child] |}).
    simpl. change (is_file (fs w) child && _)%bool with (is_python_file (fs w) child).
    destruct (is_python_file (fs w) child); simpl;
      unfold logged; simpl; by rewrite <- app_assoc.
Qed.

Lemma get_workspace_python_files_run (cwd : list string) (w : world) :
  let dir := (cwd ++ [WORKSPACE_DIR])%list in
  get_workspace_python_files cwd w
  = if is_dir (fs w) dir
    then (Return (sorted (List.map name_of
                    (List.filter (is_python_file (fs w)) (iterdir (fs w) dir)))),
          logged (List.map FsIsFile (iterdir (fs w) dir)) w)
    else (Return [], w).
Proof.
  intros dir. unfold get_workspace_python_files.
  change (PosixPath.resolve cwd WORKSPACE_DIR) with (PosixPath.walk cwd [WORKSPACE_DIR]).
  rewrite walk_descends by (intros [?|[]]; discriminate).
  fold dir. unfold bind at 1. unfold get_fs.
  destruct (is_dir (fs w) dir); cbn [negb]; [|reflexivity].
  unfold try_except, bind. rewrite python_names_run. reflexivity.
Qed.

Lemma is_child_spec (dir p : list string) :
  is_child dir p = true <-> p = (dir ++ [name_of p])%list.
Proof.
  unfold is_child, name_of. destruct p as [|c p].
  - split; [discriminate|]. intros H. by destruct dir.
  - rewrite bool_decide_eq_true. split.
    + intros <-. apply app_removelast_last. discriminate.
    + intros H. rewrite H at 1. apply removelast_last.
Qed.

Lemma name_of_child (dir : list string) (name : string) :
  name_of (dir ++ [name]) = name.
Proof. unfold name_of. apply last_last. Qed.

Lemma iterdir_spec (f : filesystem) (dir p : list string) :
  In p (iterdir f dir) <-> is_Some (f !! p) /\ p = (dir ++ [name_of p])%list.
Proof.
  unfold iterdir. rewrite filter_In, is_child_spec. split.
  - intros [Hin Hp]. split; [|assumption].
    apply in_map_iff in Hin as ([k n] & <- & Hin). simpl.
    apply list_elem_of_In, elem_of_map_to_list in Hin. eauto.
  - intros [[n Hn] Hp]. split; [|assumption].
    apply in_map_iff. exists (p, n). split; [reflexivity|].
    by apply list_elem_of_In, elem_of_map_to_list.
Qed.

Lemma iterdir_NoDup (f : filesystem) (dir : list string) :
  NoDup (List.map name_of (iterdir f dir)).
Proof.
  apply NoDup_fmap_2_strong.
  - intros p q Hp Hq Hname.
    apply list_elem_of_In, iterdir_spec in Hp as [_ Hp].
    apply list_elem_of_In, iterdir_spec in Hq as [_ Hq].
    rewrite Hp, Hq. by rewrite Hname.
  - unfold iterdir. apply NoDup_ListNoDup, List.NoDup_filter, NoDup_ListNoDup.
    apply NoDup_fst_map_to_list.
Qed.

Lemma is_file_child (f : filesystem) (dir : list string) (name : string) :
  is_file f (dir ++ [name])
  = match f !! (dir ++ [name])%list with
    | Some (File _) => is_dir f dir
    | _ => false
    end.
Proof. unfold is_file. by rewrite removelast_last. Qed.

(** Membership in the listing, before sorting. *)
Lemma listed_spec (f : filesystem) (dir : list string) (name : string) :
  In name (List.map name_of (List.filter (is_python_file f) (iterdir f dir)))
  <-> is_file f (dir ++ [name]) = true /\ suffix_of_name name = ".py".
Proof.
  rewrite in_map_iff. split.
  - intros (p & <- & Hin). apply filter_In in Hin as [Hin Hpy].
    apply iterdir_spec in Hin as [_ Hp]. rewrite <- Hp.
    unfold is_python_file in Hpy. apply andb_prop in Hpy as [? ?%String.eqb_eq].
    by split.
  - intros [Hfile Hsuffix]. exists (dir ++ [name])%list.
    rewrite name_of_child. split; [reflexivity|].
    apply filter_In. split.
    + apply iterdir_spec. rewrite name_of_child. split; [|reflexivity].
      unfold is_file in Hfile. destruct (f !! (dir ++ [name])%list); [eauto|discriminate].
    + unfold is_python_file. rewrite name_of_child, Hfile, Hsuffix. reflexivity.
Qed.

Lemma listed_NoDup (f : filesystem) (dir : list string) :
  List.NoDup (List.map name_of (List.filter (is_python_file f) (iterdir f dir))).
Proof.
  apply NoDup_ListNoDup. apply NoDup_fmap_2_strong.
  - intros p q Hp Hq Hname.
    apply list_elem_of_In, filter_In in Hp as [[_ Hp]%iterdir_spec _].
    apply list_elem_of_In, filter_In in Hq as [[_ Hq]%iterdir_spec _].
    rewrite Hp, Hq. by rewrite Hname.
  - apply NoDup_ListNoDup, List.NoDup_filter.
    unfold iterdir. apply List.NoDup_filter, NoDup_ListNoDup.
    apply NoDup_fst_map_to_list.
Qed.

(** X1: [get_workspace_python_files] returns, in sorted order and without
    repetition, exactly the names of the files directly in the workspace
    directory whose suffix is [.py]; it returns the empty list when the
    workspace is not a directory; and it changes neither the files nor the
    session. *)
Theorem workspace_listing (cwd : list string) (w : world) :
  exists names,
    fst (get_workspace_python_files cwd w) = Return names /\
    fs (snd (get_workspace_python_files cwd w)) = fs w /\
    session (snd (get_workspace_python_files cwd w)) = session w /\
    Sorted leb_rel names /\
    List.NoDup names /\
    (forall name,
       In name names <->
       is_file (fs w) (cwd ++ [WORKSPACE_DIR; name]) = true /\
       suffix_of_name name = ".py") /\
    (is_dir (fs w) (cwd ++ [WORKSPACE_DIR]) = false -> names = []).
Proof.
  rewrite get_workspace_python_files_run.
  assert (forall name,
            (cwd ++ [WORKSPACE_DIR; name])%list
            = ((cwd ++ [WORKSPACE_DIR]) ++ [name])%list) as Hpath.
  { intros name. by rewrite <- app_assoc. }
  destruct (is_dir (fs w) (cwd ++ [WORKSPACE_DIR])) eqn:Hdir.
  - eexists. split; [reflexivity|]. split; [reflexivity|]. split; [reflexivity|].
    split; [apply sorted_sorted|]. split.
    { eapply Permutation_NoDup; [symmetry; apply sorted_perm|]. apply listed_NoDup. }
    split; [|discriminate].
    intros name. rewrite Hpath, <- listed_spec. split; intros Hin.
    + eapply Permutation_in; [apply sorted_perm | exact Hin].
    + eapply Permutation_in; [symmetry; apply sorted_perm | exact Hin].
  - exists []. split; [reflexivity|]. split; [reflexivity|]. split; [reflexivity|].
    split; [constructor|]. split; [constructor|]. split; [|reflexivity].
    intros name. split; [intros []|].
    intros [Hfile _]. rewrite Hpath, is_file_child, Hdir in Hfile.
    by destruct (fs w !! _) as [[]|].
Qed.

(** After a fresh start, [a.py] is listed. *)
Lemma workspace_listing_witness :
  exists names,
    fst (get_workspace_python_files Demo.cwd Demo.fresh) = Return names /\
    In "a.py" names.
Proof.
  destruct (workspace_listing Demo.cwd Demo.fresh)
    as (names & Hrun & _ & _ & _ & _ & Hmem & _).
  exists names. split; [exact Hrun|].
  apply Hmem. vm_compute. by split.
Defined.

Lemma listing_spec (cwd : list string) (w : world) (name : string) :
  In name (listing cwd w) <->
  is_file (fs w) (cwd ++ [WORKSPACE_DIR; name]) = true /\ suffix_of_name name = ".py".
Proof.
  unfold listing. rewrite get_workspace_python_files_run.
  replace (cwd ++ [WORKSPACE_DIR; name])%list
    with ((cwd ++ [WORKSPACE_DIR]) ++ [name])%list by (by rewrite <- app_assoc).
  destruct (is_dir (fs w) (cwd ++ [WORKSPACE_DIR])) eqn:Hdir; simpl.
  - rewrite <- listed_spec. split; intros Hin.
    + eapply Permutation_in; [apply sorted_perm | exact Hin].
    + eapply Permutation_in; [symmetry; apply sorted_perm | exact Hin].
  - split; [intros []|]. intros [Hfile _]. rewrite is_file_child, Hdir in Hfile.
    by destruct (fs w !! _) as [[]|].
Qed.

Lemma workspace_path_single (cwd : list string) (name : string) :
  rejected name = false -> single_component name ->
  workspace_path cwd name = (cwd ++ [WORKSPACE_DIR; name])%list.
Proof.
  intros Hrej Hsingle. rewrite (workspace_path_accepted _ _ Hrej).
  by rewrite Hsingle.
Qed.

(** X2: a file saved under a simple name with the suffix [.py] appears in
    the next listing of the workspace. *)
Theorem saved_python_file_is_listed (cwd : list string) (name content : string)
    (w w' : world) :
  single_component name ->
  suffix_of_name name = ".py" ->
  save_file cwd (VStr name) (VStr content) w = (Return true, w') ->
  In name (listing cwd w').
Proof.
  intros Hsingle Hsuffix (Hrej & _ & Hp & Hdir & Hfs & _)%save_file_true.
  apply listing_spec. split; [|assumption].
  rewrite (workspace_path_single cwd name Hrej Hsingle) in *.
  unfold is_file. rewrite Hfs, lookup_insert_eq.
  rewrite is_dir_insert_file by (by apply removelast_shorter).
  exact Hdir.
Qed.

Lemma saved_python_file_is_listed_witness :
  In "b.py"
    (listing Demo.cwd
       (snd (save_file Demo.cwd (VStr "b.py") (VStr "x = 1") Demo.fresh))).
Proof.
  apply (saved_python_file_is_listed Demo.cwd "b.py" "x = 1" Demo.fresh).
  - reflexivity.
  - reflexivity.
  - vm_compute. reflexivity.
Defined.

Lemma single_component_nonempty (name : string) : single_component name -> name <> "".
Proof. intros H ->. discriminate. Qed.

(** X3: once [delete_file] has removed a file, whether it returns [True] or
    ends the run while stopping the preview, the file is no longer listed. *)
Theorem deleted_file_is_not_listed (cwd : list string) (os : os_behaviour)
    (name : string) (w : world) :
  single_component name ->
  rejected name = false ->
  fst (delete_file cwd os (VStr name) w) <> Return false ->
  ~ In name (listing cwd (snd (delete_file cwd os (VStr name) w))).
Proof.
  intros Hsingle Hrej Hdone Hin.
  pose proof (single_component_nonempty _ Hsingle) as Hname.
  apply listing_spec in Hin as [Hfile _].
  rewrite <- (workspace_path_single cwd name Hrej Hsingle) in Hfile.
  destruct (is_file (fs w) (workspace_path cwd name)) eqn:Hpresent.
  - destruct (same_file (preview_file (session w)) name) eqn:Hprev.
    + assert (preview_file (session w) = Some name) as Hprev'.
      { unfold same_file in Hprev. destruct (preview_file (session w)); [|discriminate].
        by apply String.eqb_eq in Hprev as ->. }
      destruct (delete_file_previewed cwd os name w Hrej Hname Hpresent Hprev')
        as [evs Hrun].
      rewrite Hrun in Hfile. simpl in Hfile.
      unfold is_file in Hfile. by rewrite lookup_delete_eq in Hfile.
    + rewrite (delete_file_not_previewed cwd os name w Hrej Hname Hpresent Hprev)
        in Hfile.
      simpl in Hfile. unfold is_file in Hfile. by rewrite lookup_delete_eq in Hfile.
  - destruct (delete_file_absent cwd os name w Hpresent) as [evs Hrun].
    rewrite Hrun in Hdone. by apply Hdone.
Qed.

Lemma deleted_file_is_not_listed_witness :
  ~ In "a.py"
      (listing Demo.cwd
         (snd (delete_file Demo.cwd Demo.cooperative (VStr "a.py") Demo.busy))).
Proof.
  apply (deleted_file_is_not_listed Demo.cwd Demo.cooperative "a.py" Demo.busy).
  - reflexivity.
  - reflexivity.
  - vm_compute. discriminate.
Defined.

Lemma suffix_of_joined (name : string) :
  rejected name = false -> single_component name ->
  PosixPath.suffix (PosixPath.joinpath WORKSPACE_DIR name) = suffix_of_name name.
Proof.
  intros (_ & Hslash & _)%rejected_false Hsingle.
  unfold PosixPath.suffix, PosixPath.name, PosixPath.joinpath, PosixPath.is_absolute.
  rewrite Hslash.
  change (PosixPath.parts (WORKSPACE_DIR +:+ "/" +:+ name))
    with (WORKSPACE_DIR :: PosixPath.parts name).
  by rewrite Hsingle.
Qed.

(** A file of the workspace under a name that the path checks accept:
    [read_file] reaches that file and no other location, changes nothing, and
    returns its text. *)
Lemma read_file_present (cwd : list string) (name : string) (w : world) :
  is_file (fs w) (cwd ++ [WORKSPACE_DIR; name]) = true ->
  single_component name ->
  rejected name = false ->
  exists data,
    fs w !! (cwd ++ [WORKSPACE_DIR; name])%list = Some (File data) /\
    read_file cwd (VStr name) w
    = (Return (Some (universal_newlines data)),
       logged [FsOpenRead (cwd ++ [WORKSPACE_DIR; name])%list] w).
Proof.
  intros Hfile Hsingle Hrej.
  pose proof (single_component_nonempty _ Hsingle) as Hname.
  pose proof (workspace_path_single cwd name Hrej Hsingle) as Hpath.
  unfold is_file in Hfile.
  destruct (fs w !! (cwd ++ [WORKSPACE_DIR; name])%list) as [[data|]|] eqn:Hp;
    try discriminate.
  exists data. split; [reflexivity|].
  unfold read_file. replace (truthy (VStr name)) with true by (by destruct name).
  cbn [negb]. rewrite bind_escapes_workspace, Hrej.
  unfold fs_read_text. unfold_M. simpl. rewrite Hpath, Hfile. cbn [negb].
  destruct (cwd ++ [WORKSPACE_DIR; name])%list eqn:Hq; [by destruct cwd|].
  by rewrite Hp.
Qed.

(** X4: a listed file whose name the path checks accept is not refused by
    [start_preview]; [read_file] on it returns and does not raise, reaches
    that file and no other location, and changes neither the files nor the
    session; and a text that it returns is the content of the file, its line
    ends normalised.  (That it does return a text is not part of the
    statement: a file that cannot be decoded is listed all the same.) *)
Theorem listed_file_is_usable (cwd : list string) (name : string) (w : world) :
  In name (listing cwd w) ->
  single_component name ->
  rejected name = false ->
  previewable cwd name (fs w) = true /\
  exists data r evs,
    fs w !! (cwd ++ [WORKSPACE_DIR; name])%list = Some (File data) /\
    read_file cwd (VStr name) w = (Return r, logged evs w) /\
    fs_accesses evs = [(cwd ++ [WORKSPACE_DIR; name])%list] /\
    (forall text, r = Some text -> text = universal_newlines data).
Proof.
  intros [Hfile Hsuffix]%listing_spec Hsingle Hrej.
  pose proof (workspace_path_single cwd name Hrej Hsingle) as Hpath.
  split.
  - unfold previewable. rewrite Hpath, Hfile, suffix_of_joined, Hsuffix by assumption.
    reflexivity.
  - destruct (read_file_present cwd name w Hfile Hsingle Hrej) as (data & Hdata & Hrun).
    eexists data, (Some (universal_newlines data)), _.
    split; [exact Hdata|]. split; [exact Hrun|]. split; [reflexivity|].
    by intros text [= <-].
Qed.

Lemma listed_file_is_usable_witness :
  previewable Demo.cwd "a.py" (fs Demo.fresh) = true /\
  exists data r evs,
    fs Demo.fresh !! (Demo.cwd ++ [WORKSPACE_DIR; "a.py"])%list = Some (File data) /\
    read_file Demo.cwd (VStr "a.py") Demo.fresh = (Return r, logged evs Demo.fresh) /\
    fs_accesses evs = [(Demo.cwd ++ [WORKSPACE_DIR; "a.py"])%list] /\
    (forall text, r = Some text -> text = universal_newlines data).
Proof.
  apply (listed_file_is_usable Demo.cwd "a.py" Demo.fresh).
  - apply listing_spec. vm_compute. by split.
  - reflexivity.
  - reflexivity.
Defined.

(** ** More on fence stripping *)

Lemma rstrip_cons_nonspace (c : ascii) (t : string) :
  PyStr.is_space c = false -> PyStr.rstrip (String c t) = String c (PyStr.rstrip t).
Proof. intros Hc. simpl. rewrite Hc. by destruct (PyStr.rstrip t). Qed.

Lemma rstrip_idempotent (s : string) : PyStr.rstrip (PyStr.rstrip s) = PyStr.rstrip s.
Proof.
  induction s as [|c s IH]; [reflexivity|].
  simpl. destruct (PyStr.rstrip s) as [|c' s'] eqn:Hs.
  - destruct (PyStr.is_space c) eqn:Hc; [reflexivity|].
    simpl. by rewrite Hc.
  - change (PyStr.rstrip (String c (String c' s')))
      with (match PyStr.rstrip (String c' s') with
            | EmptyString => if PyStr.is_space c then EmptyString else String c EmptyString
            | t' => String c t'
            end).
    by rewrite IH.
Qed.

Lemma lstrip_head (s : string) :
  PyStr.lstrip s = "" \/
  exists c t, PyStr.lstrip s = String c t /\ PyStr.is_space c = false.
Proof.
  induction s as [|c s IH]; simpl; [by left|].
  destruct (PyStr.is_space c) eqn:Hc; [assumption|].
  right. by exists c, s.
Qed.

Lemma lstrip_nonspace (c : ascii) (t : string) :
  PyStr.is_space c = false -> PyStr.lstrip (String c t) = String c t.
Proof. intros Hc. simpl. by rewrite Hc. Qed.

Lemma strip_idempotent (s : string) : PyStr.strip (PyStr.strip s) = PyStr.strip s.
Proof.
  unfold PyStr.strip.
  destruct (lstrip_head s) as [->|(c & t & -> & Hc)]; [reflexivity|].
  rewrite (rstrip_cons_nonspace c t Hc), (lstrip_nonspace c _ Hc).
  rewrite <- (rstrip_cons_nonspace c t Hc). apply rstrip_idempotent.
Qed.

(** X5: the text that [_clean_ai_response_text] returns has no whitespace
    left at either end: stripping it again changes nothing. *)
Theorem clean_ai_response_text_is_stripped (ai_response_text : string) :
  PyStr.strip (_clean_ai_response_text ai_response_text)
  = _clean_ai_response_text ai_response_text.
Proof.
  unfold _clean_ai_response_text.
  repeat case_run; apply strip_idempotent.
Qed.

Lemma append_cons (c : ascii) (s t : string) :
  String c s +:+ t = String c (s +:+ t).
Proof. reflexivity. Qed.

Lemma append_nil (t : string) : "" +:+ t = t.
Proof. reflexivity. Qed.

Lemma lstrip_all_space (pre s : string) :
  all_space pre = true -> PyStr.lstrip (pre +:+ s) = PyStr.lstrip s.
Proof.
  induction pre as [|c pre IH]; [reflexivity|].
  rewrite append_cons. simpl. intros [-> Hpre]%andb_prop. by apply IH.
Qed.

Lemma rstrip_all_space (post : string) :
  all_space post = true -> PyStr.rstrip post = "".
Proof.
  induction post as [|c post IH]; simpl; [reflexivity|].
  intros [-> Hpost]%andb_prop. by rewrite IH.
Qed.

Lemma rstrip_append_nonempty (s t : string) :
  PyStr.rstrip t <> "" -> PyStr.rstrip (s +:+ t) = s +:+ PyStr.rstrip t.
Proof.
  intros Ht. induction s as [|c s IH]; [reflexivity|].
  rewrite !append_cons. cbn [PyStr.rstrip]. rewrite IH.
  destruct (s +:+ PyStr.rstrip t) eqn:Hs; [|reflexivity].
  destruct s; [by rewrite append_nil in Hs | by rewrite append_cons in Hs].
Qed.

Lemma append_assoc (a b c : string) : (a +:+ b) +:+ c = a +:+ (b +:+ c).
Proof.
  induction a as [|x a IH]; [reflexivity|].
  rewrite !append_cons. f_equal. apply IH.
Qed.

Lemma length_append (s t : string) :
  String.length (s +:+ t) = (String.length s + String.length t)%nat.
Proof.
  induction s as [|c s IH]; [reflexivity|].
  rewrite append_cons. simpl. by rewrite IH.
Qed.

Lemma drop_last_append (body tail : string) :
  PyStr.drop_last (String.length tail) (body +:+ tail) = body.
Proof.
  unfold PyStr.drop_last.
  replace (String.length (body +:+ tail) - String.length tail)%nat
    with (String.length body).
  - induction body as [|c body IH]; [apply take_first_0|].
    rewrite append_cons. simpl. by rewrite IH.
  - rewrite length_append. lia.
Qed.

(** The end of a text whose last character is not whitespace stays. *)
Lemma rstrip_fenced (s : string) : PyStr.rstrip (s +:+ "```") = s +:+ "```".
Proof. by rewrite rstrip_append_nonempty. Qed.

(** X6: a response made of a fenced body, with whitespace around the whole
    at most, is cleaned to the body without its surrounding whitespace; for
    the plain fence the body must not begin with [json]. *)
Theorem clean_ai_response_text_fenced_body (pre body post : string) :
  all_space pre = true ->
  all_space post = true ->
  _clean_ai_response_text (pre +:+ "```json" +:+ body +:+ "```" +:+ post)
  = PyStr.strip body /\
  (PyStr.startswith "json" body = false ->
   _clean_ai_response_text (pre +:+ "```" +:+ body +:+ "```" +:+ post)
   = PyStr.strip body).
Proof.
  intros Hpre Hpost.
  assert (forall fence,
            PyStr.startswith "`" fence = true ->
            PyStr.strip (pre +:+ fence +:+ body +:+ "```" +:+ post)
            = fence +:+ body +:+ "```") as Hstrip.
  { intros fence Hfence. unfold PyStr.strip. rewrite lstrip_all_space by assumption.
    destruct fence as [|c fence]; [discriminate|].
    rewrite append_cons. rewrite lstrip_nonspace.
    - rewrite <- append_cons.
      rewrite <- !append_assoc.
      assert (PyStr.rstrip ("```" +:+ post) = "```") as Hend.
      { change ("```" +:+ post) with (String "`" (String "`" (String "`" post))).
        rewrite !rstrip_cons_nonspace by reflexivity.
        by rewrite rstrip_all_space. }
      rewrite (append_assoc _ "```" post).
      rewrite rstrip_append_nonempty; rewrite Hend; [reflexivity|discriminate].
    - cbn [PyStr.startswith] in Hfence.
      destruct (Ascii.eqb "`" c) eqn:Hc; [|discriminate Hfence].
      by apply Ascii.eqb_eq in Hc as <-. }
  split.
  - unfold _clean_ai_response_text. rewrite (Hstrip "```json" eq_refl).
    change (PyStr.startswith "```json" ("```json" +:+ body +:+ "```")) with true.
    cbv iota. f_equal.
    rewrite (slice_removes_both_ends 7 3) by lia.
    change (PyStr.drop_first 7 ("```json" +:+ body +:+ "```")) with (body +:+ "```").
    apply (drop_last_append body "```").
  - intros Hjson. unfold _clean_ai_response_text. rewrite (Hstrip "```" eq_refl).
    replace (PyStr.startswith "```json" ("```" +:+ body +:+ "```")) with false.
    + change (PyStr.startswith "```" ("```" +:+ body +:+ "```")) with true.
      cbv iota. f_equal.
      rewrite (slice_removes_both_ends 3 3) by lia.
      change (PyStr.drop_first 3 ("```" +:+ body +:+ "```")) with (body +:+ "```").
      apply (drop_last_append body "```").
    + change (PyStr.startswith "```json" ("```" +:+ body +:+ "```"))
        with (PyStr.startswith "json" (body +:+ "```")).
      symmetry. clear Hstrip. revert Hjson.
      destruct body as [|b0 [|b1 [|b2 [|b3 body]]]];
        cbv beta iota delta [String.append PyStr.startswith];
        repeat match goal with
               | |- context [Ascii.eqb ?a ?b] =>
                   first [ is_var b; destruct (Ascii.eqb a b)
                         | let v := eval vm_compute in (Ascii.eqb a b) in
                           change (Ascii.eqb a b) with v ]
               end; cbv iota; try reflexivity; try discriminate.
Qed.

Lemma clean_ai_response_text_fenced_body_witness :
  _clean_ai_response_text
    ("  " +:+ "```json" +:+ " [1, 2] " +:+ "```" +:+ " ") = "[1, 2]".
Proof.
  apply (proj1 (clean_ai_response_text_fenced_body "  " " [1, 2] " " "
                  eq_refl eq_refl)).
Defined.

(** ** More on the command interpreter *)

(** One turn of the loop adds one or two records to the list. *)
Lemma execute_command_extends (cwd : list string) (repr : value -> string)
    (os : os_behaviour) (c : value) (executed out : list value) (w w' : world) :
  execute_command cwd repr os c executed w = (Return out, w') ->
  exists added,
    out = (executed ++ added)%list /\ (1 <= length added <= 2)%nat.
Proof.
  unfold execute_command. unfold_M.
  repeat case_run; intros [= <- <-];
    first [ by exists [c]; subst
          | rewrite <- app_assoc; eexists; split; [reflexivity|simpl; lia]
          | eexists; split; [reflexivity|simpl; lia] ].
Qed.

Lemma execute_commands_extends (cwd : list string) (repr : value -> string)
    (os : os_behaviour) (commands : list value) (executed out : list value)
    (w w' : world) :
  execute_commands cwd repr os commands executed w = (Return out, w') ->
  exists added,
    out = (executed ++ added)%list /\
    (length commands <= length added <= 2 * length commands)%nat.
Proof.
  revert executed w. induction commands as [|c commands IH]; intros executed w.
  - intros [= <- <-]. exists []. by rewrite app_nil_r.
  - rewrite execute_commands_cons.
    destruct (execute_command cwd repr os c executed w) as [[executed1|x] w1] eqn:Hc;
      [|discriminate].
    intros Hrest.
    apply execute_command_extends in Hc as (added1 & -> & Hlen1).
    apply IH in Hrest as (added & -> & Hlen).
    exists (added1 ++ added)%list. rewrite app_assoc. split; [reflexivity|].
    rewrite length_app. simpl. lia.
Qed.

(** X7: when [parse_and_execute_ai_commands] returns on a response that
    decodes to a list of commands, either every command has left one or two
    records in the returned list, in order after one another, or processing
    was cut short by an error and the list is a single chat record. *)
Theorem every_command_is_answered (cwd : list string)
    (json_loads : string -> outcome value) (repr : value -> string)
    (str_of_error : error -> string) (os : os_behaviour)
    (ai_response_text : string) (commands out : list value) (w w' : world) :
  json_loads (_clean_ai_response_text ai_response_text) = Ok (VList commands) ->
  parse_and_execute_ai_commands cwd json_loads repr str_of_error os
    ai_response_text w = (Return out, w') ->
  (length commands <= length out <= 2 * length commands)%nat \/
  exists text, out = [chat text].
Proof.
  intros Hjson. unfold parse_and_execute_ai_commands, try_except. rewrite Hjson.
  destruct (execute_commands cwd repr os commands [] w) as [[executed|[|e]] w1] eqn:Hrun.
  - intros [= <- <-]. left.
    apply execute_commands_extends in Hrun as (added & -> & Hlen). exact Hlen.
  - discriminate.
  - simpl. unfold_M. destruct e; intros [= <- <-]; right; eauto.
Qed.

Lemma every_command_is_answered_witness :
  (length [Response.create_b; Response.delete_missing; Response.create_c]
   <= length [Response.create_b; Response.delete_missing;
              chat "Error: Failed deleting missing.py"; Response.create_c]
   <= 2 * length [Response.create_b; Response.delete_missing; Response.create_c])%nat \/
  exists text,
    [Response.create_b; Response.delete_missing;
     chat "Error: Failed deleting missing.py"; Response.create_c] = [chat text].
Proof.
  apply (every_command_is_answered Demo.cwd Response.json_loads Response.repr
           Response.str_of_error Demo.cooperative Response.missing_text
           [Response.create_b; Response.delete_missing; Response.create_c]
           _ Demo.fresh
           (snd (parse_and_execute_ai_commands Demo.cwd Response.json_loads
                   Response.repr Response.str_of_error Demo.cooperative
                   Response.missing_text Demo.fresh))).
  - vm_compute. reflexivity.
  - vm_compute. reflexivity.
Defined.

Lemma eq_str_spec (v : value) (s : string) : eq_str v s = true <-> v = VStr s.
Proof.
  destruct v; simpl; try (split; [discriminate|by intros [=]]).
  rewrite String.eqb_eq. split; [by intros ->|by intros [=]].
Qed.

Lemma execute_command_chat (cwd : list string) (repr : value -> string)
    (os : os_behaviour) (c : value) (executed : list value) (w : world) :
  is_chat c = true ->
  execute_command cwd repr os c executed w = (Return (executed ++ [c])%list, w).
Proof.
  destruct c as [| | | | | |entries]; try discriminate. simpl.
  intros ->%eq_str_spec. reflexivity.
Qed.

(** X8: a response made of [chat] commands only is returned as it is, and
    carrying it out changes nothing: no file, no session field, no event. *)
Theorem chat_only_response_changes_nothing (cwd : list string)
    (json_loads : string -> outcome value) (repr : value -> string)
    (str_of_error : error -> string) (os : os_behaviour)
    (ai_response_text : string) (commands : list value) (w : world) :
  json_loads (_clean_ai_response_text ai_response_text) = Ok (VList commands) ->
  forallb is_chat commands = true ->
  parse_and_execute_ai_commands cwd json_loads repr str_of_error os
    ai_response_text w = (Return commands, w).
Proof.
  intros Hjson Hchat. unfold parse_and_execute_ai_commands, try_except.
  rewrite Hjson.
  assert (forall executed,
            execute_commands cwd repr os commands executed w
            = (Return (executed ++ commands)%list, w)) as Hrun.
  { clear Hjson. induction commands as [|c commands IH]; intros executed.
    - simpl. unfold ret. by rewrite app_nil_r.
    - simpl in Hchat. apply andb_prop in Hchat as [Hc Hrest].
      rewrite execute_commands_cons, (execute_command_chat _ _ _ _ _ _ Hc).
      rewrite (IH Hrest). by rewrite <- app_assoc. }
  by rewrite Hrun.
Qed.

Lemma chat_only_response_changes_nothing_witness :
  parse_and_execute_ai_commands Demo.cwd
    (fun _ => Ok (VList [chat "hello"])) Response.repr Response.str_of_error
    Demo.cooperative "[...]" Demo.busy
  = (Return [chat "hello"], Demo.busy).
Proof.
  apply (chat_only_response_changes_nothing Demo.cwd
           (fun _ => Ok (VList [chat "hello"])) Response.repr
           Response.str_of_error Demo.cooperative "[...]" [chat "hello"] Demo.busy).
  - reflexivity.
  - reflexivity.
Defined.

(** X9: when a [create_update] command is saved, the file holds the new
    content, the command is recorded without an error record, and the three
    editor fields take the new content exactly when the file is the one
    selected in the editor; otherwise the session is untouched. *)
Theorem ai_save_reloads_editor (cwd : list string) (repr : value -> string)
    (os : os_behaviour) (c : value) (name content : string)
    (executed : list value) (w w1 : world) :
  is_create_update c (VStr name) (VStr content) ->
  save_file cwd (VStr name) (VStr content) w = (Return true, w1) ->
  exists w2,
    execute_command cwd repr os c executed w = (Return (executed ++ [c])%list, w2) /\
    fs w2 !! workspace_path cwd name = Some (File content) /\
    (selected_file (session w) = Some name ->
     selected_file (session w2) = Some name /\
     file_content_on_load (session w2) = VStr content /\
     last_saved_content (session w2) = VStr content /\
     editor_unsaved_content (session w2) = VStr content) /\
    (selected_file (session w) <> Some name -> session w2 = session w).
Proof.
  intros (entries & -> & Haction & Hname & Hcontent & Htruthy & Hnone) Hsave.
  pose proof (save_file_true _ _ _ _ _ Hsave) as (_ & _ & _ & _ & Hfs & Hsession).
  unfold execute_command. rewrite Haction, Hname, Hcontent, Htruthy.
  cbn [is_None negb andb]. unfold bind at 1. rewrite Hsave.
  unfold_M. simpl.
  destruct (same_file (selected_file (session w1)) name) eqn:Hsel;
    rewrite Hsession in Hsel.
  - eexists. split; [reflexivity|]. simpl.
    split; [by rewrite Hfs, lookup_insert_eq|].
    assert (selected_file (session w) = Some name) as Hsame.
    { unfold same_file in Hsel. destruct (selected_file (session w)); [|discriminate].
      by apply String.eqb_eq in Hsel as ->. }
    split.
    + intros _. by rewrite Hsession.
    + intros Hother. by destruct Hother.
  - eexists. split; [reflexivity|]. simpl.
    split; [by rewrite Hfs, lookup_insert_eq|]. split.
    + intros Hsame. rewrite Hsame in Hsel. simpl in Hsel.
      by rewrite String.eqb_refl in Hsel.
    + intros _. exact Hsession.
Qed.

Lemma ai_save_reloads_editor_witness :
  exists w2,
    execute_command Demo.cwd Response.repr Demo.cooperative Response.create_b nil
      Demo.fresh = (Return (nil ++ [Response.create_b])%list, w2) /\
    fs w2 !! workspace_path Demo.cwd "b.py" = Some (File "x = 1").
Proof.
  destruct (ai_save_reloads_editor Demo.cwd Response.repr Demo.cooperative
              Response.create_b "b.py" "x = 1" nil Demo.fresh
              (snd (save_file Demo.cwd (VStr "b.py") (VStr "x = 1") Demo.fresh)))
    as (w2 & Hrun & Hfs & _).
  - eexists. repeat split; try reflexivity. discriminate.
  - reflexivity.
  - exists w2. split; [exact Hrun | exact Hfs].
Defined.

(** ** The session dictionary *)

Lemma set_defaults_union (items : list (string * value))
    (session : gmap string value) :
  foldl set_default session items = session ∪ list_to_map items.
Proof.
  revert session. induction items as [|[key default_value] items IH]; intros session.
  - simpl. by rewrite (right_id_L ∅ (∪)).
  - simpl. rewrite IH. destruct (session !! key) as [v|] eqn:Hkey.
    + apply map_eq. intros k. rewrite !lookup_union.
      destruct (decide (k = key)) as [->|Hk].
      * rewrite Hkey, lookup_insert_eq. by destruct (list_to_map items !! key).
      * by rewrite lookup_insert_ne.
    + by rewrite <- insert_union_l, insert_union_r.
Qed.

Lemma state_defaults_items_NoDup : NoDup state_defaults_items.*1.
Proof. apply (bool_decide_unpack _). by vm_compute. Qed.

(** X10: [initialize_session_state] never overwrites: a key that is in the
    session keeps its value, a key that is missing gets the value that
    [state_defaults] gives it, and no other key appears. *)
Theorem initialize_session_state_fills_gaps (session : gmap string value)
    (key : string) :
  (forall v, session !! key = Some v ->
             initialize_session_state session !! key = Some v) /\
  (forall default_value,
     session !! key = None -> (key, default_value) ∈ state_defaults_items ->
     initialize_session_state session !! key = Some default_value) /\
  (session !! key = None -> key ∉ state_defaults_items.*1 ->
   initialize_session_state session !! key = None).
Proof.
  unfold initialize_session_state. rewrite set_defaults_union, lookup_union.
  split; [|split].
  - intros v ->. by destruct (list_to_map state_defaults_items !! key).
  - intros default_value -> Hin. rewrite (left_id_L None union).
    apply elem_of_list_to_map; [apply state_defaults_items_NoDup|done].
  - intros -> Hnotin. rewrite (left_id_L None union).
    by apply not_elem_of_list_to_map.
Qed.

Lemma initialize_session_state_fills_gaps_witness :
  initialize_session_state {[ "selected_file" := VStr "a.py" ]} !! "selected_file"
  = Some (VStr "a.py") /\
  initialize_session_state {[ "selected_file" := VStr "a.py" ]} !! "messages"
  = Some (VList []) /\
  initialize_session_state {[ "selected_file" := VStr "a.py" ]} !! "theme" = None.
Proof.
  split; [|split].
  - apply (proj1 (initialize_session_state_fills_gaps
             {[ "selected_file" := VStr "a.py" ]} "selected_file")).
    reflexivity.
  - apply (proj1 (proj2 (initialize_session_state_fills_gaps
             {[ "selected_file" := VStr "a.py" ]} "messages"))).
    + reflexivity.
    + apply list_elem_of_here.
  - apply (proj2 (proj2 (initialize_session_state_fills_gaps
             {[ "selected_file" := VStr "a.py" ]} "theme"))).
    + reflexivity.
    + apply (bool_decide_unpack _). by vm_compute.
Defined.

(** X11: after [initialize_session_state] each of the nine fields is there,
    so that the attribute reads of the script cannot fail, and running it
    again, as every rerun of the script does, changes nothing. *)
Theorem initialize_session_state_idempotent (session : gmap string value) :
  Forall (fun key => is_Some (initialize_session_state session !! key))
    state_defaults_items.*1 /\
  initialize_session_state (initialize_session_state session)
  = initialize_session_state session.
Proof.
  split.
  - apply Forall_forall. intros key [[key' default_value] [-> Hin]]%list_elem_of_fmap.
    simpl. unfold initialize_session_state.
    rewrite set_defaults_union, lookup_union.
    destruct (session !! key') as [v|] eqn:Hkey.
    + exists v. by destruct (list_to_map state_defaults_items !! key').
    + exists default_value. rewrite (left_id_L None union).
      apply elem_of_list_to_map; [apply state_defaults_items_NoDup|done].
  - unfold initialize_session_state. rewrite !set_defaults_union.
    by rewrite <- (assoc_L (∪)), (idemp_L (∪)).
Qed.

(** ** The history sent to the model *)

Lemma add_messages_shape (json_dumps : value -> outcome string)
    (repr : value -> string) (chat_history gemini_history result : list value) :
  add_messages json_dumps repr chat_history gemini_history = Ok result ->
  exists turns,
    result = (gemini_history ++ turns)%list /\ Forall is_turn turns /\
    (length turns <= length chat_history)%nat.
Proof.
  revert gemini_history. induction chat_history as [|msg rest IH]; intros gemini_history.
  - intros [= <-]. exists []. by rewrite app_nil_r.
  - simpl. destruct (subscript "role" msg) as [role|]; [|discriminate].
    destruct (subscript "content" msg) as [content|]; [|discriminate].
    destruct (String.eqb_spec (content_text json_dumps repr role content) "")
      as [Hempty|Htext]; cbn [negb].
    + intros (turns & -> & Hturns & Hlen)%IH. exists turns. repeat split; [done|lia].
    + intros (turns & -> & Hturns & Hlen)%IH.
      eexists (_ :: turns). rewrite <- app_assoc. split; [reflexivity|]. split.
      * constructor; [|done]. eexists _, _. split; [reflexivity|]. split; [|done].
        destruct (eq_str role "assistant"); auto.
      * simpl. lia.
Qed.

(** X12: the history that [_prepare_gemini_history] returns opens with the
    system prompt as a [user] message and the acknowledgement as a [model]
    message; what follows are at most as many messages as the chat has, each
    with the role [user] or [model] and a text that is not empty. *)
Theorem prepared_history_shape (json_dumps : value -> outcome string)
    (repr : value -> string) (chat_history : list value) (system_prompt : string)
    (gemini_history : list value) :
  _prepare_gemini_history json_dumps repr chat_history system_prompt
  = Ok gemini_history ->
  exists understood turns,
    json_dumps (VList [chat "Understood. I will respond only with JSON commands."])
    = Ok understood /\
    gemini_history = gemini_message "user" system_prompt
                     :: gemini_message "model" understood :: turns /\
    Forall is_turn turns /\
    (length turns <= length chat_history)%nat.
Proof.
  unfold _prepare_gemini_history.
  destruct (json_dumps _) as [understood|]; [|discriminate].
  intros (turns & -> & Hturns & Hlen)%add_messages_shape.
  by exists understood, turns.
Qed.

Lemma prepared_history_shape_witness :
  exists understood turns,
    Ok "[]" = Ok understood /\
    [gemini_message "user" "prompt"; gemini_message "model" "[]";
     gemini_message "user" "hello"; gemini_message "model" "[]"]
    = gemini_message "user" "prompt" :: gemini_message "model" understood :: turns /\
    Forall is_turn turns /\
    (length turns
     <= length [VDict [("role", VStr "user"); ("content", VStr "hello")];
                VDict [("role", VStr "user"); ("content", VStr "")];
                VDict [("role", VStr "assistant"); ("content", VList [])]])%nat.
Proof.
  apply (prepared_history_shape (fun _ => Ok "[]") (fun _ => "?")
           [VDict [("role", VStr "user"); ("content", VStr "hello")];
            VDict [("role", VStr "user"); ("content", VStr "")];
            VDict [("role", VStr "assistant"); ("content", VList [])]]
           "prompt").
  reflexivity.
Defined.

(** X13: [_prepare_gemini_history] returns a history for every chat whose
    messages are dicts with a role and a content, once the acknowledgement is
    dumped, whatever [json.dumps] does on the contents; and the first message
    that is not of this kind makes it raise what the subscript raises, a
    [KeyError] for a dict with no role. *)
Theorem prepared_history_errors (json_dumps : value -> outcome string)
    (repr : value -> string) (system_prompt understood : string)
    (messages : list value) :
  json_dumps (VList [chat "Understood. I will respond only with JSON commands."])
  = Ok understood ->
  Forall is_message messages ->
  (exists gemini_history,
     _prepare_gemini_history json_dumps repr messages system_prompt
     = Ok gemini_history) /\
  (forall entries rest,
     dict_lookup "role" entries = None ->
     _prepare_gemini_history json_dumps repr
       (messages ++ VDict entries :: rest)%list system_prompt
     = Err (OtherError "KeyError")).
Proof.
  intros Hunderstood Hmessages. unfold _prepare_gemini_history. rewrite Hunderstood.
  generalize [gemini_message "user" system_prompt; gemini_message "model" understood].
  induction Hmessages as [|msg messages (role & content & Hrole & Hcontent) _ IH];
    intros gemini_history.
  - split; [by eexists|]. intros entries rest Hnone. simpl. by rewrite Hnone.
  - simpl. rewrite Hrole, Hcontent. apply IH.
Qed.

Lemma prepared_history_errors_witness :
  (exists gemini_history,
     _prepare_gemini_history (fun v => if truthy v then Ok "[]" else Err TypeError)
       (fun _ => "?")
       [VDict [("role", VStr "assistant"); ("content", VList [])]] "prompt"
     = Ok gemini_history) /\
  (forall entries rest,
     dict_lookup "role" entries = None ->
     _prepare_gemini_history (fun v => if truthy v then Ok "[]" else Err TypeError)
       (fun _ => "?")
       ([VDict [("role", VStr "assistant"); ("content", VList [])]]
          ++ VDict entries :: rest)%list "prompt"
     = Err (OtherError "KeyError")).
Proof.
  apply (prepared_history_errors (fun v => if truthy v then Ok "[]" else Err TypeError)
           (fun _ => "?") "prompt" "[]"
           [VDict [("role", VStr "assistant"); ("content", VList [])]]).
  - reflexivity.
  - constructor; [|constructor]. eexists _, _. split; reflexivity.
Defined.

(** ** The Workspace tab *)

Lemma get_workspace_python_files_logged (cwd : list string) (w : world) :
  exists evs,
    get_workspace_python_files cwd w = (Return (listing cwd w), logged evs w).
Proof.
  unfold listing. rewrite get_workspace_python_files_run.
  destruct (is_dir (fs w) (cwd ++ [WORKSPACE_DIR])).
  - by eexists.
  - exists []. simpl. unfold logged. rewrite app_nil_r. by destruct w.
Qed.

(** X14: choosing a listed file that is not the selected one selects it,
    fills the three editor fields with one and the same text and ends the run
    by a rerun, without touching the files, the chat or the preview.  The
    text is what [read_file] returns for the file, and the error text when
    [read_file] returns [None].  It returns [None] for a name that has [..]
    in it or starts with a backslash: such a file is listed, but the path
    check refuses it.  A text that it returns is the content of the file, its
    line ends normalised. *)
Theorem selecting_a_file_loads_it (cwd : list string) (name : string) (w : world) :
  In name (listing cwd w) ->
  single_component name ->
  selected_file (session w) <> Some name ->
  exists w' r,
    file_selector cwd name w = (Raise RerunException, w') /\
    fs w' = fs w /\
    selected_file (session w') = Some name /\
    messages (session w') = messages (session w) /\
    same_preview (session w) (session w') /\
    fst (read_file cwd (VStr name) w) = Return r /\
    editor_clean (match r with
                  | Some text => text
                  | None => could_not_read name
                  end) (session w') /\
    (rejected name = true -> r = None) /\
    (forall text,
       r = Some text ->
       exists data,
         fs w !! (cwd ++ [WORKSPACE_DIR; name])%list = Some (File data) /\
         text = universal_newlines data).
Proof.
  intros [Hfile Hsuffix]%listing_spec Hsingle Hother.
  pose proof (single_component_nonempty _ Hsingle) as Hname.
  unfold file_selector. unfold bind at 1.
  destruct (get_workspace_python_files_logged cwd w) as [evs ->].
  unfold bind at 1. unfold get_session at 1. cbn [logged session].
  destruct (String.eqb_spec name SELECT_PLACEHOLDER) as [->|_]; [discriminate|].
  rewrite bool_decide_eq_false_2 by congruence.
  replace (truthy (VStr name)) with true by (by destruct name).
  unfold bind at 1. unfold set_session at 1. cbn [logged fs session trace].
  destruct (rejected name) eqn:Hrej.
  - unfold bind at 1. unfold bind at 1. rewrite !read_file_rejected by done.
    unfold_M. simpl. eexists _, None. split; [reflexivity|]. simpl.
    repeat split; try done.
  - unfold bind at 1. unfold bind at 1.
    destruct (read_file_present cwd name w Hfile Hsingle Hrej) as (data & Hdata & Hread).
    edestruct (read_file_present cwd name) as (data' & Hdata' & ->);
      [exact Hfile|exact Hsingle|exact Hrej|].
    cbn [fs] in Hdata'. rewrite Hdata in Hdata'. injection Hdata' as <-.
    rewrite Hread.
    unfold_M. simpl. eexists _, (Some (universal_newlines data)).
    split; [reflexivity|]. simpl.
    repeat split; try done. intros text [= <-]. by exists data.
Qed.

Lemma selecting_a_file_loads_it_witness :
  (exists w',
     file_selector Demo.cwd "a.py" Demo.fresh = (Raise RerunException, w') /\
     selected_file (session w') = Some "a.py" /\
     editor_clean "print(1)" (session w')) /\
  (exists w',
     file_selector Demo.cwd "a..b.py"
       {| fs := <[(Demo.workspace ++ ["a..b.py"])%list := File "x = 1"]> Demo.files;
          session := state_defaults; trace := [] |}
     = (Raise RerunException, w') /\
     selected_file (session w') = Some "a..b.py" /\
     editor_clean "# ERROR: Could not read file 'a..b.py'" (session w')).
Proof.
  split.
  - destruct (selecting_a_file_loads_it Demo.cwd "a.py" Demo.fresh)
      as (w' & r & Hrun & _ & Hselected & _ & _ & Hread & Hclean & _).
    + apply listing_spec. vm_compute. by split.
    + reflexivity.
    + discriminate.
    + exists w'. split; [exact Hrun|]. split; [exact Hselected|].
      vm_compute in Hread. injection Hread as <-. exact Hclean.
  - destruct (selecting_a_file_loads_it Demo.cwd "a..b.py"
                {| fs := <[(Demo.workspace ++ ["a..b.py"])%list := File "x = 1"]>
                           Demo.files;
                   session := state_defaults; trace := [] |})
      as (w' & r & Hrun & _ & Hselected & _ & _ & _ & Hclean & Hrejected & _).
    + apply listing_spec. vm_compute. by split.
    + reflexivity.
    + discriminate.
    + exists w'. split; [exact Hrun|]. split; [exact Hselected|].
      rewrite (Hrejected eq_refl) in Hclean. exact Hclean.
Defined.

Lemma save_file_text (cwd : list string) (name text : string) (w : world) :
  name <> "" ->
  (exists w', save_file cwd (VStr name) (VStr text) w = (Return true, w')) \/
  (exists evs,
     save_file cwd (VStr name) (VStr text) w
     = (Return false, logged (evs ++ [Ui UiError]) w)).
Proof.
  intros Hname. unfold save_file.
  replace (truthy (VStr name)) with true by (by destruct name). cbn [negb].
  rewrite bind_escapes_workspace.
  destruct (rejected name); [right; by exists []|].
  unfold fs_open_write, fs_write. unfold_M.
  repeat (simpl; try case_run); try (left; by eexists).
  all: right; eexists [_]; unfold logged; simpl; by rewrite <- app_assoc.
Qed.

(** X15: with a file selected and the text of the editor on record, the
    button that saves either writes the text to the file of the selection,
    leaves the editor with nothing unsaved and ends the run by a rerun, or
    reports an error and returns with the session as it was and with every
    file but the one of the selection as it was. *)
Theorem editor_save_button (cwd : list string) (os : os_behaviour)
    (name text : string) (confirmed : bool) (w : world) :
  selected_file (session w) = Some name ->
  name <> "" ->
  editor_unsaved_content (session w) = VStr text ->
  (exists w',
     editor cwd os text (Some SaveChanges) confirmed w = (Raise RerunException, w') /\
     fs w' = <[workspace_path cwd name := File text]> (fs w) /\
     selected_file (session w') = Some name /\
     editor_clean text (session w') /\
     In (Sleep 500) (trace w')) \/
  (exists w' evs,
     editor cwd os text (Some SaveChanges) confirmed w = (Return tt, w') /\
     session w' = session w /\
     (forall p, p <> workspace_path cwd name -> fs w' !! p = fs w !! p) /\
     trace w' = (trace w ++ evs)%list /\
     In (Ui UiError) evs).
Proof.
  intros Hselected Hname Hunsaved.
  remember (editor cwd os text (Some SaveChanges) confirmed w) as run eqn:Hrun.
  unfold editor in Hrun.
  unfold bind at 1 in Hrun. unfold get_session at 1 in Hrun. rewrite Hselected in Hrun.
  replace (truthy (VStr name)) with true in Hrun by (by destruct name).
  rewrite Hunsaved in Hrun. cbn [eq_str] in Hrun.
  rewrite String.eqb_refl in Hrun. cbn [negb] in Hrun.
  unfold bind at 1 in Hrun. unfold bind at 1 in Hrun. unfold ret at 1 in Hrun.
  unfold bind at 1 in Hrun.
  destruct (save_file_text cwd name text w Hname) as [[w1 Hsave]|[evs Hsave]];
    rewrite Hsave in Hrun.
  - left. pose proof (save_file_true _ _ _ _ _ Hsave) as (_ & _ & _ & _ & Hfs & Hsession).
    unfold_M. simpl in Hrun. subst run. eexists. split; [reflexivity|]. simpl.
    rewrite ?Hsession, ?Hselected, ?Hunsaved.
    repeat split; try done. rewrite !in_app_iff. simpl. auto 10.
  - right. unfold_M. simpl in Hrun.
    destruct (eq_str (last_saved_content (session w)) text); simpl in Hrun; subst run.
    + eexists _, (evs ++ [Ui UiError; Ui UiError])%list.
      split; [reflexivity|]. simpl. repeat split; try done.
      * by rewrite <- !app_assoc.
      * rewrite !in_app_iff. simpl. auto 10.
    + eexists _, (evs ++ [Ui UiError; Ui UiError; Ui UiWarning])%list.
      split; [unfold emit; reflexivity|]. simpl. repeat split; try done.
      * by rewrite <- !app_assoc.
      * rewrite !in_app_iff. simpl. auto 10.
Qed.

(** With [a.py] selected and a new text in the editor, the button saves. *)
Lemma editor_save_button_witness :
  exists w',
    editor Demo.cwd Demo.cooperative "print(2)" (Some SaveChanges) false
      {| fs := Demo.files;
         session := with_editor_unsaved_content (VStr "print(2)") Demo.previewing;
         trace := [] |}
    = (Raise RerunException, w') /\
    fs w' = <[workspace_path Demo.cwd "a.py" := File "print(2)"]> Demo.files /\
    selected_file (session w') = Some "a.py" /\
    editor_clean "print(2)" (session w') /\
    In (Sleep 500) (trace w').
Proof.
  destruct (editor_save_button Demo.cwd Demo.cooperative "a.py" "print(2)" false
              {| fs := Demo.files;
                 session := with_editor_unsaved_content (VStr "print(2)")
                              Demo.previewing;
                 trace := [] |})
    as [Hsaved|(w' & evs & Hrun & _)].
  - reflexivity.
  - discriminate.
  - reflexivity.
  - exact Hsaved.
  - vm_compute in Hrun. discriminate Hrun.
Defined.

(** X16: a text of the editor that is not yet on record is recorded and the
    run ends there by a rerun: whichever button was clicked in that run,
    nothing is saved and nothing is deleted. *)
Theorem editor_records_text_first (cwd : list string) (os : os_behaviour)
    (name text : string) (clicked_editor_button : option editor_button)
    (confirmed : bool) (w : world) :
  selected_file (session w) = Some name ->
  name <> "" ->
  editor_unsaved_content (session w) <> VStr text ->
  editor cwd os text clicked_editor_button confirmed w
  = (Raise RerunException,
     {| fs := fs w;
        session := with_editor_unsaved_content (VStr text) (session w);
        trace := trace w |}).
Proof.
  intros Hselected Hname Hunsaved. unfold editor.
  unfold bind at 1. unfold get_session at 1. rewrite Hselected.
  replace (truthy (VStr name)) with true by (by destruct name).
  replace (eq_str (editor_unsaved_content (session w)) text) with false.
  - reflexivity.
  - symmetry. apply not_true_iff_false. by rewrite eq_str_spec.
Qed.

Lemma editor_records_text_first_witness :
  editor Demo.cwd Demo.cooperative "print(2)" (Some DeleteFile) true Demo.busy
  = (Raise RerunException,
     {| fs := fs Demo.busy;
        session := with_editor_unsaved_content (VStr "print(2)") (session Demo.busy);
        trace := trace Demo.busy |}).
Proof.
  apply (editor_records_text_first Demo.cwd Demo.cooperative "a.py" "print(2)"
           (Some DeleteFile) true Demo.busy).
  - reflexivity.
  - discriminate.
  - discriminate.
Defined.

(** ** The preview tab *)

Lemma stop_preview_clears (os : os_behaviour) (w : world) :
  exists evs,
    stop_preview os w
    = (Raise RerunException,
       {| fs := fs w; session := clear_preview (session w); trace := trace w ++ evs |}).
Proof. eexists. apply stop_preview_run. Qed.

Lemma bind_stop_preview {B} (os : os_behaviour) (k : unit -> M B) (w : world) :
  exists evs,
    bind (stop_preview os) k w
    = (Raise RerunException,
       {| fs := fs w; session := clear_preview (session w); trace := trace w ++ evs |}).
Proof.
  destruct (stop_preview_clears os w) as [evs Hstop]. exists evs.
  unfold bind. by rewrite Hstop.
Qed.

(** X17: when the preview tab is drawn while a process is on record for the
    selected file and the poll finds that it has exited, the run ends by a
    rerun with the four preview fields cleared, whatever was clicked and
    whatever reading the error output gives; when the poll finds it running
    and no stop button was clicked, the tab returns and the session is as it
    was. *)
Theorem preview_tab_clears_dead_preview (cwd : list string) (exe : string)
    (os : os_behaviour) (display : display_behaviour) (clicks : preview_clicks)
    (p : popen) (w : world) :
  preview_process (session w) = Some p ->
  preview_file (session w) = selected_file (session w) ->
  (forall code,
     poll_on_display display = Ok (Some code) ->
     exists evs,
       preview_tab cwd exe os display clicks w
       = (Raise RerunException,
          {| fs := fs w; session := clear_preview (session w);
             trace := trace w ++ evs |})) /\
  (poll_on_display display = Ok None ->
   stop_clicked clicks = false -> stop_other_clicked clicks = false ->
   exists evs,
     preview_tab cwd exe os display clicks w = (Return tt, logged evs w) /\
     process_calls evs = [ProcPoll p]).
Proof.
  intros Hprocess Hfile. split.
  - intros code Hpoll. unfold preview_tab, preview_controls, preview_display.
    unfold_M. simpl. rewrite Hprocess, Hfile, Hpoll. simpl.
    rewrite bool_decide_eq_true_2 by done. unfold button. cbn [negb].
    rewrite !andb_false_r, !andb_true_r.
    destruct (selected_file (session w)) as [selected|] eqn:Hselected; simpl;
      rewrite ?bool_decide_eq_true_2 by done; simpl;
      repeat (try rewrite Hprocess; try rewrite Hpoll; simpl;
              rewrite ?stop_preview_run; simpl; try case_run);
      try congruence;
      eexists; simpl; rewrite <- ?app_assoc; reflexivity.
  - intros Hpoll Hstop Hother. unfold preview_tab, preview_controls, preview_display.
    unfold_M. simpl. rewrite Hprocess, Hfile, Hpoll, Hstop, Hother. simpl.
    rewrite bool_decide_eq_true_2 by done. unfold button. cbn [negb andb].
    rewrite !andb_false_r.
    destruct (selected_file (session w)) as [selected|] eqn:Hselected; simpl;
      rewrite ?bool_decide_eq_true_2 by done; simpl;
      repeat (try rewrite Hprocess; try rewrite Hpoll; simpl; try case_run);
      try congruence; simplify_eq;
      eexists; (split; [unfold logged; simpl; rewrite <- ?app_assoc; reflexivity|]);
      reflexivity.
Qed.

Lemma preview_tab_clears_dead_preview_witness :
  exists evs,
    preview_tab Demo.cwd "python" Demo.cooperative
      {| poll_on_display := Ok (Some 1); read_stderr_on_display := Err (OtherError "ValueError") |}
      {| run_clicked := true; stop_clicked := false; stop_other_clicked := false |}
      Demo.busy
    = (Raise RerunException,
       {| fs := fs Demo.busy; session := clear_preview (session Demo.busy);
          trace := trace Demo.busy ++ evs |}).
Proof.
  apply (proj1 (preview_tab_clears_dead_preview Demo.cwd "python" Demo.cooperative
                  {| poll_on_display := Ok (Some 1);
                     read_stderr_on_display := Err (OtherError "ValueError") |}
                  {| run_clicked := true; stop_clicked := false;
                     stop_other_clicked := false |}
                  Demo.preview Demo.busy eq_refl eq_refl) 1).
  reflexivity.
Defined.

(** X18: while a preview runs for another file than the selected one, the
    tab neither starts nor stops anything, whatever is clicked: the button
    that runs is disabled by the running preview, the button that stops by
    the other file, and the window only says which file is previewed. *)
Theorem preview_tab_other_file (cwd : list string) (exe : string)
    (os : os_behaviour) (display : display_behaviour) (clicks : preview_clicks)
    (p : popen) (selected : string) (w : world) :
  preview_process (session w) = Some p ->
  selected_file (session w) = Some selected ->
  selected <> "" ->
  preview_file (session w) <> Some selected ->
  exists evs,
    preview_tab cwd exe os display clicks w = (Return tt, logged evs w) /\
    process_calls evs = [] /\ fs_accesses evs = [].
Proof.
  intros Hprocess Hselected Hname Hfile.
  unfold preview_tab, preview_controls, preview_display.
  unfold_M. simpl. rewrite Hprocess, Hselected. simpl.
  replace (negb (selected =? "")%string) with true
    by (symmetry; apply negb_true_iff; by apply String.eqb_neq).
  rewrite (bool_decide_eq_false_2 (preview_file (session w) = Some selected)) by done.
  unfold button. cbn [negb]. rewrite !andb_false_r.
  destruct (endswith ".py" selected); unfold emit; simpl;
    (eexists; split; [unfold logged; simpl; rewrite <- ?app_assoc; reflexivity|]);
    by split.
Qed.

Lemma preview_tab_other_file_witness :
  exists evs,
    preview_tab Demo.cwd "python" Demo.cooperative
      {| poll_on_display := Ok None; read_stderr_on_display := Ok "" |}
      {| run_clicked := true; stop_clicked := true; stop_other_clicked := true |}
      {| fs := Demo.files; session := with_selected_file (Some "b.py") Demo.previewing;
         trace := [] |}
    = (Return tt,
       logged evs
         {| fs := Demo.files;
            session := with_selected_file (Some "b.py") Demo.previewing;
            trace := [] |}) /\
    process_calls evs = [] /\ fs_accesses evs = [].
Proof.
  apply (preview_tab_other_file Demo.cwd "python" Demo.cooperative
           {| poll_on_display := Ok None; read_stderr_on_display := Ok "" |}
           {| run_clicked := true; stop_clicked := true; stop_other_clicked := true |}
           Demo.preview "b.py"
           {| fs := Demo.files;
              session := with_selected_file (Some "b.py") Demo.previewing;
              trace := [] |}).
  - reflexivity.
  - reflexivity.
  - discriminate.
  - discriminate.
Defined.

(** ** The chat *)

Ltac keeps_brute :=
  intros w; unfold_M;
  repeat (simpl; rewrite ?stop_preview_run; try case_run); reflexivity.

Lemma keeps_messages_bind {A B} (m : M A) (k : A -> M B) :
  keeps_messages m -> (forall a, keeps_messages (k a)) -> keeps_messages (bind m k).
Proof.
  intros Hm Hk w. specialize (Hm w). unfold bind.
  destruct (m w) as [[a|x] w']; simpl in *; [|done].
  by rewrite (Hk a w').
Qed.

Lemma keeps_messages_try_except {A} (catches : error -> bool) (m : M A)
    (handler : error -> M A) :
  keeps_messages m -> (forall e, keeps_messages (handler e)) ->
  keeps_messages (try_except catches m handler).
Proof.
  intros Hm Hh w. specialize (Hm w). unfold try_except.
  destruct (m w) as [[a|[|e]] w']; simpl in *; try done.
  destruct (catches e); [|done]. by rewrite (Hh e w').
Qed.

Lemma keeps_messages_save_file (cwd : list string) (filename content : value) :
  keeps_messages (save_file cwd filename content).
Proof.
  unfold save_file, escapes_workspace, contains_str, startswith_separator,
    fs_open_write, fs_write.
  keeps_brute.
Qed.

Lemma keeps_messages_delete_file (cwd : list string) (os : os_behaviour)
    (filename : value) :
  keeps_messages (delete_file cwd os filename).
Proof.
  unfold delete_file, escapes_workspace, contains_str, startswith_separator,
    fs_is_file, fs_remove.
  keeps_brute.
Qed.

Lemma keeps_messages_execute_command (cwd : list string) (repr : value -> string)
    (os : os_behaviour) (c : value) (executed : list value) :
  keeps_messages (execute_command cwd repr os c executed).
Proof.
  unfold execute_command.
  destruct c as [| | | | |items|entries]; try keeps_brute.
  repeat case_run; try keeps_brute.
  - apply keeps_messages_bind; [apply keeps_messages_save_file|].
    intros [|]; keeps_brute.
  - apply keeps_messages_bind; [apply keeps_messages_delete_file|].
    intros [|]; keeps_brute.
Qed.

Lemma keeps_messages_execute_commands (cwd : list string) (repr : value -> string)
    (os : os_behaviour) (commands : list value) (executed : list value) :
  keeps_messages (execute_commands cwd repr os commands executed).
Proof.
  revert executed. induction commands as [|c commands IH]; intros executed; simpl.
  - keeps_brute.
  - apply keeps_messages_bind; [apply keeps_messages_execute_command | apply IH].
Qed.

Lemma keeps_messages_parse_and_execute_ai_commands (cwd : list string)
    (json_loads : string -> outcome value) (repr : value -> string)
    (str_of_error : error -> string) (os : os_behaviour) (text : string) :
  keeps_messages (parse_and_execute_ai_commands cwd json_loads repr str_of_error os text).
Proof.
  unfold parse_and_execute_ai_commands. apply keeps_messages_try_except.
  - repeat case_run; try keeps_brute. apply keeps_messages_execute_commands.
  - intros e. destruct e; keeps_brute.
Qed.

Lemma ask_gemini_ai_logged (cwd : list string) (json_dumps : value -> outcome string)
    (repr : value -> string) (prompt : string)
    (generate_content : list value -> outcome string)
    (error_content : error -> string) (chat_history : list value) (w : world) :
  exists r evs,
    ask_gemini_ai cwd json_dumps repr prompt generate_content error_content
      chat_history w = (r, logged evs w).
Proof.
  unfold ask_gemini_ai. unfold bind at 1.
  destruct (get_workspace_python_files_logged cwd w) as [evs ->].
  repeat case_run; unfold_M; simpl; eexists _, _; unfold logged; simpl;
    rewrite <- ?app_assoc; try reflexivity.
  all: by rewrite app_nil_r.
Qed.

(** X19: a prompt that is submitted is appended to the chat history as a
    [user] message before anything else, and the run never ends by
    returning.  The reply is appended, as an [assistant] message holding the
    list that [parse_and_execute_ai_commands] returned, exactly when asking
    the model and carrying out its commands both returned, and the run then
    ends by a rerun; in every other case the history has grown by the
    [user] message only. *)
Theorem chat_input_records_turn (cwd : list string)
    (json_loads : string -> outcome value) (json_dumps : value -> outcome string)
    (repr : value -> string) (str_of_error : error -> string) (prompt : string)
    (generate_content : list value -> outcome string)
    (error_content : error -> string) (os : os_behaviour)
    (user_prompt : string) (w : world) :
  user_prompt <> "" ->
  let asked :=
    {| fs := fs w;
       session := append_message (message "user" (VStr user_prompt)) (session w);
       trace := trace w |} in
  let history := (messages (session w) ++ [message "user" (VStr user_prompt)])%list in
  exists x w',
    chat_input cwd json_loads json_dumps repr str_of_error prompt generate_content
      error_content os (Some user_prompt) w = (Raise x, w') /\
    ((messages (session w') = history /\
      forall text w2,
        ask_gemini_ai cwd json_dumps repr prompt generate_content error_content
          history asked = (Return text, w2) ->
        exists w3,
          parse_and_execute_ai_commands cwd json_loads repr str_of_error os text w2
          = (Raise x, w3)) \/
     (x = RerunException /\
      exists text commands w2 w3,
        ask_gemini_ai cwd json_dumps repr prompt generate_content error_content
          history asked = (Return text, w2) /\
        parse_and_execute_ai_commands cwd json_loads repr str_of_error os text w2
        = (Return commands, w3) /\
        messages (session w')
        = (history ++ [message "assistant" (VList commands)])%list)).
Proof.
  intros Hprompt asked history. unfold chat_input.
  replace (truthy (VStr user_prompt)) with true by (by destruct user_prompt).
  unfold bind at 1. unfold get_session at 1.
  unfold bind at 1. unfold set_session at 1.
  unfold bind at 1. unfold get_session at 1.
  change {| fs := fs w;
            session := append_message (message "user" (VStr user_prompt)) (session w);
            trace := trace w |} with asked.
  change (messages (session asked)) with history.
  unfold bind at 1.
  destruct (ask_gemini_ai_logged cwd json_dumps repr prompt generate_content
              error_content history asked) as (r & evs & Hask).
  rewrite Hask. destruct r as [text|x].
  - unfold bind at 1.
    pose proof (keeps_messages_parse_and_execute_ai_commands cwd json_loads repr
                  str_of_error os text (logged evs asked)) as Hkeep.
    destruct (parse_and_execute_ai_commands cwd json_loads repr str_of_error os text
                (logged evs asked)) as [[commands|x] w3] eqn:Hparse; simpl in Hkeep.
    + unfold_M. simpl. eexists _, _. split; [reflexivity|]. right.
      split; [reflexivity|]. exists text, commands, (logged evs asked), w3.
      repeat split; try done. simpl. by rewrite Hkeep.
    + eexists _, _. split; [reflexivity|]. left. split; [done|].
      intros text' w2 [= <- <-]. by exists w3.
  - eexists _, _. split; [reflexivity|]. left. split; [done|]. intros text w2 [=].
Qed.

Lemma chat_input_records_turn_witness :
  exists x w',
    chat_input Demo.cwd (fun _ => Ok (VList [chat "hello"])) (fun _ => Ok "[]")
      Response.repr Response.str_of_error "prompt" (fun _ => Ok "[...]")
      (fun _ => "failed") Demo.cooperative (Some "hi") Demo.fresh
    = (Raise x, w') /\
    x = RerunException /\
    messages (session w')
    = [message "user" (VStr "hi"); message "assistant" (VList [chat "hello"])].
Proof.
  destruct (chat_input_records_turn Demo.cwd (fun _ => Ok (VList [chat "hello"]))
              (fun _ => Ok "[]") Response.repr Response.str_of_error "prompt"
              (fun _ => Ok "[...]") (fun _ => "failed") Demo.cooperative "hi"
              Demo.fresh)
    as (x & w' & Hrun & Hcases).
  - discriminate.
  - exists x, w'. split; [exact Hrun|].
    vm_compute in Hrun. injection Hrun as <- <-. split; reflexivity.
Defined.

(** X20: when the first command of the reply deletes the file that is being
    previewed, the file is deleted and the preview stopped, but the run ends
    inside [stop_preview]: the reply is never appended to the chat history,
    which keeps the [user] message as its last one. *)
Theorem reply_is_lost_when_previewed_file_is_deleted (cwd : list string)
    (json_loads : string -> outcome value) (json_dumps : value -> outcome string)
    (repr : value -> string) (str_of_error : error -> string) (prompt : string)
    (generate_content : list value -> outcome string)
    (error_content : error -> string) (os : os_behaviour)
    (user_prompt text name : string) (c : value) (rest : list value) (w : world) :
  user_prompt <> "" ->
  fst (ask_gemini_ai cwd json_dumps repr prompt generate_content error_content
         (messages (session w) ++ [message "user" (VStr user_prompt)])%list
         {| fs := fs w;
            session := append_message (message "user" (VStr user_prompt)) (session w);
            trace := trace w |}) = Return text ->
  json_loads (_clean_ai_response_text text) = Ok (VList (c :: rest)) ->
  is_delete c (VStr name) ->
  rejected name = false ->
  is_file (fs w) (workspace_path cwd name) = true ->
  preview_file (session w) = Some name ->
  exists w',
    chat_input cwd json_loads json_dumps repr str_of_error prompt generate_content
      error_content os (Some user_prompt) w = (Raise RerunException, w') /\
    fs w' = delete (workspace_path cwd name) (fs w) /\
    idle (session w') /\
    messages (session w')
    = (messages (session w) ++ [message "user" (VStr user_prompt)])%list.
Proof.
  intros Hprompt Hask Hjson (entries & -> & Haction & Hfilename & Htruthy) Hrej Hfile
    Hpreview.
  assert (name <> "") as Hname by (intros ->; discriminate).
  unfold chat_input.
  replace (truthy (VStr user_prompt)) with true by (by destruct user_prompt).
  unfold bind at 1. unfold get_session at 1.
  unfold bind at 1. unfold set_session at 1.
  unfold bind at 1. unfold get_session at 1.
  cbn [session messages append_message].
  unfold bind at 1.
  destruct (ask_gemini_ai_logged cwd json_dumps repr prompt generate_content
              error_content
              (messages (session w) ++ [message "user" (VStr user_prompt)])%list
              {| fs := fs w;
                 session := append_message (message "user" (VStr user_prompt))
                              (session w);
                 trace := trace w |}) as (r & evs & Hrun).
  rewrite Hrun in Hask |- *. simpl in Hask. subst r.
  unfold bind at 1. unfold parse_and_execute_ai_commands, try_except.
  rewrite Hjson. rewrite execute_commands_cons.
  unfold execute_command.
  assert (eq_str (dict_get "action" entries) "create_update" = false) as ->.
  { apply eq_str_spec in Haction. rewrite Haction. reflexivity. }
  rewrite Haction, Hfilename, Htruthy.
  unfold bind at 1. unfold bind at 1.
  edestruct (delete_file_previewed cwd os name) as [evs' ->];
    [exact Hrej|exact Hname| |
     |eexists; split; [reflexivity|]; simpl; repeat split; reflexivity].
  - exact Hfile.
  - exact Hpreview.
Qed.

Lemma reply_is_lost_when_previewed_file_is_deleted_witness :
  exists w',
    chat_input Demo.cwd
      (fun _ => Ok (VList [VDict [("action", VStr "delete"); ("filename", VStr "a.py")]]))
      (fun _ => Ok "[]") Response.repr Response.str_of_error "prompt"
      (fun _ => Ok "[...]") (fun _ => "failed") Demo.cooperative (Some "remove it")
      Demo.busy
    = (Raise RerunException, w') /\
    fs w' = delete (workspace_path Demo.cwd "a.py") (fs Demo.busy) /\
    idle (session w') /\
    messages (session w')
    = (messages (session Demo.busy) ++ [message "user" (VStr "remove it")])%list.
Proof.
  apply (reply_is_lost_when_previewed_file_is_deleted Demo.cwd
           (fun _ => Ok (VList [VDict [("action", VStr "delete");
                                       ("filename", VStr "a.py")]]))
           (fun _ => Ok "[]") Response.repr Response.str_of_error "prompt"
           (fun _ => Ok "[...]") (fun _ => "failed") Demo.cooperative
           "remove it" "[...]" "a.py"
           (VDict [("action", VStr "delete"); ("filename", VStr "a.py")]) []
           Demo.busy).
  - discriminate.
  - reflexivity.
  - reflexivity.
  - eexists. repeat split; reflexivity.
  - reflexivity.
  - reflexivity.
  - reflexivity.
Defined.

(** ** Asking the model *)

Lemma replace_absent (old new s : string) :
  PyStr.contains old s = false -> replace old new s = s.
Proof.
  unfold replace. induction s as [|c s IH]; [reflexivity|].
  cbn [PyStr.contains replace_from]. intros [Hhere Hlater]%orb_false_elim.
  rewrite Hhere. by rewrite IH.
Qed.

Lemma add_messages_total (json_dumps : value -> outcome string)
    (repr : value -> string) (chat_history gemini_history : list value) :
  Forall is_message chat_history ->
  exists result, add_messages json_dumps repr chat_history gemini_history = Ok result.
Proof.
  intros Hmessages. revert gemini_history.
  induction Hmessages as [|msg rest (role & content & Hrole & Hcontent) _ IH];
    intros gemini_history.
  - by eexists.
  - simpl. rewrite Hrole, Hcontent. apply IH.
Qed.

(** X21: on a chat history of messages with a role and a content,
    [ask_gemini_ai] returns a text whatever the call to the model does: the
    reply of the model, or, when the call raises, the dump of one [chat]
    command, after an error message.  It changes neither the files nor the
    session and touches no process. *)
Theorem ask_gemini_ai_always_replies (cwd : list string)
    (json_dumps : value -> outcome string) (repr : value -> string)
    (prompt understood : string) (generate_content : list value -> outcome string)
    (error_content : error -> string) (chat_history : list value) (w : world) :
  Forall is_message chat_history ->
  json_dumps (VList [chat "Understood. I will respond only with JSON commands."])
  = Ok understood ->
  (forall e, exists text, json_dumps (VList [chat (error_content e)]) = Ok text) ->
  exists gemini_api_history text evs,
    ask_gemini_ai cwd json_dumps repr prompt generate_content error_content
      chat_history w = (Return text, logged evs w) /\
    process_calls evs = [] /\
    (generate_content gemini_api_history = Ok text \/
     exists e,
       generate_content gemini_api_history = Err e /\
       json_dumps (VList [chat (error_content e)]) = Ok text /\
       In (Ui UiError) evs).
Proof.
  intros Hmessages Hunderstood Hdumps.
  unfold ask_gemini_ai. unfold bind at 1.
  rewrite get_workspace_python_files_run.
  set (files := if is_dir (fs w) (cwd ++ [WORKSPACE_DIR]) then _ else _).
  assert (exists names evs, files = (Return names, logged evs w) /\
                            process_calls evs = []) as (names & evs & -> & Hcalls).
  { subst files. destruct (is_dir (fs w) (cwd ++ [WORKSPACE_DIR])).
    - eexists _, _. split; [reflexivity|].
      induction (iterdir (fs w) (cwd ++ [WORKSPACE_DIR])) as [|p ps IH]; [done|].
      exact IH.
    - exists [], []. split; [|done]. unfold logged. rewrite app_nil_r. by destruct w. }
  unfold _prepare_gemini_history. rewrite Hunderstood.
  edestruct (add_messages_total json_dumps repr chat_history) as [history ->];
    [exact Hmessages|].
  exists history. destruct (generate_content history) as [text|e] eqn:Hcall.
  - exists text, evs. split; [reflexivity|]. split; [exact Hcalls|]. by left.
  - destruct (Hdumps e) as [text Htext]. rewrite Htext.
    exists text, (evs ++ [Ui UiError])%list. split.
    + unfold_M. unfold logged. simpl. by rewrite <- app_assoc.
    + split.
      * unfold process_calls in *. by rewrite List.filter_app, Hcalls.
      * right. exists e. repeat split; try done. apply in_app_iff. right. by left.
Qed.

Lemma ask_gemini_ai_always_replies_witness :
  exists text evs,
    ask_gemini_ai Demo.cwd (fun _ => Ok "[]") Response.repr "prompt"
      (fun _ => Err (OtherError "ResourceExhausted")) (fun _ => "failed")
      [message "user" (VStr "hi")] Demo.fresh
    = (Return text, logged evs Demo.fresh) /\
    In (Ui UiError) evs.
Proof.
  destruct (ask_gemini_ai_always_replies Demo.cwd (fun _ => Ok "[]") Response.repr
              "prompt" "[]" (fun _ => Err (OtherError "ResourceExhausted"))
              (fun _ => "failed") [message "user" (VStr "hi")] Demo.fresh)
    as (history & text & evs & Hrun & _ & [Hreply|(e & _ & _ & Herror)]).
  - constructor; [|constructor]. eexists _, _. split; reflexivity.
  - reflexivity.
  - intros e. by exists "[]".
  - discriminate Hreply.
  - exists text, evs. split; [exact Hrun | exact Herror].
Defined.

(** X22: the list of files that [ask_gemini_ai] fetches is used only to
    replace ['Current Python files: ...'] in the prompt.  For a given value of
    the prompt that does not hold this text, the replacement changes nothing
    and the list is not used: the result is the same in any two worlds.  (The
    prompt itself is worked out from the workspace at the top of every run of
    the script: it is by the prompt, not by this list, that the names of the
    files reach the model.) *)
Theorem fetched_file_list_is_unused_without_the_placeholder (cwd : list string)
    (json_dumps : value -> outcome string) (repr : value -> string)
    (prompt : string) (generate_content : list value -> outcome string)
    (error_content : error -> string) (chat_history : list value) (w w' : world) :
  PyStr.contains "Current Python files: ..." prompt = false ->
  fst (ask_gemini_ai cwd json_dumps repr prompt generate_content error_content
         chat_history w)
  = fst (ask_gemini_ai cwd json_dumps repr prompt generate_content error_content
           chat_history w').
Proof.
  intros Habsent. unfold ask_gemini_ai. unfold bind at 1 3.
  destruct (get_workspace_python_files_logged cwd w) as [evs ->].
  destruct (get_workspace_python_files_logged cwd w') as [evs' ->].
  rewrite !(replace_absent _ _ _ Habsent).
  destruct (_prepare_gemini_history json_dumps repr chat_history prompt)
    as [history|e]; [|reflexivity].
  destruct (generate_content history) as [text|e]; [reflexivity|].
  unfold_M. simpl. by destruct (json_dumps _).
Qed.

Lemma fetched_file_list_is_unused_without_the_placeholder_witness :
  fst (ask_gemini_ai Demo.cwd (fun _ => Ok "[]") Response.repr
         "Arquivos Python atuais: a.py" (fun _ => Ok "[...]") (fun _ => "failed")
         [message "user" (VStr "hi")] Demo.fresh)
  = fst (ask_gemini_ai Demo.cwd (fun _ => Ok "[]") Response.repr
           "Arquivos Python atuais: a.py" (fun _ => Ok "[...]") (fun _ => "failed")
           [message "user" (VStr "hi")]
           {| fs := ∅; session := state_defaults; trace := [] |}).
Proof.
  apply (fetched_file_list_is_unused_without_the_placeholder Demo.cwd
           (fun _ => Ok "[]") Response.repr "Arquivos Python atuais: a.py"
           (fun _ => Ok "[...]") (fun _ => "failed") [message "user" (VStr "hi")]
           Demo.fresh {| fs := ∅; session := state_defaults; trace := [] |}).
  reflexivity.
Defined.
